(** * bcoin script fuzzer (scripts/fuzz.js): model and verified properties

    The development embeds the fuzz harness of [scripts/fuzz.js] and the
    parts of the script library it drives.  The harness is translated
    function by function; the library ([lib/script], [lib/primitives],
    [lib/crypto], [lib/utils]) is not among the sources, so the few
    library functions whose behaviour a property depends on are modelled
    from the specification and the rest are section variables. *)

From Stdlib Require Import String Ascii.
From Stdlib Require Import ZArith List Bool Lia.
From Stdlib Require Import Strings.Byte.
Import ListNotations.
Local Open Scope Z_scope.

Set Implicit Arguments.

(* ================================================================== *)
(** * Bytes and little-endian integers *)
(* ================================================================== *)

Definition bytes := list byte.

Definition readU8 (b : byte) : Z := Z.of_N (Byte.to_N b).

Definition writeU8 (z : Z) : byte :=
  match Byte.of_N (Z.to_N (z mod 256)) with
  | Some b => b
  | None => x00
  end.

Definition writeU16 (z : Z) : bytes :=
  [writeU8 z; writeU8 (z / 256)].

Definition writeU32 (z : Z) : bytes :=
  [writeU8 z; writeU8 (z / 256); writeU8 (z / 65536); writeU8 (z / 16777216)].

Definition readU16 (b0 b1 : byte) : Z :=
  readU8 b0 + 256 * readU8 b1.

Definition readU32 (b0 b1 b2 b3 : byte) : Z :=
  readU8 b0 + 256 * readU8 b1 + 65536 * readU8 b2 + 16777216 * readU8 b3.

Definition blen (b : bytes) : Z := Z.of_nat (length b).

Definition bytes_eqb (a b : bytes) : bool :=
  if list_eq_dec Byte.byte_eq_dec a b then true else false.

(** [buf.slice(0, n)] and [buf.slice(n)] for [0 <= n]. *)
Definition take (n : Z) (b : bytes) : bytes := firstn (Z.to_nat n) b.
Definition drop (n : Z) (b : bytes) : bytes := skipn (Z.to_nat n) b.

(** [buf.toString('hex')]. *)
Definition hex_digit (n : Z) : ascii :=
  ascii_of_nat (Z.to_nat (if n <? 10 then 48 + n else 87 + n)).

Fixpoint toHex (b : bytes) : string :=
  match b with
  | [] => EmptyString
  | x :: tl =>
      String (hex_digit (readU8 x / 16))
        (String (hex_digit (readU8 x mod 16)) (toHex tl))
  end.

(* ================================================================== *)
(** * The script value: operations, parsing and serialization *)
(* ================================================================== *)

(** Modelled from the spec: the opcodes the parser and the templates of
    lib/script use (sections 4.1 and 4.4).  The specification names the
    opcodes and says that every byte maps to one opcode; the numbers are
    those of the Bitcoin script byte code.  What the harness itself reads
    from the table [Script.opcodes] is [Script_opcodes] below. *)
Module opcodes.
Definition OP_0 : Z := 0x00.
Definition PUSHDATA1 : Z := 0x4c.
Definition PUSHDATA2 : Z := 0x4d.
Definition PUSHDATA4 : Z := 0x4e.
Definition OP_1NEGATE : Z := 0x4f.
Definition OP_1 : Z := 0x51.
Definition OP_16 : Z := 0x60.
Definition HASH160 : Z := 0xa9.
Definition EQUAL : Z := 0x87.
End opcodes.

Module Opcode.

(** Modelled from the spec: the operations of lib/script/opcode.js.  An
    operation holds the opcode number in [value] and the pushed bytes,
    if any, in [data].  A push that overruns the buffer is kept as the
    operation of value [-1] holding the bytes that could not be parsed
    (section 4.1: the failure is deferred to execution time). *)
Record t : Type := make { value : Z; data : option bytes }.

Definition fromOp (v : Z) : t := make v None.

Definition invalid (rest : bytes) : t := make (-1) (Some rest).

(** Modelled from the spec: [Opcode.fromData] (lib/script/opcode.js),
    the operation that pushes [d]: a direct push for up to 0x4b bytes,
    then OP_PUSHDATA1/2/4 with a 1/2/4-byte length. *)
Definition fromData (d : bytes) : t :=
  if blen d =? 0 then fromOp opcodes.OP_0
  else if blen d <=? 0x4b then make (blen d) (Some d)
  else if blen d <=? 0xff then make opcodes.PUSHDATA1 (Some d)
  else if blen d <=? 0xffff then make opcodes.PUSHDATA2 (Some d)
  else make opcodes.PUSHDATA4 (Some d).

(** Modelled from the spec: [Opcode.fromSmall], the opcode that pushes
    the small integer [n] ([OP_0], [OP_1] .. [OP_16]). *)
Definition fromSmall (n : Z) : t :=
  fromOp (if n =? 0 then opcodes.OP_0 else n + 0x50).

(** Modelled from the spec: the stack element a push operation places
    (section 4.2: a data push places its bytes; OP_0 places the empty
    element). *)
Definition toPush (op : t) : option bytes :=
  match data op with
  | Some d => if value op =? -1 then None else Some d
  | None => if value op =? opcodes.OP_0 then Some [] else None
  end.

(** Modelled from the spec: serialization of one operation, the inverse
    of [fromReader] (section 4.1).  A parse error gives back the bytes it
    holds. *)
Definition toRaw (op : t) : bytes :=
  let v := value op in
  match data op with
  | None => if v =? -1 then [] else [writeU8 v]
  | Some d =>
      if v =? -1 then d
      else if v <=? 0x4b then writeU8 v :: d
      else if v =? opcodes.PUSHDATA1 then writeU8 v :: writeU8 (blen d) :: d
      else if v =? opcodes.PUSHDATA2 then writeU8 v :: writeU16 (blen d) ++ d
      else if v =? opcodes.PUSHDATA4 then writeU8 v :: writeU32 (blen d) ++ d
      else [writeU8 v]
  end.

Definition readPush (v n : Z) (all body : bytes) : t * bytes :=
  if blen body <? n then (invalid all, [])
  else (make v (Some (take n body)), drop n body).

(** Modelled from the spec: reading one operation off the front of a
    buffer (section 4.1).  A byte in [0x01,0x4b] is a direct push of that
    many bytes, OP_PUSHDATA1/2/4 carry a 1/2/4-byte little-endian
    length, every other byte is an opcode; a push whose length overruns
    the buffer consumes the rest of the buffer as a parse error. *)
Definition fromReader (b : bytes) : option (t * bytes) :=
  match b with
  | [] => None
  | x :: tl =>
      let v := readU8 x in
      if (1 <=? v) && (v <=? 0x4b) then Some (readPush v v b tl)
      else if v =? opcodes.PUSHDATA1 then
        match tl with
        | l0 :: body => Some (readPush v (readU8 l0) b body)
        | _ => Some (invalid b, [])
        end
      else if v =? opcodes.PUSHDATA2 then
        match tl with
        | l0 :: l1 :: body => Some (readPush v (readU16 l0 l1) b body)
        | _ => Some (invalid b, [])
        end
      else if v =? opcodes.PUSHDATA4 then
        match tl with
        | l0 :: l1 :: l2 :: l3 :: body =>
            Some (readPush v (readU32 l0 l1 l2 l3) b body)
        | _ => Some (invalid b, [])
        end
      else Some (fromOp v, tl)
  end.

(** Well-formed operations: an opcode byte without data, or a push whose
    opcode and length agree. *)
Definition wf (op : t) : bool :=
  let v := value op in
  match data op with
  | None => (0 <=? v) && (v <=? 0xff) && negb ((1 <=? v) && (v <=? 0x4e))
  | Some d =>
      ((1 <=? v) && (v <=? 0x4b) && (blen d =? v))
      || ((v =? opcodes.PUSHDATA1) && (blen d <? 0x100))
      || ((v =? opcodes.PUSHDATA2) && (blen d <? 0x10000))
      || ((v =? opcodes.PUSHDATA4) && (blen d <? 0x100000000))
  end.

End Opcode.

Module Script.

(** Modelled from the spec: the script value of lib/script/script.js
    (section 3), holding the parsed operations and the raw bytes they
    were read from or compiled to. *)
Record t : Type := make { code : list Opcode.t; raw : bytes }.

(** Modelled from the spec: serialization and parsing of a script
    (section 4.1): the operations one after the other, read from left to
    right until the buffer is used up. *)
Definition serialize (ops : list Opcode.t) : bytes :=
  flat_map Opcode.toRaw ops.

Fixpoint parse_fuel (fuel : nat) (b : bytes) : list Opcode.t :=
  match fuel with
  | O => []
  | S fuel' =>
      match Opcode.fromReader b with
      | None => []
      | Some (op, rest) => op :: parse_fuel fuel' rest
      end
  end.

(** Every operation consumes at least one byte, so the length of the
    buffer is enough fuel. *)
Definition parse (b : bytes) : list Opcode.t := parse_fuel (length b) b.

(** Modelled from the spec: [new Script()], [Script.fromRaw(data)],
    which keeps the bytes and parses them, [script.toRaw()],
    [script.compile()] on a script built operation by operation, and
    [script.values()]. *)
Definition empty : t := make [] [].

Definition fromRaw (b : bytes) : t := make (parse b) b.

Definition toRaw (s : t) : bytes := raw s.

Definition compile (ops : list Opcode.t) : t := make ops (serialize ops).

Definition values (s : t) : list Opcode.t := code s.

(** Modelled from the spec: [Script.prototype.isPushOnly]
    (lib/script/script.js): no parse error and no opcode above OP_16. *)
Definition isPushOnly (s : t) : bool :=
  forallb (fun op => negb (Opcode.value op =? -1)
                     && (Opcode.value op <=? opcodes.OP_16)) (code s).

(** Modelled from the spec: [Script.fromScripthash] and
    [Script.fromProgram] (section 4.4): the pay-to-script-hash template
    [OP_HASH160 <hash> OP_EQUAL] and the witness program template
    [OP_n <program>]. *)
Definition fromScripthash (hash : bytes) : t :=
  compile [Opcode.fromOp opcodes.HASH160; Opcode.fromData hash;
           Opcode.fromOp opcodes.EQUAL].

Definition fromProgram (version : Z) (data : bytes) : t :=
  compile [Opcode.fromSmall version; Opcode.fromData data].

(** Modelled from the spec: the 20-byte hash a pay-to-script-hash
    script embeds (section 4.4): the script is 23 bytes, OP_HASH160, a
    push of 20 bytes and OP_EQUAL. *)
Definition getScripthash (s : t) : option bytes :=
  match raw s with
  | op :: len :: rest =>
      if (blen (raw s) =? 23) && (readU8 op =? opcodes.HASH160)
         && (readU8 len =? 0x14)
         && (readU8 (nth 20 rest x00) =? opcodes.EQUAL)
      then Some (take 20 rest) else None
  | _ => None
  end.

(** Modelled from the spec: version and program of a witness program
    script (section 4.4): a version opcode OP_0 or OP_1 .. OP_16 and one
    push of 2 to 40 bytes that ends the script. *)
Definition getProgram (s : t) : option (Z * bytes) :=
  match raw s with
  | op :: len :: rest =>
      let v := readU8 op in
      if ((v =? opcodes.OP_0)
          || ((opcodes.OP_1 <=? v) && (v <=? opcodes.OP_16)))
         && (2 <=? readU8 len) && (readU8 len <=? 40)
         && (blen rest =? readU8 len)
      then Some (if v =? 0 then 0 else v - 0x50, rest) else None
  | _ => None
  end.

(** Modelled from the spec: [script.hash160()] and [script.sha256()],
    the hash of the serialized script, over a given hash function. *)
Definition hash160 (h : bytes -> bytes) (s : t) : bytes := h (toRaw s).
Definition sha256 (h : bytes -> bytes) (s : t) : bytes := h (toRaw s).

(** Well-formed scripts: well-formed operations, and raw bytes that are
    their serialization. *)
Definition wf (s : t) : bool :=
  forallb Opcode.wf (code s) && bytes_eqb (raw s) (serialize (code s)).

End Script.

(* ================================================================== *)
(** * Witnesses, stacks, transactions and errors *)
(* ================================================================== *)

(** Modelled from the spec: a witness is an ordered sequence of stack
    elements (section 3); [new Witness()] is the empty one and
    [witness.push(item)] appends. *)
Definition Witness := list bytes.

Module Stack.

Definition t := list bytes.

(** Modelled from the spec: the truth value of a stack element
    (sections 4.1 and 4.2); any non-zero byte makes it true, except the
    sign bit alone in the last byte (negative zero). *)
Fixpoint toBool (b : bytes) : bool :=
  match b with
  | [] => false
  | [x] => negb (readU8 x =? 0) && negb (readU8 x =? 0x80)
  | x :: tl => negb (readU8 x =? 0) || toBool tl
  end.

(** Modelled from the spec: [stack.length] and [stack.getBool(index)]
    of lib/script/stack.js; a negative index counts from the top of the
    stack. *)
Definition length (s : t) : Z := Z.of_nat (List.length s).

Definition getBool (s : t) (index : Z) : bool :=
  let i := if index <? 0 then index + length s else index in
  match nth_error s (Z.to_nat i) with
  | Some item => toBool item
  | None => false
  end.

End Stack.

(** Modelled from the spec: the fields of outpoints, inputs, outputs and
    transactions (lib/primitives) that the harness reads and writes. *)
Module Outpoint.
Record t : Type := make { hash : string; index : Z }.
End Outpoint.

Module Input.
Record t : Type := make {
  prevout : Outpoint.t;
  script : Script.t;
  witness : Witness;
  sequence : Z
}.
Definition set_sequence (i : t) (n : Z) : t :=
  make (prevout i) (script i) (witness i) n.
Definition set_script (i : t) (s : Script.t) : t :=
  make (prevout i) s (witness i) (sequence i).
Definition set_witness (i : t) (w : Witness) : t :=
  make (prevout i) (script i) w (sequence i).
End Input.

Module Output.
Record t : Type := make { script : Script.t; value : Z }.
Definition fromScript (s : Script.t) (v : Z) : t := make s v.
End Output.

Module TX.
Record t : Type := make {
  version : Z;
  inputs : list Input.t;
  outputs : list Output.t;
  locktime : Z
}.
Definition set_version (tx : t) (v : Z) : t :=
  make v (inputs tx) (outputs tx) (locktime tx).
Definition set_locktime (tx : t) (n : Z) : t :=
  make (version tx) (inputs tx) (outputs tx) n.
Definition push_input (tx : t) (i : Input.t) : t :=
  make (version tx) (inputs tx ++ [i]) (outputs tx) (locktime tx).
Definition push_output (tx : t) (o : Output.t) : t :=
  make (version tx) (inputs tx) (outputs tx ++ [o]) (locktime tx).
Definition set_inputs (tx : t) (l : list Input.t) : t :=
  make (version tx) l (outputs tx) (locktime tx).
(** [tx.refresh()] drops the cached serialization and hashes; the model
    keeps no cache, every serialization is computed from the fields. *)
Definition refresh (tx : t) : t := tx.
End TX.

Module Error.
(** A thrown value: [e.type] and [e.code], either of which a value that
    is not a script error lacks. *)
Record t : Type := make { type : option string; code : option string }.
End Error.

Inductive Result (A : Type) : Type :=
| Ok (a : A)
| Throw (e : Error.t).
Arguments Ok {A} a.
Arguments Throw {A} e.

(** [e.type === 'ScriptError'] *)
Definition isScriptError (e : Error.t) : bool :=
  match Error.type e with
  | Some s => String.eqb s "ScriptError"
  | None => false
  end.

(** [throw new Error()] and the TypeError of a property access on
    [undefined]. *)
Definition plainError : Error.t := Error.make None None.
Definition typeError : Error.t := Error.make None None.

(** The reference verifier's [verify(rawTx, index, rawOutput, amount,
    flags)]; by its contract (section 6 of the specification) it answers
    every call with a result code. *)
Definition Oracle := bytes -> Z -> bytes -> Z -> Z -> string.

(** The library the harness requires and that is not part of the sources:
    the random source, the hashes, the script templates, the
    verification engine, and the table [Script.opcodes], an object read
    by property name: [Script_opcodes name] is the number stored under
    [name], and [None] where the object has no such property and the
    read gives [undefined]. *)
Class Library : Type := {
  Rng : Type;
  Script_opcodes : string -> option Z;
  util_random : Z -> Z -> Rng -> Z * Rng;
  random_randomBytes : Z -> Rng -> bytes * Rng;
  crypto_hash160 : bytes -> bytes;
  crypto_sha256 : bytes -> bytes;
  Script_fromPubkey : bytes -> Script.t;
  Script_fromPubkeyhash : bytes -> Script.t;
  Script_fromMultisig : Z -> Z -> list bytes -> Script.t;
  Script_fromItems : list bytes -> Script.t;
  Input_fromOutpoint : Outpoint.t -> Input.t;
  TX_new : TX.t;
  TX_toRaw : TX.t -> bytes;
  Script_execute :
    Script.t -> Stack.t -> Z -> TX.t -> Z -> Z -> Z -> Error.t + Stack.t;
  Script_verify :
    Script.t -> Witness -> Script.t -> TX.t -> Z -> Z -> Z -> option Error.t
}.

(** What the harness relies on: [util.random(min, max)] draws from
    [min, max), [randomBytes(n)] returns [n] bytes, and the hashes have
    their fixed widths. *)
Definition random_in_range (L : Library) : Prop :=
  forall lo hi g, lo < hi -> lo <= fst (util_random lo hi g) < hi.

Definition randomBytes_length (L : Library) : Prop :=
  forall n g, 0 <= n -> blen (fst (random_randomBytes n g)) = n.

Definition hash160_length (L : Library) : Prop :=
  forall b, blen (crypto_hash160 b) = 20.

Definition sha256_length (L : Library) : Prop :=
  forall b, blen (crypto_sha256 b) = 32.

(* ================================================================== *)
(** * Effects: state and exceptions *)
(* ================================================================== *)

(** A computation over a state [S] that returns or throws. *)
Definition SE (S A : Type) : Type := S -> Result A * S.

Definition ret {S A} (a : A) : SE S A := fun s => (Ok a, s).

Definition throw {S A} (e : Error.t) : SE S A := fun s => (Throw e, s).

Definition bind {S A B} (m : SE S A) (k : A -> SE S B) : SE S B :=
  fun s =>
    match m s with
    | (Ok a, s') => k a s'
    | (Throw e, s') => (Throw e, s')
    end.

(** [try { m } catch (e) { ... }]: the thrown value is handed over. *)
Definition try_ {S A} (m : SE S A) : SE S (Error.t + A) :=
  fun s =>
    match m s with
    | (Ok a, s') => (Ok (inr a), s')
    | (Throw e, s') => (Ok (inl e), s')
    end.

(** [m] returns from every state, with a value that satisfies [Q]. *)
Definition returns {S A} (Q : A -> Prop) (m : SE S A) : Prop :=
  forall s, exists a s', m s = (Ok a, s') /\ Q a.

Definition any {A} : A -> Prop := fun _ => True.

Declare Scope se_scope.
Delimit Scope se_scope with se.
Notation "x <- m ;; k" := (bind m (fun x => k))
  (at level 61, m at next level, right associativity) : se_scope.
Notation "m ;; k" := (bind m (fun _ => k))
  (at level 61, right associativity) : se_scope.
Local Open Scope se_scope.

(** What [util.log] is given. *)
Inductive LogArg : Type :=
| LStr (s : string)
| LNum (n : Z)
| LTX (tx : TX.t)
| LScript (s : Script.t)
| LWitness (w : Witness)
| LStack (s : Stack.t).

(** The calls into the engine and the reference verifier, with their
    arguments. *)
Inductive Call : Type :=
| CallExecute (script : Script.t) (stack : Stack.t) (flags : Z) (tx : TX.t)
    (index value version : Z)
| CallVerify (input : Script.t) (witness : Witness) (output : Script.t)
    (tx : TX.t) (index value flags : Z)
| CallOracle (rawtx : bytes) (index : Z) (rawout : bytes) (value flags : Z).

Definition call_index (c : Call) : Z :=
  match c with
  | CallExecute _ _ _ _ i _ _ => i
  | CallVerify _ _ _ _ i _ _ => i
  | CallOracle _ i _ _ _ => i
  end.

Definition call_value (c : Call) : Z :=
  match c with
  | CallExecute _ _ _ _ _ v _ => v
  | CallVerify _ _ _ _ _ v _ => v
  | CallOracle _ _ _ v _ => v
  end.

(* ================================================================== *)
(** * The harness: scripts/fuzz.js *)
(* ================================================================== *)

Module Context.
(** The object the [random*Context] functions return. *)
Record t : Type := make {
  input : Script.t;
  witness : Witness;
  output : Script.t;
  redeem : option Script.t
}.
End Context.

Section Harness.

Context {L : Library}.

(** The process state the harness acts on: the random source, the lines
    written by [util.log], and the calls made into the engine and the
    reference verifier. *)
Record World : Type := mkWorld {
  rng : Rng;
  logs : list (list LogArg);
  calls : list Call
}.

Definition Gen (A : Type) : Type := SE Rng A.
Definition M (A : Type) : Type := SE World A.

Definition liftGen {A} (m : Gen A) : M A :=
  fun w =>
    let (r, g) := m (rng w) in
    (r, mkWorld g (logs w) (calls w)).

(** [util.log(...args)] *)
Definition util_log (args : list LogArg) : M unit :=
  fun w => (Ok tt, mkWorld (rng w) (logs w ++ [args]) (calls w)).

Definition record_call (c : Call) : M unit :=
  fun w => (Ok tt, mkWorld (rng w) (logs w) (calls w ++ [c])).

(** [util.random(min, max)] and [random.randomBytes(n)] *)
Definition random (lo hi : Z) : Gen Z :=
  fun g => let (z, g') := util_random lo hi g in (Ok z, g').

Definition randomBytes (n : Z) : Gen bytes :=
  fun g => let (b, g') := random_randomBytes n g in (Ok b, g').

(** [script.execute(stack, flags, tx, index, value, version)]: returns
    the stack it leaves, or throws. *)
Definition execute (script : Script.t) (stack : Stack.t) (flags : Z)
    (tx : TX.t) (index value version : Z) : M Stack.t :=
  record_call (CallExecute script stack flags tx index value version) ;;
  match Script_execute script stack flags tx index value version with
  | inl e => throw e
  | inr stack' => ret stack'
  end.

(** [Script.verify(input, witness, output, tx, index, value, flags)] *)
Definition verify (input : Script.t) (witness : Witness)
    (output : Script.t) (tx : TX.t) (index value flags : Z) : M unit :=
  record_call (CallVerify input witness output tx index value flags) ;;
  match Script_verify input witness output tx index value flags with
  | Some e => throw e
  | None => ret tt
  end.

(** Lines 26-27.  [FlagsTable] holds the three entries of [Script.flags]
    the harness reads; their values are set in lib/script/common.js,
    which is not among the sources. *)
Record FlagsTable : Type := mkFlags {
  MANDATORY_VERIFY_FLAGS : Z;
  STANDARD_VERIFY_FLAGS : Z;
  VERIFY_WITNESS : Z
}.

(** JavaScript's ToInt32: the bitwise operators work on their operands
    wrapped to signed 32-bit integers. *)
Definition toInt32 (z : Z) : Z := (z + 2 ^ 31) mod 2 ^ 32 - 2 ^ 31.

(** [a | b] *)
Definition bitOr (a b : Z) : Z := Z.lor (toInt32 a) (toInt32 b).

Definition MANDATORY (flags : FlagsTable) : Z :=
  bitOr (MANDATORY_VERIFY_FLAGS flags) (VERIFY_WITNESS flags).

Definition STANDARD (flags : FlagsTable) : Z :=
  STANDARD_VERIFY_FLAGS flags.

(** Lines 29-33.  [consensus] is the module-level variable: the
    reference verifier when it could be loaded, [None] otherwise. *)
Definition verifyConsensus (consensus : option Oracle) (tx : TX.t)
    (index : Z) (output : Script.t) (value flags : Z) : M string :=
  match consensus with
  | None => ret "OK"%string
  | Some oracle =>
      record_call
        (CallOracle (TX_toRaw tx) index (Script.toRaw output) value flags) ;;
      ret (oracle (TX_toRaw tx) index (Script.toRaw output) value flags)
  end.

(** [err !== code], and [code] inside a template string. *)
Definition code_differs (err : string) (code : option string) : bool :=
  match code with
  | Some c => negb (String.eqb err c)
  | None => true
  end.

Definition show_code (code : option string) : string :=
  match code with
  | Some c => c
  | None => "undefined"%string
  end.

(** Lines 35-50. *)
Definition assertConsensus (consensus : option Oracle) (tx : TX.t)
    (output : Script.t) (flags : Z) (code : option string) : M unit :=
  match consensus with
  | None => ret tt
  | Some _ =>
      err <- verifyConsensus consensus tx 0 output 0 flags ;;
      if code_differs err code then
        util_log [LStr "bitcoinconsensus mismatch!"] ;;
        util_log [LStr (err ++ " (bitcoin core) !== "
                        ++ show_code code ++ " (bcoin)")%string] ;;
        util_log [LTX tx] ;;
        util_log [LScript output] ;;
        util_log [LNum flags] ;;
        util_log [LStr "TX: %s"; LStr (toHex (TX_toRaw tx))] ;;
        util_log [LStr "Output Script: %s";
                  LStr (toHex (Script.toRaw output))]
      else ret tt
  end.

(** The lines [assertConsensus] writes on a mismatch (lines 42-48). *)
Definition mismatch_lines (err : string) (tx : TX.t)
    (output : Script.t) (flags : Z) (code : option string)
    : list (list LogArg) :=
  [ [LStr "bitcoinconsensus mismatch!"];
    [LStr (err ++ " (bitcoin core) !== " ++ show_code code ++ " (bcoin)")%string];
    [LTX tx];
    [LScript output];
    [LNum flags];
    [LStr "TX: %s"; LStr (toHex (TX_toRaw tx))];
    [LStr "Output Script: %s"; LStr (toHex (Script.toRaw output))] ].

(** Lines 71-74. *)
Definition randomOutpoint : Gen Outpoint.t :=
  b <- randomBytes 32 ;;
  n <- random 0 0xffffffff ;;
  ret (Outpoint.make (toHex b) n).

(** Lines 76-83. *)
Definition randomInput : Gen Input.t :=
  o <- randomOutpoint ;;
  let input := Input_fromOutpoint o in
  r <- random 0 5 ;;
  if r =? 0 then
    s <- random 0 0xffffffff ;;
    ret (Input.set_sequence input s)
  else ret input.

(** [for (let i = 0; i < n; i++) acc = step(acc)] *)
Fixpoint repeatM {S A} (n : nat) (step : A -> SE S A) (acc : A) : SE S A :=
  match n with
  | O => ret acc
  | S n' => acc' <- step acc ;; repeatM n' step acc'
  end.

(** One round of the loops of lines 114-117 and 129-132. *)
Definition randomItem : Gen bytes :=
  len <- random 0 100 ;;
  randomBytes len.

(** Lines 110-123.  A buffer is truthy, so [redeem] is pushed whenever
    it is passed. *)
Definition randomWitness (redeem : option bytes) : Gen Witness :=
  size <- random 1 100 ;;
  witness <- repeatM (Z.to_nat size)
               (fun w => item <- randomItem ;; ret (w ++ [item])) [] ;;
  match redeem with
  | Some r => ret (witness ++ [r])
  | None => ret witness
  end.

(** Lines 125-138. *)
Definition randomInputScript (redeem : option bytes) : Gen Script.t :=
  size <- random 1 100 ;;
  script <- repeatM (Z.to_nat size)
              (fun ops => item <- randomItem ;;
                          ret (ops ++ [Opcode.fromData item])) [] ;;
  match redeem with
  | Some r => ret (Script.compile (script ++ [Opcode.fromData r]))
  | None => ret (Script.compile script)
  end.

(** Lines 140-143. *)
Definition randomOutputScript : Gen Script.t :=
  size <- random 1 10000 ;;
  b <- randomBytes size ;;
  ret (Script.fromRaw b).

(** [v === entry] and [v > entry] for a number [v] and an entry read
    from a table: against [undefined] both are false ([===] because the
    types differ, [>] because [undefined] converts to NaN). *)
Definition strictEquals (v : Z) (entry : option Z) : bool :=
  match entry with
  | Some k => v =? k
  | None => false
  end.

Definition greaterThan (v : Z) (entry : option Z) : bool :=
  match entry with
  | Some k => v >? k
  | None => false
  end.

(** Lines 150-157: the three tests that let the loop [continue]. *)
Definition passes_over (op : Opcode.t) : bool :=
  strictEquals (Opcode.value op) (Script_opcodes "NOP"%string)
  || strictEquals (Opcode.value op) (Script_opcodes "NOP_1"%string)
  || greaterThan (Opcode.value op) (Script_opcodes "NOP_3"%string).

(** Lines 145-163. *)
Definition isPushOnly (script : Script.t) : bool :=
  if Script.isPushOnly script then true
  else forallb passes_over (Script.values script).

(** What the loop of lines 149-160 passes over when the three names
    stand for the numbers [nop], [nop1] and [nop3]. *)
Definition nop_like (nop nop1 nop3 : Z) (op : Opcode.t) : Prop :=
  Opcode.value op = nop
  \/ Opcode.value op = nop1
  \/ Opcode.value op > nop3.

(** [util.random(0, 2) === 0 ? 33 : 65] *)
Definition randomKeyLength : Gen Z :=
  r <- random 0 2 ;;
  ret (if r =? 0 then 33 else 65).

(** Lines 165-168. *)
Definition randomPubkey : Gen Script.t :=
  len <- randomKeyLength ;;
  b <- randomBytes len ;;
  ret (Script_fromPubkey b).

(** Lines 170-172. *)
Definition randomPubkeyhash : Gen Script.t :=
  b <- randomBytes 20 ;;
  ret (Script_fromPubkeyhash b).

(** Lines 174-185. *)
Definition randomMultisig : Gen Script.t :=
  n <- random 1 16 ;;
  m <- random 1 n ;;
  keys <- repeatM (Z.to_nat n)
            (fun keys => len <- randomKeyLength ;;
                         b <- randomBytes len ;;
                         ret (keys ++ [b])) [] ;;
  ret (Script_fromMultisig m n keys).

(** Lines 187-189. *)
Definition randomScripthash : Gen Script.t :=
  b <- randomBytes 20 ;;
  ret (Script.fromScripthash b).

(** Lines 191-193. *)
Definition randomWitnessPubkeyhash : Gen Script.t :=
  b <- randomBytes 20 ;;
  ret (Script.fromProgram 0 b).

(** Lines 195-197. *)
Definition randomWitnessScripthash : Gen Script.t :=
  b <- randomBytes 32 ;;
  ret (Script.fromProgram 0 b).

(** Lines 199-203. *)
Definition randomProgram : Gen Script.t :=
  version <- random 0 16 ;;
  size <- random 2 41 ;;
  b <- randomBytes size ;;
  ret (Script.fromProgram version b).

(** Lines 205-219. *)
Definition randomRedeem : Gen Script.t :=
  r <- random 0 5 ;;
  if r =? 0 then randomPubkey
  else if r =? 1 then randomPubkeyhash
  else if r =? 2 then randomMultisig
  else if r =? 3 then randomWitnessPubkeyhash
  else if r =? 4 then randomProgram
  else throw plainError.

(** Lines 221-239. *)
Definition randomScript : Gen Script.t :=
  r <- random 0 7 ;;
  if r =? 0 then randomPubkey
  else if r =? 1 then randomPubkeyhash
  else if r =? 2 then randomMultisig
  else if r =? 3 then randomScripthash
  else if r =? 4 then randomWitnessPubkeyhash
  else if r =? 5 then randomWitnessScripthash
  else if r =? 6 then randomProgram
  else throw plainError.

(** Lines 85-87. *)
Definition randomOutput : Gen Output.t :=
  s <- randomScript ;;
  v <- random 0 100000000 ;;
  ret (Output.fromScript s v).

(** Lines 89-108. *)
Definition randomTX : Gen TX.t :=
  let tx := TX_new in
  inputs <- random 1 5 ;;
  outputs <- random 0 5 ;;
  version <- random 0 0xffffffff ;;
  let tx := TX.set_version tx version in
  tx <- repeatM (Z.to_nat inputs)
          (fun tx => i <- randomInput ;; ret (TX.push_input tx i)) tx ;;
  tx <- repeatM (Z.to_nat outputs)
          (fun tx => o <- randomOutput ;; ret (TX.push_output tx o)) tx ;;
  r <- random 0 5 ;;
  tx <- (if r =? 0 then
           n <- random 0 0xffffffff ;; ret (TX.set_locktime tx n)
         else ret tx) ;;
  ret (TX.refresh tx).

(** Lines 241-248. *)
Definition randomPubkeyContext : Gen Context.t :=
  input <- randomInputScript None ;;
  output <- randomPubkey ;;
  ret (Context.make input [] output None).

(** Lines 250-257. *)
Definition randomPubkeyhashContext : Gen Context.t :=
  input <- randomInputScript None ;;
  output <- randomPubkeyhash ;;
  ret (Context.make input [] output None).

(** Lines 259-267. *)
Definition randomScripthashContext : Gen Context.t :=
  redeem <- randomRedeem ;;
  input <- randomInputScript (Some (Script.toRaw redeem)) ;;
  ret (Context.make input []
         (Script.fromScripthash (Script.hash160 crypto_hash160 redeem))
         (Some redeem)).

(** Lines 269-276. *)
Definition randomWitnessPubkeyhashContext : Gen Context.t :=
  witness <- randomWitness None ;;
  output <- randomWitnessPubkeyhash ;;
  ret (Context.make Script.empty witness output None).

(** Lines 278-286. *)
Definition randomWitnessScripthashContext : Gen Context.t :=
  redeem <- randomRedeem ;;
  witness <- randomWitness (Some (Script.toRaw redeem)) ;;
  ret (Context.make Script.empty witness
         (Script.fromProgram 0 (Script.sha256 crypto_sha256 redeem))
         (Some redeem)).

(** Lines 288-297. *)
Definition randomWitnessNestedContext : Gen Context.t :=
  redeem <- randomRedeem ;;
  let program := Script.fromProgram 0 (Script.sha256 crypto_sha256 redeem) in
  witness <- randomWitness (Some (Script.toRaw redeem)) ;;
  ret (Context.make (Script_fromItems [Script.toRaw program]) witness
         (Script.fromScripthash (Script.hash160 crypto_hash160 program))
         (Some redeem)).

(** Lines 299-315. *)
Definition randomContext : Gen Context.t :=
  r <- random 0 6 ;;
  if r =? 0 then randomPubkeyContext
  else if r =? 1 then randomPubkeyhashContext
  else if r =? 2 then randomScripthashContext
  else if r =? 3 then randomWitnessPubkeyhashContext
  else if r =? 4 then randomWitnessScripthashContext
  else if r =? 5 then randomWitnessNestedContext
  else throw plainError.

(** ** What a spending context is ready for *)

(** The element the last operation of a script pushes. *)
Definition last_push (s : Script.t) : option bytes :=
  last (map Opcode.toPush (Script.code s)) None.

(** The precondition for spending a pay-to-script-hash output: the
    input script is compiled from data pushes alone and is push-only,
    the last element it pushes is the serialized redeem script, the
    witness is empty, and the output script embeds the 20-byte hash160
    of that element. *)
Definition scripthash_ready (ctx : Context.t) : Prop :=
  exists redeem items,
    Context.redeem ctx = Some redeem
    /\ Context.input ctx
       = Script.compile
           (map Opcode.fromData (items ++ [Script.toRaw redeem]))
    /\ Script.isPushOnly (Context.input ctx) = true
    /\ last_push (Context.input ctx) = Some (Script.toRaw redeem)
    /\ Context.witness ctx = []
    /\ Script.getScripthash (Context.output ctx)
       = Some (crypto_hash160 (Script.toRaw redeem))
    /\ blen (crypto_hash160 (Script.toRaw redeem)) = 20.

(** The precondition for spending a native witness-script-hash output:
    the input script is empty, the last element of the witness is the
    serialized redeem script, and the output script is the version-0
    witness program whose 32-byte program is the sha256 of that
    element. *)
Definition witness_scripthash_ready (ctx : Context.t) : Prop :=
  exists redeem items,
    Context.redeem ctx = Some redeem
    /\ Context.input ctx = Script.empty
    /\ Context.witness ctx = items ++ [Script.toRaw redeem]
    /\ last (Context.witness ctx) [] = Script.toRaw redeem
    /\ Context.output ctx
       = Script.fromProgram 0 (crypto_sha256 (Script.toRaw redeem))
    /\ Script.getProgram (Context.output ctx)
       = Some (0, crypto_sha256 (Script.toRaw redeem))
    /\ blen (crypto_sha256 (Script.toRaw redeem)) = 32.

(** ** The three fuzz loops *)

(** The world after one more call, and after more log lines. *)
Definition called (c : Call) (w : World) : World :=
  mkWorld (rng w) (logs w) (calls w ++ [c]).

Definition logged (lines : list (list LogArg)) (w : World) : World :=
  mkWorld (rng w) (logs w ++ lines) (calls w).

(** What one round of a [for (;;)] loop ends with. *)
Inductive Outcome : Type := Continue | Break.

(** The variables a loop carries from one round to the next. *)
Record LoopState : Type := mkLoop { tx : TX.t; total : Z }.

(** What a loop has come to when the fuel is spent: still running, or
    left through [break]. *)
Inductive Run : Type :=
| Running (st : LoopState)
| Finished.

Fixpoint loop (iter : LoopState -> M (Outcome * LoopState)) (fuel : nat)
    (st : LoopState) : M Run :=
  match fuel with
  | O => ret (Running st)
  | S fuel' =>
      r <- iter st ;;
      match fst r with
      | Continue => loop iter fuel' (snd r)
      | Break => ret Finished
      end
  end.

(** The loop does what the outcome [r] of its round says: on
    [continue] it goes on to the next round from the state and world
    the round left, on [break] it ends, and an exception that leaves
    the round leaves the loop. *)
Definition loop_follows (iter : LoopState -> M (Outcome * LoopState))
    (fuel : nat) (st : LoopState) (w : World) (r : Result Outcome)
    (st' : LoopState) (w' : World) : Prop :=
  match r with
  | Ok Continue => loop iter (S fuel) st w = loop iter fuel st' w'
  | Ok Break => loop iter (S fuel) st w = (Ok Finished, w')
  | Throw e => loop iter (S fuel) st w = (Throw e, w')
  end.

(** Lines 322-326, 378-382 and 436-440: the head of every round. *)
Definition loop_head (st : LoopState) : M LoopState :=
  let total := total st + 1 in
  (if Z.rem total 1000 =? 0
   then util_log [LStr "Fuzzed %d scripts."; LNum total] else ret tt) ;;
  tx <- (if Z.rem total 500 =? 0 then liftGen randomTX else ret (tx st)) ;;
  ret (mkLoop tx total).

(** The handler of every [catch (e)] of [fuzzSimple]. *)
Definition rethrow_unless_ScriptError (e : Error.t) : M Outcome :=
  if isScriptError e then ret Continue else throw e.

(** Lines 349-369. *)
Definition fuzzSimple_report (input output : Script.t) (stack : Stack.t)
    : M Outcome :=
  if Stack.length stack =? 0 then ret Continue
  else if negb (Stack.getBool stack (-1)) then ret Continue
  else if isPushOnly output then ret Continue
  else
    util_log [LStr "Produced valid scripts:"] ;;
    util_log [LStr "Input:"] ;;
    util_log [LScript input] ;;
    util_log [LStr "Output:"] ;;
    util_log [LScript output] ;;
    util_log [LStr "Stack:"] ;;
    util_log [LStack stack] ;;
    ret Break.

(** The lines of a report of [fuzzSimple] (lines 358-367). *)
Definition simple_report_lines (input output : Script.t) (stack : Stack.t)
    : list (list LogArg) :=
  [ [LStr "Produced valid scripts:"];
    [LStr "Input:"]; [LScript input];
    [LStr "Output:"]; [LScript output];
    [LStr "Stack:"]; [LStack stack] ].

(** Lines 339-369: the output script runs on the stack the input script
    left. *)
Definition fuzzSimple_output (flags : Z) (tx : TX.t) (input : Script.t)
    (stack : Stack.t) : M Outcome :=
  output <- liftGen randomOutputScript ;;
  r <- try_ (execute output stack flags tx 0 0 0) ;;
  match r with
  | inl e => rethrow_unless_ScriptError e
  | inr stack' => fuzzSimple_report input output stack'
  end.

(** Lines 328-369. *)
Definition fuzzSimple_body (flags : Z) (tx : TX.t) : M Outcome :=
  let stack : Stack.t := [] in
  input <- liftGen (randomInputScript None) ;;
  r <- try_ (execute input stack flags tx 0 0 0) ;;
  match r with
  | inl e => rethrow_unless_ScriptError e
  | inr stack' => fuzzSimple_output flags tx input stack'
  end.

Definition fuzzSimple_iter (flags : Z) (st : LoopState)
    : M (Outcome * LoopState) :=
  st <- loop_head st ;;
  o <- fuzzSimple_body flags (tx st) ;;
  ret (o, st).

(** Lines 317-371. *)
Definition fuzzSimple (flags : Z) (fuel : nat) : M Run :=
  tx <- liftGen randomTX ;;
  loop (fuzzSimple_iter flags) fuel (mkLoop tx (-1)).

(** [tx.inputs[0].script = input; tx.inputs[0].witness = witness]: a
    TypeError when the transaction has no input. *)
Definition set_input0 (tx : TX.t) (input : Script.t) (witness : Witness)
    : M TX.t :=
  match TX.inputs tx with
  | [] => throw typeError
  | i :: rest =>
      ret (TX.set_inputs tx
             (Input.set_witness (Input.set_script i input) witness :: rest))
  end.

(** The lines of a report of [fuzzVerify] (lines 416-425). *)
Definition verify_report_lines (input : Script.t) (witness : Witness)
    (output : Script.t) : list (list LogArg) :=
  [ [LStr "Produced valid scripts:"];
    [LStr "Input:"]; [LScript input];
    [LStr "Witness:"]; [LWitness witness];
    [LStr "Output:"]; [LScript output] ].

(** The lines of a report of [fuzzLess] (lines 470-484). *)
Definition less_report_lines (ctx : Context.t) : list (list LogArg) :=
  verify_report_lines (Context.input ctx) (Context.witness ctx)
    (Context.output ctx)
  ++ match Context.redeem ctx with
     | Some redeem => [ [LStr "Redeem:"]; [LScript redeem] ]
     | None => []
     end.

(** The transaction after [tx.inputs[0].script = input;
    tx.inputs[0].witness = witness; tx.refresh()] when [i] is its first
    input. *)
Definition with_input0 (tx : TX.t) (i : Input.t) (rest : list Input.t)
    (input : Script.t) (witness : Witness) : TX.t :=
  TX.refresh
    (TX.set_inputs tx
       (Input.set_witness (Input.set_script i input) witness :: rest)).

(** Lines 393-427. *)
Definition fuzzVerify_check (consensus : option Oracle) (flags : Z)
    (tx : TX.t) (input : Script.t) (witness : Witness) (output : Script.t)
    : M Outcome :=
  r <- try_ (verify input witness output tx 0 0 flags) ;;
  match r with
  | inl e =>
      if isScriptError e then
        assertConsensus consensus tx output flags (Error.code e) ;;
        ret Continue
      else throw e
  | inr _ =>
      assertConsensus consensus tx output flags (Some "OK"%string) ;;
      if isPushOnly output then ret Continue
      else
        util_log [LStr "Produced valid scripts:"] ;;
        util_log [LStr "Input:"] ;;
        util_log [LScript input] ;;
        util_log [LStr "Witness:"] ;;
        util_log [LWitness witness] ;;
        util_log [LStr "Output:"] ;;
        util_log [LScript output] ;;
        ret Break
  end.

(** Lines 384-427.  The transaction is changed in place and carried to
    the next round. *)
Definition fuzzVerify_body (consensus : option Oracle) (flags : Z)
    (tx : TX.t) : M (Outcome * TX.t) :=
  input <- liftGen (randomInputScript None) ;;
  witness <- liftGen (randomWitness None) ;;
  output <- liftGen randomOutputScript ;;
  tx <- set_input0 tx input witness ;;
  let tx := TX.refresh tx in
  o <- fuzzVerify_check consensus flags tx input witness output ;;
  ret (o, tx).

Definition fuzzVerify_iter (consensus : option Oracle) (flags : Z)
    (st : LoopState) : M (Outcome * LoopState) :=
  st <- loop_head st ;;
  r <- fuzzVerify_body consensus flags (tx st) ;;
  ret (fst r, mkLoop (snd r) (total st)).

(** Lines 373-429. *)
Definition fuzzVerify (consensus : option Oracle) (flags : Z) (fuel : nat)
    : M Run :=
  tx <- liftGen randomTX ;;
  loop (fuzzVerify_iter consensus flags) fuel (mkLoop tx (-1)).

(** Lines 450-486. *)
Definition fuzzLess_check (consensus : option Oracle) (flags : Z)
    (tx : TX.t) (ctx : Context.t) : M Outcome :=
  r <- try_ (verify (Context.input ctx) (Context.witness ctx)
               (Context.output ctx) tx 0 0 flags) ;;
  match r with
  | inl e =>
      if isScriptError e then
        assertConsensus consensus tx (Context.output ctx) flags
          (Error.code e) ;;
        ret Continue
      else throw e
  | inr _ =>
      assertConsensus consensus tx (Context.output ctx) flags
        (Some "OK"%string) ;;
      util_log [LStr "Produced valid scripts:"] ;;
      util_log [LStr "Input:"] ;;
      util_log [LScript (Context.input ctx)] ;;
      util_log [LStr "Witness:"] ;;
      util_log [LWitness (Context.witness ctx)] ;;
      util_log [LStr "Output:"] ;;
      util_log [LScript (Context.output ctx)] ;;
      match Context.redeem ctx with
      | Some redeem =>
          util_log [LStr "Redeem:"] ;;
          util_log [LScript redeem]
      | None => ret tt
      end ;;
      ret Break
  end.

(** Lines 442-486. *)
Definition fuzzLess_body (consensus : option Oracle) (flags : Z)
    (tx : TX.t) : M (Outcome * TX.t) :=
  ctx <- liftGen randomContext ;;
  tx <- set_input0 tx (Context.input ctx) (Context.witness ctx) ;;
  let tx := TX.refresh tx in
  o <- fuzzLess_check consensus flags tx ctx ;;
  ret (o, tx).

Definition fuzzLess_iter (consensus : option Oracle) (flags : Z)
    (st : LoopState) : M (Outcome * LoopState) :=
  st <- loop_head st ;;
  r <- fuzzLess_body consensus flags (tx st) ;;
  ret (fst r, mkLoop (snd r) (total st)).

(** Lines 431-488. *)
Definition fuzzLess (consensus : option Oracle) (flags : Z) (fuel : nat)
    : M Run :=
  tx <- liftGen randomTX ;;
  loop (fuzzLess_iter consensus flags) fuel (mkLoop tx (-1)).

(** Lines 490-511.  [argv] is [process.argv]. *)
Definition main (consensus : option Oracle) (table : FlagsTable)
    (argv : list string) (fuel : nat) : M Run :=
  let flags :=
    if existsb (String.eqb "--standard") argv
    then STANDARD table else MANDATORY table in
  match nth_error argv 2 with
  | Some "simple"%string => fuzzSimple flags fuel
  | Some "verify"%string => fuzzVerify consensus flags fuel
  | Some "less"%string => fuzzLess consensus flags fuel
  | _ =>
      util_log [LStr "Please select a mode:"] ;;
      util_log [LStr "simple, verify, less"] ;;
      util_log [LStr "Optional `--standard` flag."] ;;
      ret Finished
  end.

(** Lines 23-24 and 516: what running the file does. *)
Definition program (consensus : option Oracle) (table : FlagsTable)
    (argv : list string) (fuel : nat) : M Run :=
  match consensus with
  | Some _ => util_log [LStr "Running against bitcoinconsensus..."]
  | None => ret tt
  end ;;
  main consensus table argv fuel.

(** ** What the calls are aimed at *)

(** A call that verifies input 0 with amount 0. *)
Definition targets_first_input (c : Call) : Prop :=
  call_index c = 0 /\ call_value c = 0.

(** Whatever world it starts in, [m] leaves the earlier calls in place
    and every call it makes satisfies [P]. *)
Definition adds_only {A} (P : Call -> Prop) (m : M A) : Prop :=
  forall w, exists new,
    calls (snd (m w)) = calls w ++ new /\ Forall P new.

End Harness.

(* ================================================================== *)
(** * A small executable library *)
(* ================================================================== *)

(** An instance of [Library] that computes: the random source reads a
    tape of numbers, the hashes are checksums padded to their widths, the
    templates are the usual ones, the engine runs pushes and
    small-integer opcodes and rejects OP_RETURN, and the table of opcodes
    names its entries as the specification does (OP_NOP, OP_NOP1, ...).
    It is used to run the harness on concrete inputs. *)
Module Sample.

Definition table : list (string * Z) :=
  [("OP_0", 0x00); ("OP_PUSHDATA1", 0x4c); ("OP_PUSHDATA2", 0x4d);
   ("OP_PUSHDATA4", 0x4e); ("OP_1NEGATE", 0x4f); ("OP_1", 0x51);
   ("OP_16", 0x60); ("OP_NOP", 0x61); ("OP_RETURN", 0x6a);
   ("OP_EQUAL", 0x87); ("OP_HASH160", 0xa9); ("OP_NOP1", 0xb0);
   ("OP_NOP2", 0xb1); ("OP_NOP3", 0xb2); ("OP_NOP4", 0xb3)]%string.

Definition lookup (entries : list (string * Z)) (name : string)
    : option Z :=
  option_map snd (find (fun e => String.eqb (fst e) name) entries).

Definition opcodes : string -> option Z := lookup table.

(** A table that also has the three names the harness reads. *)
Definition aliased : string -> option Z :=
  lookup ([("NOP", 0x61); ("NOP_1", 0xb0); ("NOP_3", 0xb2)]%string
          ++ table).

Definition next (lo hi : Z) (tape : list Z) : Z * list Z :=
  match tape with
  | [] => (lo, [])
  | x :: tape' => (lo + x mod (hi - lo), tape')
  end.

Definition nextBytes (n : Z) (tape : list Z) : bytes * list Z :=
  match tape with
  | [] => (repeat x00 (Z.to_nat n), [])
  | x :: tape' => (repeat (writeU8 x) (Z.to_nat n), tape')
  end.

Definition checksum (b : bytes) : Z :=
  fold_left (fun acc x => (31 * acc + readU8 x) mod 256) b 7.

Definition hash160 (b : bytes) : bytes := repeat (writeU8 (checksum b)) 20.
Definition sha256 (b : bytes) : bytes := repeat (writeU8 (checksum b)) 32.

Definition fromPubkey (key : bytes) : Script.t :=
  Script.compile [Opcode.fromData key; Opcode.fromOp 0xac].

Definition fromPubkeyhash (hash : bytes) : Script.t :=
  Script.compile [Opcode.fromOp 0x76; Opcode.fromOp 0xa9;
                  Opcode.fromData hash;
                  Opcode.fromOp 0x88; Opcode.fromOp 0xac].

Definition fromMultisig (m n : Z) (keys : list bytes) : Script.t :=
  Script.compile ([Opcode.fromSmall m] ++ map Opcode.fromData keys
                  ++ [Opcode.fromSmall n; Opcode.fromOp 0xae]).

Definition fromItems (items : list bytes) : Script.t :=
  Script.compile (map Opcode.fromData items).

Definition fromOutpoint (o : Outpoint.t) : Input.t :=
  Input.make o Script.empty [] 0xffffffff.

Definition newTX : TX.t := TX.make 1 [] [] 0.

Definition toRaw (tx : TX.t) : bytes :=
  writeU32 (TX.version tx)
  ++ flat_map (fun i => Script.toRaw (Input.script i)) (TX.inputs tx)
  ++ writeU32 (TX.locktime tx).

Definition scriptError (code : string) : Error.t :=
  Error.make (Some "ScriptError"%string) (Some code).

Definition step (stack : Stack.t) (op : Opcode.t) : Error.t + Stack.t :=
  match Opcode.toPush op with
  | Some d => inr (stack ++ [d])
  | None =>
      let v := Opcode.value op in
      if v =? -1 then inl (scriptError "BAD_OPCODE")
      else if v =? 0x6a then inl (scriptError "OP_RETURN")
      else if (opcodes.OP_1 <=? v) && (v <=? opcodes.OP_16)
      then inr (stack ++ [[writeU8 (v - 0x50)]])
      else inr stack
  end.

Fixpoint run (ops : list Opcode.t) (stack : Stack.t) : Error.t + Stack.t :=
  match ops with
  | [] => inr stack
  | op :: ops' =>
      match step stack op with
      | inl e => inl e
      | inr stack' => run ops' stack'
      end
  end.

Definition execute (script : Script.t) (stack : Stack.t) (flags : Z)
    (tx : TX.t) (index value version : Z) : Error.t + Stack.t :=
  run (Script.code script) stack.

Definition verify (input : Script.t) (witness : Witness)
    (output : Script.t) (tx : TX.t) (index value flags : Z)
    : option Error.t :=
  match run (Script.code input) [] with
  | inl e => Some e
  | inr stack =>
      match run (Script.code output) stack with
      | inl e => Some e
      | inr stack' =>
          if (Stack.length stack' =? 0) || negb (Stack.getBool stack' (-1))
          then Some (scriptError "EVAL_FALSE") else None
      end
  end.

Definition library : Library := {|
  Rng := list Z;
  Script_opcodes := opcodes;
  util_random := next;
  random_randomBytes := nextBytes;
  crypto_hash160 := hash160;
  crypto_sha256 := sha256;
  Script_fromPubkey := fromPubkey;
  Script_fromPubkeyhash := fromPubkeyhash;
  Script_fromMultisig := fromMultisig;
  Script_fromItems := fromItems;
  Input_fromOutpoint := fromOutpoint;
  TX_new := newTX;
  TX_toRaw := toRaw;
  Script_execute := execute;
  Script_verify := verify
|}.

(** A reference verifier that agrees with nothing: it answers with a
    code of its own. *)
Definition oracle : Oracle := fun _ _ _ _ _ => "UNKNOWN_ERROR"%string.

(** An engine that fails with an error that is not a script error. *)
Definition crash : Error.t := Error.make (Some "TypeError"%string) None.

Definition broken : Library := {|
  Rng := list Z;
  Script_opcodes := opcodes;
  util_random := next;
  random_randomBytes := nextBytes;
  crypto_hash160 := hash160;
  crypto_sha256 := sha256;
  Script_fromPubkey := fromPubkey;
  Script_fromPubkeyhash := fromPubkeyhash;
  Script_fromMultisig := fromMultisig;
  Script_fromItems := fromItems;
  Input_fromOutpoint := fromOutpoint;
  TX_new := newTX;
  TX_toRaw := toRaw;
  Script_execute := fun _ _ _ _ _ _ _ => inl crash;
  Script_verify := fun _ _ _ _ _ _ _ => Some crash
|}.

(** The same library with the aliased table. *)
Definition withAliases : Library := {|
  Rng := list Z;
  Script_opcodes := aliased;
  util_random := next;
  random_randomBytes := nextBytes;
  crypto_hash160 := hash160;
  crypto_sha256 := sha256;
  Script_fromPubkey := fromPubkey;
  Script_fromPubkeyhash := fromPubkeyhash;
  Script_fromMultisig := fromMultisig;
  Script_fromItems := fromItems;
  Input_fromOutpoint := fromOutpoint;
  TX_new := newTX;
  TX_toRaw := toRaw;
  Script_execute := execute;
  Script_verify := verify
|}.

Definition world (tape : list Z) : @World library :=
  mkWorld (L := library) tape [] [].

(** Inputs the harness is run on below. *)
Definition script : Script.t :=
  Script.compile
    [Opcode.fromData [x01; x02; x03]; Opcode.fromOp 0x76;
     Opcode.make opcodes.PUSHDATA1 (Some [xaa]); Opcode.fromOp 0x00].

Definition op_return : Script.t := Script.fromRaw [x6a].

Definition state : LoopState := mkLoop newTX 0.

Definition report_tape : list Z := [0; 1; 1; 0; 117].

Definition context_tape : list Z := [0; 0; 7; 1; 3; 9; 0; 5].

Definition context_of (r : Result Context.t * list Z) : Context.t :=
  match fst r with
  | Ok ctx => ctx
  | Throw _ => Context.make Script.empty [] Script.empty None
  end.

Definition scripthash_context : Context.t :=
  context_of (randomScripthashContext (L := library) context_tape).

Definition witness_scripthash_context : Context.t :=
  context_of (randomWitnessScripthashContext (L := library) context_tape).

End Sample.

(* ================================================================== *)
(** * The rest of the harness *)
(* ================================================================== *)

(** The characters [toString('hex')] writes: the digits and the
    lower-case letters a to f. *)
Definition is_hex (c : ascii) : bool :=
  let n := Z.of_nat (nat_of_ascii c) in
  ((48 <=? n) && (n <=? 57)) || ((97 <=? n) && (n <=? 102)).

Fixpoint all_hex (s : string) : bool :=
  match s with
  | EmptyString => true
  | String c s' => is_hex c && all_hex s'
  end.

(** Reading a hexadecimal string back into bytes; [None] on a character
    that is not hexadecimal or on an odd number of characters. *)
Definition hex_value (c : ascii) : option Z :=
  let n := Z.of_nat (nat_of_ascii c) in
  if (48 <=? n) && (n <=? 57) then Some (n - 48)
  else if (97 <=? n) && (n <=? 102) then Some (n - 87)
  else None.

Fixpoint fromHex (s : string) : option bytes :=
  match s with
  | EmptyString => Some []
  | String hi (String lo s') =>
      match hex_value hi, hex_value lo, fromHex s' with
      | Some h, Some l, Some tl => Some (writeU8 (16 * h + l) :: tl)
      | _, _, _ => None
      end
  | String _ EmptyString => None
  end.

Section Keys.

Context {L : Library}.

(** [secp256k1.generatePrivateKey()] and [secp256k1.toDER(sig)] of
    lib/crypto/secp256k1, which is not among the sources. *)
Variable secp256k1_generatePrivateKey : Rng -> bytes * Rng.
Variable secp256k1_toDER : bytes -> bytes.

Definition generatePrivateKey : Gen bytes :=
  fun g => let (k, g') := secp256k1_generatePrivateKey g in (Ok k, g').

(** Lines 52-56. *)
Definition randomSignature : Gen bytes :=
  r <- generatePrivateKey ;;
  s <- generatePrivateKey ;;
  ret (secp256k1_toDER (r ++ s)).

(** [y[y.length - 1] & 1]: past the end of an empty buffer the byte is
    [undefined], and [undefined & 1] is 0. *)
Definition lastBit (y : bytes) : Z := Z.land (readU8 (last y x00)) 1.

(** Lines 58-69. *)
Definition randomKey : Gen bytes :=
  x <- generatePrivateKey ;;
  y <- generatePrivateKey ;;
  r <- random 0 2 ;;
  if r =? 0 then ret ([writeU8 (Z.lor 2 (lastBit y))] ++ x)
  else ret ([writeU8 4] ++ x ++ y).

End Keys.

Section Rest.

Context {L : Library}.

(** Lines 175-182: what [randomMultisig] has drawn when it calls
    [Script.fromMultisig]. *)
Definition randomMultisigArgs : Gen (Z * Z * list bytes) :=
  n <- random 1 16 ;;
  m <- random 1 n ;;
  keys <- repeatM (Z.to_nat n)
            (fun keys => len <- randomKeyLength ;;
                         b <- randomBytes len ;;
                         ret (keys ++ [b])) [] ;;
  ret (m, n, keys).

(** The line that opens a report (lines 358, 416 and 470). *)
Definition is_produced (line : list LogArg) : bool :=
  match line with
  | [LStr s] => String.eqb s "Produced valid scripts:"
  | _ => false
  end.

Definition reports (lines : list (list LogArg)) : nat :=
  List.length (filter is_produced lines).

(** From every world, [m] leaves the earlier lines in place, and the
    number of reports among the lines it adds is what [count] says of
    its result. *)
Definition tallies {A} (count : Result A -> nat) (m : M A) : Prop :=
  forall w, exists new,
    logs (snd (m w)) = logs w ++ new
    /\ reports new = count (fst (m w)).

Definition none {A} : Result A -> nat := fun _ => O.

Definition one_if_finished (r : Result Run) : nat :=
  match r with
  | Ok Finished => 1%nat
  | _ => O
  end.

Definition one_if_break {A} (r : Result (Outcome * A)) : nat :=
  match r with
  | Ok (Break, _) => 1%nat
  | _ => O
  end.

Definition one_if_Break (r : Result Outcome) : nat :=
  match r with
  | Ok Break => 1%nat
  | _ => O
  end.

(** The lines written for a mode that is none of the three (lines
    506-508). *)
Definition help_lines : list (list LogArg) :=
  [ [LStr "Please select a mode:"];
    [LStr "simple, verify, less"];
    [LStr "Optional `--standard` flag."] ].

(** The calls [fuzzSimple] makes: executions under the loop's flags, for
    input 0, amount 0 and version 0. *)
Definition executes_under (flags : Z) (c : Call) : Prop :=
  match c with
  | CallExecute _ _ f _ i v ver => f = flags /\ i = 0 /\ v = 0 /\ ver = 0
  | _ => False
  end.

(** The calls [fuzzVerify] and [fuzzLess] make: verifications under the
    loop's flags and, only with a reference verifier loaded, calls to it
    under the same flags. *)
Definition verifies_under (consensus : option Oracle) (flags : Z) (c : Call)
    : Prop :=
  match c with
  | CallVerify _ _ _ _ _ _ f => f = flags
  | CallOracle _ _ _ _ f => f = flags /\ consensus <> None
  | CallExecute _ _ _ _ _ _ _ => False
  end.

(** [e] is an exception of the engine that is not a script error. *)
Definition engine_failure (flags : Z) (e : Error.t) : Prop :=
  isScriptError e = false
  /\ ((exists script stack tx,
          Script_execute script stack flags tx 0 0 0 = inl e)
      \/ (exists input witness output tx,
          Script_verify input witness output tx 0 0 flags = Some e)).

(** The calls to the reference verifier that follow a verification of
    [output] in [tx] that ended as [outcome] says: with an exception or
    without one. *)
Definition oracle_calls (consensus : option Oracle) (tx : TX.t)
    (output : Script.t) (flags : Z) (outcome : option Error.t) : list Call :=
  let call := CallOracle (TX_toRaw tx) 0 (Script.toRaw output) 0 flags in
  match consensus, outcome with
  | None, _ => []
  | Some _, None => [call]
  | Some _, Some e => if isScriptError e then [call] else []
  end.

(** From worlds with the same random source, [m1] and [m2] end alike,
    returning the same value or throwing the same exception, and leave
    the same random source. *)
Definition same_run {A} (m1 m2 : M A) : Prop :=
  forall w1 w2,
    rng w1 = rng w2 ->
    fst (m1 w1) = fst (m2 w2) /\ rng (snd (m1 w1)) = rng (snd (m2 w2)).

(** The transaction a round works on has an input. *)
Definition has_input (st : LoopState) : Prop := TX.inputs (tx st) <> [].

End Rest.

(** Runs of the executable library. *)
Module Runs.

Definition value {A S} (r : Result A * S) (default : A) : A :=
  match fst r with
  | Ok a => a
  | Throw _ => default
  end.

Definition tape : list Z := [3; 2; 5; 1; 4; 9; 0; 7; 6; 8; 2; 11; 13; 1; 0; 5].

Definition privateKey (tape : list Z) : bytes * list Z :=
  Sample.nextBytes 32 tape.

Definition toDER (sig : bytes) : bytes := x30 :: writeU8 (blen sig) :: sig.

Definition noContext : Context.t :=
  Context.make Script.empty [] Script.empty None.

Definition tx : TX.t :=
  value (randomTX (L := Sample.library) tape) Sample.newTX.

Definition witness : Witness :=
  value (randomWitness (L := Sample.library) (Some [x01]) tape) [].

Definition inputScript : Script.t :=
  value (randomInputScript (L := Sample.library) (Some [x01]) tape)
    Script.empty.

Definition outputScript : Script.t :=
  value (randomOutputScript (L := Sample.library) tape) Script.empty.

Definition key : bytes :=
  value (randomKey (L := Sample.library) privateKey tape) [].

Definition program : Script.t :=
  value (randomProgram (L := Sample.library) tape) Script.empty.

Definition nested : Context.t :=
  value (randomWitnessNestedContext (L := Sample.library) tape) noContext.

Definition witnessPubkeyhash : Context.t :=
  value (randomWitnessPubkeyhashContext (L := Sample.library) tape) noContext.

Definition outpoint : Outpoint.t :=
  value (randomOutpoint (L := Sample.library) tape) (Outpoint.make "" 0).

Definition output : Output.t :=
  value (randomOutput (L := Sample.library) tape)
    (Output.make Script.empty 0).

Definition running : LoopState :=
  match fst (fuzzSimple (L := Sample.library) 0 2 (Sample.world tape)) with
  | Ok (Running st) => st
  | _ => Sample.state
  end.

Definition argv : list string :=
  ["node"; "fuzz.js"; "help"; "--standard"]%string.

Definition brokenWorld : @World Sample.broken :=
  mkWorld (L := Sample.broken) tape [] [].

End Runs.

Unset Implicit Arguments.

Lemma readU8_range (b : byte) : 0 <= readU8 b < 256.
Proof.
  unfold readU8. pose proof (Byte.to_N_bounded b). lia.
Qed.

Lemma readU8_writeU8 (z : Z) : readU8 (writeU8 z) = z mod 256.
Proof.
  unfold readU8, writeU8.
  pose proof (Z.mod_pos_bound z 256 ltac:(lia)) as Hr.
  destruct (Byte.of_N (Z.to_N (z mod 256))) as [b|] eqn:E.
  - apply Byte.to_of_N in E. rewrite E. lia.
  - apply Byte.of_N_None_iff in E. lia.
Qed.

Lemma writeU8_readU8 (b : byte) : writeU8 (readU8 b) = b.
Proof.
  unfold writeU8, readU8.
  pose proof (Byte.to_N_bounded b) as Hb.
  rewrite Z.mod_small by lia.
  rewrite N2Z.id, Byte.of_to_N. reflexivity.
Qed.

Lemma readU8_small (z : Z) : 0 <= z < 256 -> readU8 (writeU8 z) = z.
Proof.
  intros H. rewrite readU8_writeU8. apply Z.mod_small. exact H.
Qed.

Lemma readU16_writeU16 (z : Z) :
  0 <= z < 65536 ->
  readU16 (writeU8 z) (writeU8 (z / 256)) = z.
Proof.
  intros H. unfold readU16. rewrite !readU8_writeU8.
  rewrite (Z.mod_small (z / 256)) by (split; [apply Z.div_pos; lia | apply Z.div_lt_upper_bound; lia]).
  pose proof (Z.div_mod z 256 ltac:(lia)). lia.
Qed.

Lemma readU32_writeU32 (z : Z) :
  0 <= z < 4294967296 ->
  readU32 (writeU8 z) (writeU8 (z / 256)) (writeU8 (z / 65536))
          (writeU8 (z / 16777216)) = z.
Proof.
  intros H. unfold readU32. rewrite !readU8_writeU8.
  assert (H1 : z / 65536 = z / 256 / 256)
    by (change 65536 with (256 * 256); symmetry; apply Z.div_div; lia).
  assert (H2 : z / 16777216 = z / 256 / 256 / 256)
    by (rewrite <- H1; change 16777216 with (65536 * 256); symmetry;
        apply Z.div_div; lia).
  rewrite H1, H2.
  set (a := z / 256). set (b := a / 256). set (c := b / 256).
  pose proof (Z.div_mod z 256 ltac:(lia)) as D0.
  pose proof (Z.div_mod a 256 ltac:(lia)) as D1.
  pose proof (Z.div_mod b 256 ltac:(lia)) as D2.
  fold a in D0. fold b in D1. fold c in D2.
  assert (0 <= a < 16777216) by (unfold a; split; [apply Z.div_pos; lia | apply Z.div_lt_upper_bound; lia]).
  assert (0 <= b < 65536) by (unfold b; split; [apply Z.div_pos; lia | apply Z.div_lt_upper_bound; lia]).
  assert (0 <= c < 256) by (unfold c; split; [apply Z.div_pos; lia | apply Z.div_lt_upper_bound; lia]).
  rewrite (Z.mod_small c) by lia. lia.
Qed.


(* ================================================================== *)
(** * Parsing inverts serialization *)
(* ================================================================== *)

Lemma blen_nonneg (b : bytes) : 0 <= blen b.
Proof. unfold blen. lia. Qed.

Lemma blen_app (a b : bytes) : blen (a ++ b) = blen a + blen b.
Proof. unfold blen. rewrite length_app. lia. Qed.

Lemma take_app (d rest : bytes) : take (blen d) (d ++ rest) = d.
Proof.
  unfold take, blen. rewrite Nat2Z.id.
  rewrite firstn_app, Nat.sub_diag, firstn_all. simpl. apply app_nil_r.
Qed.

Lemma drop_app (d rest : bytes) : drop (blen d) (d ++ rest) = rest.
Proof.
  unfold drop, blen. rewrite Nat2Z.id.
  rewrite skipn_app, Nat.sub_diag, skipn_all. reflexivity.
Qed.

Lemma bytes_eqb_eq (a b : bytes) : bytes_eqb a b = true <-> a = b.
Proof.
  unfold bytes_eqb. destruct (list_eq_dec Byte.byte_eq_dec a b); split;
    intros; congruence.
Qed.

(** Turns boolean comparisons on integers in the context and the goal
    into propositions. *)
Ltac zbool :=
  repeat match goal with
    | H : _ && _ = true |- _ => apply andb_true_iff in H; destruct H
    | H : _ || _ = true |- _ => apply orb_true_iff in H; destruct H
    | H : negb _ = true |- _ => apply negb_true_iff in H
    | H : _ && _ = false |- _ => apply andb_false_iff in H
    | H : (_ <=? _) = true |- _ => apply Z.leb_le in H
    | H : (_ <? _) = true |- _ => apply Z.ltb_lt in H
    | H : (_ =? _) = true |- _ => apply Z.eqb_eq in H
    | H : (_ >? _) = true |- _ => rewrite Z.gtb_ltb in H
    | H : (_ <=? _) = false |- _ => apply Z.leb_gt in H
    | H : (_ <? _) = false |- _ => apply Z.ltb_ge in H
    | H : (_ =? _) = false |- _ => apply Z.eqb_neq in H
    | H : (_ >? _) = false |- _ => rewrite Z.gtb_ltb in H
    end.

(** Decides the integer tests of the goal that arithmetic settles. *)
Ltac ztest :=
  repeat (match goal with
          | |- context [?a <=? ?b] => destruct (Z.leb_spec a b); try lia
          | |- context [?a <? ?b] => destruct (Z.ltb_spec a b); try lia
          | |- context [?a =? ?b] => destruct (Z.eqb_spec a b); try lia
          end; cbn [andb orb negb app]).

Lemma readPush_exact (v : Z) (all d rest : bytes) :
  Opcode.readPush v (blen d) all (d ++ rest) = (Opcode.make v (Some d), rest).
Proof.
  unfold Opcode.readPush.
  assert (H : (blen (d ++ rest) <? blen d) = false).
  { apply Z.ltb_ge. rewrite blen_app. pose proof (blen_nonneg rest). lia. }
  rewrite H, take_app, drop_app. reflexivity.
Qed.

(** Reading back a well-formed operation gives the operation and leaves
    what followed it. *)
Lemma fromReader_toRaw (op : Opcode.t) (rest : bytes) :
  Opcode.wf op = true ->
  Opcode.fromReader (Opcode.toRaw op ++ rest) = Some (op, rest).
Proof.
  destruct op as [v [d|]]; unfold Opcode.wf, Opcode.toRaw; simpl;
    unfold opcodes.PUSHDATA1, opcodes.PUSHDATA2, opcodes.PUSHDATA4; intros Hwf.
  - pose proof (blen_nonneg d) as Hd.
    apply orb_true_iff in Hwf. destruct Hwf as [Hwf | H4].
    2:{ zbool. subst v. simpl.
        rewrite (readU8_small 78) by lia. simpl.
        rewrite readU32_writeU32 by lia. now rewrite readPush_exact. }
    apply orb_true_iff in Hwf. destruct Hwf as [Hwf | H2].
    2:{ zbool. subst v. simpl.
        rewrite (readU8_small 77) by lia. simpl.
        rewrite readU16_writeU16 by lia. now rewrite readPush_exact. }
    apply orb_true_iff in Hwf. destruct Hwf as [H0 | H1].
    2:{ zbool. subst v. simpl.
        rewrite (readU8_small 76) by lia. simpl.
        rewrite readU8_small by lia. now rewrite readPush_exact. }
    zbool. ztest. unfold Opcode.fromReader, opcodes.PUSHDATA1, opcodes.PUSHDATA2,
      opcodes.PUSHDATA4. cbn [app].
    rewrite readU8_small by lia. ztest.
    pose proof (readPush_exact v (writeU8 v :: d ++ rest) d rest) as E.
    rewrite H0 in E. now rewrite E.
  - zbool. ztest. unfold Opcode.fromReader, opcodes.PUSHDATA1, opcodes.PUSHDATA2,
      opcodes.PUSHDATA4. cbn [app].
    rewrite readU8_small by lia.
    assert (Hv : v = 0 \/ 78 < v) by (destruct H0; lia).
    destruct Hv; ztest; reflexivity.
Qed.

Lemma toRaw_nonempty (op : Opcode.t) :
  Opcode.wf op = true -> (1 <= length (Opcode.toRaw op))%nat.
Proof.
  intros Hwf. pose proof (fromReader_toRaw op [] Hwf) as H.
  rewrite app_nil_r in H. destruct (Opcode.toRaw op); simpl in *.
  - discriminate.
  - lia.
Qed.

Lemma parse_fuel_serialize (ops : list Opcode.t) :
  forallb Opcode.wf ops = true ->
  forall fuel, (length (Script.serialize ops) <= fuel)%nat ->
  Script.parse_fuel fuel (Script.serialize ops) = ops.
Proof.
  induction ops as [|op ops IH]; intros Hwf fuel Hfuel.
  - destruct fuel; reflexivity.
  - simpl in Hwf. apply andb_true_iff in Hwf. destruct Hwf as [Hop Hops].
    unfold Script.serialize in *. simpl in *.
    rewrite length_app in Hfuel.
    pose proof (toRaw_nonempty op Hop) as Hne.
    destruct fuel as [|fuel]; [lia|].
    simpl. rewrite fromReader_toRaw by exact Hop.
    f_equal. apply IH; [exact Hops | lia].
Qed.

Lemma parse_serialize (ops : list Opcode.t) :
  forallb Opcode.wf ops = true ->
  Script.parse (Script.serialize ops) = ops.
Proof.
  intros Hwf. unfold Script.parse. now apply parse_fuel_serialize.
Qed.

(** C8.  For every well-formed script [s], parsing the serialization of
    [s] gives [s] back: [Script.fromRaw (Script.toRaw s) = s], on the
    operations and on the raw bytes. *)
Theorem fromRaw_toRaw_roundtrip (s : Script.t) :
  Script.wf s = true -> Script.fromRaw (Script.toRaw s) = s.
Proof.
  destruct s as [ops b]. unfold Script.wf, Script.fromRaw, Script.toRaw.
  simpl. intros H. apply andb_true_iff in H. destruct H as [Hops Hraw].
  apply bytes_eqb_eq in Hraw. subst b.
  now rewrite parse_serialize.
Qed.

(* ================================================================== *)
(** * Serialization inverts parsing *)
(* ================================================================== *)

Lemma blen_take (n : Z) (b : bytes) :
  0 <= n <= blen b -> blen (take n b) = n.
Proof.
  unfold blen, take. intros H. rewrite length_firstn. lia.
Qed.

Lemma take_drop (n : Z) (b : bytes) : take n b ++ drop n b = b.
Proof. apply firstn_skipn. Qed.

Lemma length_drop (n : Z) (b : bytes) : (length (drop n b) <= length b)%nat.
Proof. unfold drop. rewrite length_skipn. lia. Qed.

Lemma writeU8_low (a : byte) (k : Z) : writeU8 (readU8 a + 256 * k) = a.
Proof.
  rewrite <- (writeU8_readU8 a) at 2. unfold writeU8.
  replace ((readU8 a + 256 * k) mod 256) with (readU8 a mod 256); [reflexivity|].
  replace (readU8 a + 256 * k) with (readU8 a + k * 256) by lia.
  symmetry. apply Z.mod_add. lia.
Qed.

Lemma div_low (a : byte) (k : Z) : (readU8 a + 256 * k) / 256 = k.
Proof.
  pose proof (readU8_range a).
  replace (readU8 a + 256 * k) with (readU8 a + k * 256) by lia.
  rewrite Z.div_add by lia. rewrite Z.div_small by lia. lia.
Qed.

Lemma writeU16_readU16 (l0 l1 : byte) :
  writeU16 (readU16 l0 l1) = [l0; l1].
Proof.
  unfold writeU16, readU16.
  rewrite writeU8_low, div_low, writeU8_readU8. reflexivity.
Qed.

Lemma writeU32_readU32 (l0 l1 l2 l3 : byte) :
  writeU32 (readU32 l0 l1 l2 l3) = [l0; l1; l2; l3].
Proof.
  unfold writeU32, readU32.
  set (n := readU8 l0 + 256 * readU8 l1 + 65536 * readU8 l2
            + 16777216 * readU8 l3).
  assert (E0 : n = readU8 l0
                   + 256 * (readU8 l1 + 256 * (readU8 l2 + 256 * readU8 l3)))
    by (unfold n; lia).
  assert (E1 : n / 256 = readU8 l1 + 256 * (readU8 l2 + 256 * readU8 l3))
    by (rewrite E0; apply div_low).
  assert (E2 : n / 65536 = readU8 l2 + 256 * readU8 l3).
  { change 65536 with (256 * 256). rewrite <- Z.div_div by lia.
    rewrite E1. apply div_low. }
  assert (E3 : n / 16777216 = readU8 l3).
  { change 16777216 with (65536 * 256). rewrite <- Z.div_div by lia.
    rewrite E2. apply div_low. }
  rewrite E1, E2, E3, E0, !writeU8_low, writeU8_readU8. reflexivity.
Qed.

(** What [readPush] returns serializes to the bytes it was given, when
    [head] is what was read before the body: the push opcode [v] and the
    length [n] as [v] encodes it. *)
Lemma readPush_sound (v n : Z) (head body : bytes) (op : Opcode.t)
    (rest : bytes) :
  0 <= n ->
  (forall d, blen d = n ->
             Opcode.toRaw (Opcode.make v (Some d)) = head ++ d) ->
  Opcode.readPush v n (head ++ body) body = (op, rest) ->
  Opcode.toRaw op ++ rest = head ++ body
  /\ (length rest <= length body)%nat.
Proof.
  intros Hn Hraw. unfold Opcode.readPush.
  destruct (Z.ltb_spec (blen body) n) as [Hlt|Hge]; intros H;
    inversion H; subst op rest; clear H.
  - split; [|simpl; lia]. unfold Opcode.toRaw, Opcode.invalid. simpl.
    apply app_nil_r.
  - rewrite Hraw by (apply blen_take; lia).
    rewrite <- app_assoc, take_drop. split; [reflexivity|].
    apply length_drop.
Qed.

(** An operation read off a buffer serializes to the bytes it was read
    from, and reading it shortens the buffer. *)
Lemma fromReader_sound (b : bytes) (op : Opcode.t) (rest : bytes) :
  Opcode.fromReader b = Some (op, rest) ->
  Opcode.toRaw op ++ rest = b /\ (length rest < length b)%nat.
Proof.
  destruct b as [|x tl]; [discriminate|].
  unfold Opcode.fromReader, opcodes.PUSHDATA1, opcodes.PUSHDATA2,
    opcodes.PUSHDATA4.
  pose proof (readU8_range x) as Hx.
  destruct ((1 <=? readU8 x) && (readU8 x <=? 75)) eqn:Edirect.
  { intros H. inversion H as [H1]. clear H. zbool.
    apply (readPush_sound (readU8 x) (readU8 x) [x] tl) in H1.
    - simpl in *. split; [tauto | lia].
    - lia.
    - intros d Hd. unfold Opcode.toRaw. simpl. ztest.
      now rewrite writeU8_readU8. }
  destruct (Z.eqb_spec (readU8 x) 76) as [E1|N1].
  { destruct tl as [|l0 body]; intros H; inversion H as [H1]; clear H.
    - unfold Opcode.toRaw, Opcode.invalid. simpl. split; [reflexivity | lia].
    - apply (readPush_sound (readU8 x) (readU8 l0) [x; l0] body) in H1.
      + simpl in *. split; [tauto | lia].
      + apply readU8_range.
      + intros d Hd. unfold Opcode.toRaw, opcodes.PUSHDATA1,
          opcodes.PUSHDATA2, opcodes.PUSHDATA4. simpl. rewrite E1. simpl.
        rewrite Hd, <- E1, !writeU8_readU8. reflexivity. }
  destruct (Z.eqb_spec (readU8 x) 77) as [E2|N2].
  { destruct tl as [|l0 [|l1 body]]; intros H; inversion H as [H1]; clear H;
      try (unfold Opcode.toRaw, Opcode.invalid; simpl;
           split; [reflexivity | lia]).
    apply (readPush_sound (readU8 x) (readU16 l0 l1) [x; l0; l1] body) in H1.
    + simpl in *. split; [tauto | lia].
    + unfold readU16. pose proof (readU8_range l0).
      pose proof (readU8_range l1). lia.
    + intros d Hd. unfold Opcode.toRaw, opcodes.PUSHDATA1,
        opcodes.PUSHDATA2, opcodes.PUSHDATA4. simpl. rewrite E2. simpl.
      pose proof (writeU16_readU16 l0 l1) as W. unfold writeU16 in W.
      injection W as W0 W1.
      rewrite Hd, W0, W1, <- E2, writeU8_readU8. reflexivity. }
  destruct (Z.eqb_spec (readU8 x) 78) as [E4|N4].
  { destruct tl as [|l0 [|l1 [|l2 [|l3 body]]]]; intros H;
      inversion H as [H1]; clear H;
      try (unfold Opcode.toRaw, Opcode.invalid; simpl;
           split; [reflexivity | lia]).
    apply (readPush_sound (readU8 x) (readU32 l0 l1 l2 l3)
             [x; l0; l1; l2; l3] body) in H1.
    + simpl in *. split; [tauto | lia].
    + unfold readU32. pose proof (readU8_range l0).
      pose proof (readU8_range l1). pose proof (readU8_range l2).
      pose proof (readU8_range l3). lia.
    + intros d Hd. unfold Opcode.toRaw, opcodes.PUSHDATA1,
        opcodes.PUSHDATA2, opcodes.PUSHDATA4. simpl. rewrite E4. simpl.
      pose proof (writeU32_readU32 l0 l1 l2 l3) as W. unfold writeU32 in W.
      injection W as W0 W1 W2 W3.
      rewrite Hd, W0, W1, W2, W3, <- E4, writeU8_readU8. reflexivity. }
  intros H. inversion H; subst op rest. clear H.
  unfold Opcode.toRaw, Opcode.fromOp. simpl. ztest.
  rewrite writeU8_readU8. split; [reflexivity | lia].
Qed.

Lemma fromReader_None (b : bytes) : Opcode.fromReader b = None -> b = [].
Proof.
  destruct b as [|x tl]; [reflexivity|]. unfold Opcode.fromReader.
  destruct ((1 <=? readU8 x) && (readU8 x <=? 75)); [discriminate|].
  destruct (readU8 x =? opcodes.PUSHDATA1).
  { destruct tl; discriminate. }
  destruct (readU8 x =? opcodes.PUSHDATA2).
  { destruct tl as [|? [|? ?]]; discriminate. }
  destruct (readU8 x =? opcodes.PUSHDATA4).
  { destruct tl as [|? [|? [|? [|? ?]]]]; discriminate. }
  discriminate.
Qed.

Lemma serialize_parse_fuel (fuel : nat) :
  forall b, (length b <= fuel)%nat ->
            Script.serialize (Script.parse_fuel fuel b) = b.
Proof.
  induction fuel as [|fuel IH]; intros b Hb.
  - destruct b; [reflexivity | simpl in Hb; lia].
  - simpl. destruct (Opcode.fromReader b) as [[op rest]|] eqn:E.
    + apply fromReader_sound in E as [E Hlen].
      unfold Script.serialize in *. simpl.
      rewrite IH by lia. exact E.
    + apply fromReader_None in E. now subst b.
Qed.

(** Every script read from raw bytes, well-formed or not, holds the bytes
    its operations serialize to. *)
Lemma serialize_parse (b : bytes) : Script.serialize (Script.parse b) = b.
Proof. unfold Script.parse. now apply serialize_parse_fuel. Qed.

Lemma fromRaw_raw (b : bytes) :
  Script.raw (Script.fromRaw b) = Script.serialize (Script.code (Script.fromRaw b)).
Proof. simpl. symmetry. apply serialize_parse. Qed.

(** The scripts the harness compiles from data pushes are well-formed
    when no push is four gigabytes long. *)
Lemma fromData_wf (d : bytes) :
  blen d < 0x100000000 -> Opcode.wf (Opcode.fromData d) = true.
Proof.
  intros H. pose proof (blen_nonneg d).
  unfold Opcode.fromData, Opcode.wf, opcodes.OP_0, opcodes.PUSHDATA1,
    opcodes.PUSHDATA2, opcodes.PUSHDATA4.
  destruct (Z.eqb_spec (blen d) 0); [reflexivity|].
  destruct (Z.leb_spec (blen d) 75); simpl; [ztest; try reflexivity|].
  destruct (Z.leb_spec (blen d) 255); simpl; [ztest; try reflexivity|].
  destruct (Z.leb_spec (blen d) 65535); simpl; ztest; try reflexivity.
Qed.

Lemma compile_fromData_wf (items : list bytes) :
  Forall (fun d => blen d < 0x100000000) items ->
  Script.wf (Script.compile (map Opcode.fromData items)) = true.
Proof.
  intros H. unfold Script.wf, Script.compile. simpl.
  apply andb_true_iff. split.
  - apply forallb_forall. intros op Hin.
    apply in_map_iff in Hin as (d & <- & Hd).
    apply fromData_wf. rewrite Forall_forall in H. now apply H.
  - now apply bytes_eqb_eq.
Qed.

(* ================================================================== *)
(** * The comparison with the reference verifier *)
(* ================================================================== *)

Lemma code_differs_spec (err : string) (code : option string) :
  code_differs err code = true <-> code <> Some err.
Proof.
  unfold code_differs. destruct code as [c|].
  - rewrite negb_true_iff. split.
    + intros H E. inversion E; subst. rewrite String.eqb_refl in H.
      discriminate.
    + intros H. apply String.eqb_neq. intros ->. now apply H.
  - split; [discriminate | reflexivity].
Qed.

Section Consensus.

Context {L : Library}.

(** C3.  With a reference verifier loaded, [verifyConsensus] calls it
    once, with the raw transaction, the index, the raw output script,
    the value and the flags, and returns its answer unchanged; with none
    loaded it returns ["OK"] and calls nothing, and [assertConsensus]
    does nothing at all. *)
Theorem verifyConsensus_passes_arguments
    (oracle : Oracle) (tx : TX.t) (index : Z) (output : Script.t)
    (value flags : Z) (code : option string) (w : World) :
  verifyConsensus (Some oracle) tx index output value flags w
  = (Ok (oracle (TX_toRaw tx) index (Script.toRaw output) value flags),
     mkWorld (rng w) (logs w)
       (calls w ++ [CallOracle (TX_toRaw tx) index (Script.toRaw output)
                      value flags]))
  /\ verifyConsensus None tx index output value flags w = (Ok "OK"%string, w)
  /\ assertConsensus None tx output flags code w = (Ok tt, w).
Proof.
  repeat split.
Qed.

Lemma assertConsensus_agree (oracle : Oracle) (tx : TX.t)
    (output : Script.t) (flags : Z) (w : World) :
  let err := oracle (TX_toRaw tx) 0 (Script.toRaw output) 0 flags in
  assertConsensus (Some oracle) tx output flags (Some err) w
  = (Ok tt,
     mkWorld (rng w) (logs w)
       (calls w ++ [CallOracle (TX_toRaw tx) 0 (Script.toRaw output)
                      0 flags])).
Proof.
  intros err. unfold assertConsensus, verifyConsensus, bind, record_call, ret.
  simpl. fold err. unfold code_differs. rewrite String.eqb_refl. reflexivity.
Qed.

Lemma assertConsensus_differ (oracle : Oracle) (tx : TX.t)
    (output : Script.t) (flags : Z) (code : option string) (w : World) :
  let err := oracle (TX_toRaw tx) 0 (Script.toRaw output) 0 flags in
  code <> Some err ->
  assertConsensus (Some oracle) tx output flags code w
  = (Ok tt,
     mkWorld (rng w)
       (logs w ++ mismatch_lines err tx output flags code)
       (calls w ++ [CallOracle (TX_toRaw tx) 0 (Script.toRaw output)
                      0 flags])).
Proof.
  intros err Hne. apply code_differs_spec in Hne.
  unfold assertConsensus, verifyConsensus, bind, record_call, ret, util_log.
  simpl. fold err. rewrite Hne. simpl.
  unfold mismatch_lines. fold err.
  repeat rewrite <- app_assoc. reflexivity.
Qed.

(** [assertConsensus] returns, whatever it is given. *)
Lemma assertConsensus_returns (consensus : option Oracle) (tx : TX.t)
    (output : Script.t) (flags : Z) (code : option string) (w : World) :
  fst (assertConsensus consensus tx output flags code w) = Ok tt
  /\ rng (snd (assertConsensus consensus tx output flags code w)) = rng w.
Proof.
  destruct consensus as [oracle|]; [|split; reflexivity].
  set (err := oracle (TX_toRaw tx) 0 (Script.toRaw output) 0 flags).
  destruct (code_differs err code) eqn:E.
  - apply code_differs_spec in E.
    rewrite (assertConsensus_differ oracle tx output flags code w E).
    split; reflexivity.
  - assert (code = Some err) as ->.
    { unfold code_differs in E. destruct code as [c|]; [|discriminate].
      apply negb_false_iff, String.eqb_eq in E. now subst. }
    unfold err. rewrite assertConsensus_agree. split; reflexivity.
Qed.

(** C2.  When the reference verifier's code differs from the code of the
    local engine, [assertConsensus] returns normally; what it leaves
    behind is the seven log lines that describe the mismatch, after the
    one call to the reference verifier: it throws nothing, and the
    random source and the earlier lines and calls are as before.  In
    no case at all does [assertConsensus] throw. *)
Theorem assertConsensus_mismatch_only_logs
    (oracle : Oracle) (tx : TX.t) (output : Script.t) (flags : Z)
    (code : option string) (w : World) :
  code <> Some (oracle (TX_toRaw tx) 0 (Script.toRaw output) 0 flags) ->
  assertConsensus (Some oracle) tx output flags code w
  = (Ok tt,
     mkWorld (rng w)
       (logs w ++ mismatch_lines
                    (oracle (TX_toRaw tx) 0 (Script.toRaw output) 0 flags)
                    tx output flags code)
       (calls w ++ [CallOracle (TX_toRaw tx) 0 (Script.toRaw output)
                      0 flags]))
  /\ (forall consensus code' w',
        fst (assertConsensus consensus tx output flags code' w') = Ok tt).
Proof.
  intros Hne. split.
  - now apply assertConsensus_differ.
  - intros. apply assertConsensus_returns.
Qed.

End Consensus.

(* ================================================================== *)
(** * The rounds of the fuzz loops *)
(* ================================================================== *)

Section Rounds.

Context {L : Library}.

Lemma bind_Ok {S A B} (m : SE S A) (k : A -> SE S B) s {a s'} :
  m s = (Ok a, s') -> bind m k s = k a s'.
Proof. unfold bind. now intros ->. Qed.

Lemma bind_Throw {S A B} (m : SE S A) (k : A -> SE S B) s {e s'} :
  m s = (Throw e, s') -> bind m k s = (Throw e, s').
Proof. unfold bind. now intros ->. Qed.

Lemma liftGen_eq {A} (m : Gen A) (w : World) {r g} :
  m (rng w) = (r, g) -> liftGen m w = (r, mkWorld g (logs w) (calls w)).
Proof. unfold liftGen. now intros ->. Qed.

Lemma try_execute script stack flags tx index value version w :
  try_ (execute script stack flags tx index value version) w
  = (Ok (Script_execute script stack flags tx index value version),
     called (CallExecute script stack flags tx index value version) w).
Proof.
  unfold try_, execute, bind, record_call, called. simpl.
  destruct (Script_execute script stack flags tx index value version);
    reflexivity.
Qed.

Lemma try_verify input witness output tx index value flags w :
  try_ (verify input witness output tx index value flags) w
  = (Ok match Script_verify input witness output tx index value flags with
        | Some e => inl e
        | None => inr tt
        end,
     called (CallVerify input witness output tx index value flags) w).
Proof.
  unfold try_, verify, bind, record_call, called. simpl.
  destruct (Script_verify input witness output tx index value flags);
    reflexivity.
Qed.

Lemma rethrow_eq (e : Error.t) (w : World) :
  rethrow_unless_ScriptError e w
  = (if isScriptError e then Ok Continue else Throw e, w).
Proof.
  unfold rethrow_unless_ScriptError. destruct (isScriptError e); reflexivity.
Qed.

(** The three generators a round starts with return, whatever the
    random source gives. *)
Lemma repeatM_returns {S A} (step : A -> SE S A) :
  (forall a s, exists a' s', step a s = (Ok a', s')) ->
  forall n a s, exists a' s', repeatM n step a s = (Ok a', s').
Proof.
  intros Hstep. induction n as [|n IH]; intros a s; simpl.
  - now exists a, s.
  - destruct (Hstep a s) as (a1 & s1 & E).
    rewrite (bind_Ok _ _ _ E). apply IH.
Qed.

Lemma random_eq lo hi g :
  random lo hi g = (Ok (fst (util_random lo hi g)), snd (util_random lo hi g)).
Proof. unfold random. now destruct (util_random lo hi g). Qed.

Lemma randomBytes_eq n g :
  randomBytes n g
  = (Ok (fst (random_randomBytes n g)), snd (random_randomBytes n g)).
Proof. unfold randomBytes. now destruct (random_randomBytes n g). Qed.

Lemma randomItem_returns g : exists b g', randomItem g = (Ok b, g').
Proof.
  unfold randomItem. rewrite (bind_Ok _ _ _ (random_eq _ _ _)).
  rewrite randomBytes_eq. eauto.
Qed.

Lemma randomInputScript_returns redeem g :
  exists s g', randomInputScript redeem g = (Ok s, g').
Proof.
  unfold randomInputScript. rewrite (bind_Ok _ _ _ (random_eq _ _ _)).
  edestruct (@repeatM_returns Rng (list Opcode.t)) as (ops & g1 & E);
    [|rewrite (bind_Ok _ _ _ E)].
  - intros a s. destruct (randomItem_returns s) as (b & s' & Eb).
    rewrite (bind_Ok _ _ _ Eb). unfold ret. eauto.
  - destruct redeem; unfold ret; eauto.
Qed.

Lemma randomOutputScript_returns g :
  exists s g', randomOutputScript g = (Ok s, g').
Proof.
  unfold randomOutputScript. rewrite (bind_Ok _ _ _ (random_eq _ _ _)).
  rewrite (bind_Ok _ _ _ (randomBytes_eq _ _)). unfold ret. eauto.
Qed.

(** ** [fuzzSimple] *)

Lemma fuzzSimple_body_eq flags tx w {input g} :
  randomInputScript None (rng w) = (Ok input, g) ->
  fuzzSimple_body flags tx w
  = let w1 := called (CallExecute input [] flags tx 0 0 0)
                (mkWorld g (logs w) (calls w)) in
    match Script_execute input [] flags tx 0 0 0 with
    | inl e => (if isScriptError e then Ok Continue else Throw e, w1)
    | inr stack => fuzzSimple_output flags tx input stack w1
    end.
Proof.
  intros Hin. unfold fuzzSimple_body.
  rewrite (bind_Ok _ _ _ (liftGen_eq _ _ Hin)).
  rewrite (bind_Ok _ _ _ (try_execute _ _ _ _ _ _ _ _)).
  destruct (Script_execute input [] flags tx 0 0 0);
    [apply rethrow_eq | reflexivity].
Qed.

Lemma fuzzSimple_output_eq flags tx input stack w {output g} :
  randomOutputScript (rng w) = (Ok output, g) ->
  fuzzSimple_output flags tx input stack w
  = let w1 := called (CallExecute output stack flags tx 0 0 0)
                (mkWorld g (logs w) (calls w)) in
    match Script_execute output stack flags tx 0 0 0 with
    | inl e => (if isScriptError e then Ok Continue else Throw e, w1)
    | inr stack' => fuzzSimple_report input output stack' w1
    end.
Proof.
  intros Hout. unfold fuzzSimple_output.
  rewrite (bind_Ok _ _ _ (liftGen_eq _ _ Hout)).
  rewrite (bind_Ok _ _ _ (try_execute _ _ _ _ _ _ _ _)).
  destruct (Script_execute output stack flags tx 0 0 0);
    [apply rethrow_eq | reflexivity].
Qed.

Lemma fuzzSimple_report_eq input output stack w :
  fuzzSimple_report input output stack w
  = if (Stack.length stack =? 0) || negb (Stack.getBool stack (-1))
       || isPushOnly output
    then (Ok Continue, w)
    else (Ok Break, logged (simple_report_lines input output stack) w).
Proof.
  unfold fuzzSimple_report.
  destruct (Stack.length stack =? 0); [reflexivity|].
  destruct (Stack.getBool stack (-1)); [|reflexivity].
  destruct (isPushOnly output); [reflexivity|].
  simpl. unfold bind, util_log, ret, logged, simple_report_lines. simpl.
  repeat rewrite <- app_assoc. reflexivity.
Qed.

(** ** [fuzzVerify] and [fuzzLess] *)

Lemma assertConsensus_eq consensus tx output flags code (w : World) :
  assertConsensus consensus tx output flags code w
  = (Ok tt, snd (assertConsensus consensus tx output flags code w)).
Proof.
  destruct (assertConsensus_returns consensus tx output flags code w)
    as [H _].
  destruct (assertConsensus consensus tx output flags code w); simpl in *.
  now subst.
Qed.

Lemma fuzzVerify_check_eq consensus flags tx input witness output w :
  fuzzVerify_check consensus flags tx input witness output w
  = let w1 := called (CallVerify input witness output tx 0 0 flags) w in
    match Script_verify input witness output tx 0 0 flags with
    | Some e =>
        if isScriptError e
        then (Ok Continue,
              snd (assertConsensus consensus tx output flags
                     (Error.code e) w1))
        else (Throw e, w1)
    | None =>
        let w2 := snd (assertConsensus consensus tx output flags
                         (Some "OK"%string) w1) in
        if isPushOnly output then (Ok Continue, w2)
        else (Ok Break,
              logged (verify_report_lines input witness output) w2)
    end.
Proof.
  unfold fuzzVerify_check.
  rewrite (bind_Ok _ _ _ (try_verify _ _ _ _ _ _ _ _)).
  destruct (Script_verify input witness output tx 0 0 flags) as [e|].
  - destruct (isScriptError e); [|reflexivity].
    now rewrite (bind_Ok _ _ _ (assertConsensus_eq _ _ _ _ _ _)).
  - rewrite (bind_Ok _ _ _ (assertConsensus_eq _ _ _ _ _ _)).
    destruct (isPushOnly output); [reflexivity|].
    unfold bind, util_log, ret, logged, verify_report_lines. simpl.
    repeat rewrite <- app_assoc. reflexivity.
Qed.

Lemma fuzzLess_check_eq consensus flags tx ctx w :
  fuzzLess_check consensus flags tx ctx w
  = let w1 := called (CallVerify (Context.input ctx) (Context.witness ctx)
                        (Context.output ctx) tx 0 0 flags) w in
    match Script_verify (Context.input ctx) (Context.witness ctx)
            (Context.output ctx) tx 0 0 flags with
    | Some e =>
        if isScriptError e
        then (Ok Continue,
              snd (assertConsensus consensus tx (Context.output ctx) flags
                     (Error.code e) w1))
        else (Throw e, w1)
    | None =>
        (Ok Break,
         logged (less_report_lines ctx)
           (snd (assertConsensus consensus tx (Context.output ctx) flags
                   (Some "OK"%string) w1)))
    end.
Proof.
  unfold fuzzLess_check.
  rewrite (bind_Ok _ _ _ (try_verify _ _ _ _ _ _ _ _)).
  destruct (Script_verify (Context.input ctx) (Context.witness ctx)
              (Context.output ctx) tx 0 0 flags) as [e|].
  - destruct (isScriptError e); [|reflexivity].
    now rewrite (bind_Ok _ _ _ (assertConsensus_eq _ _ _ _ _ _)).
  - rewrite (bind_Ok _ _ _ (assertConsensus_eq _ _ _ _ _ _)).
    unfold less_report_lines, verify_report_lines.
    destruct (Context.redeem ctx);
      unfold bind, util_log, ret, logged; simpl;
      repeat rewrite <- app_assoc; reflexivity.
Qed.

(** ** The loops *)

Lemma loop_continue iter fuel st w st' w' :
  iter st w = (Ok (Continue, st'), w') ->
  loop iter (S fuel) st w = loop iter fuel st' w'.
Proof. intros H. simpl. now rewrite (bind_Ok _ _ _ H). Qed.

Lemma loop_break iter fuel st w st' w' :
  iter st w = (Ok (Break, st'), w') ->
  loop iter (S fuel) st w = (Ok Finished, w').
Proof. intros H. simpl. now rewrite (bind_Ok _ _ _ H). Qed.

Lemma loop_throw iter fuel st w e w' :
  iter st w = (Throw e, w') ->
  loop iter (S fuel) st w = (Throw e, w').
Proof. intros H. simpl. now rewrite (bind_Throw _ _ _ H). Qed.

(** A round of [fuzzSimple] ends as its body does. *)
Lemma fuzzSimple_iter_eq flags {st w st1 w1} :
  loop_head st w = (Ok st1, w1) ->
  fuzzSimple_iter flags st w
  = match fuzzSimple_body flags (tx st1) w1 with
    | (Ok o, w') => (Ok (o, st1), w')
    | (Throw e, w') => (Throw e, w')
    end.
Proof.
  intros H. unfold fuzzSimple_iter. rewrite (bind_Ok _ _ _ H).
  unfold bind, ret.
  now destruct (fuzzSimple_body flags (tx st1) w1) as [[o|e] w'].
Qed.

Lemma loop_follows_intro iter fuel st w r st' w' :
  iter st w = (match r with Ok o => Ok (o, st') | Throw e => Throw e end, w')
  -> loop_follows iter fuel st w r st' w'.
Proof.
  intros H. destruct r as [[|]|e]; simpl.
  - now apply loop_continue.
  - now apply loop_break with (st' := st').
  - now apply loop_throw.
Qed.

Lemma fuzzSimple_round flags fuel st w st1 w1 :
  loop_head st w = (Ok st1, w1) ->
  loop_follows (fuzzSimple_iter flags) fuel st w
    (fst (fuzzSimple_body flags (tx st1) w1)) st1
    (snd (fuzzSimple_body flags (tx st1) w1)).
Proof.
  intros H. apply loop_follows_intro.
  rewrite (fuzzSimple_iter_eq flags H).
  now destruct (fuzzSimple_body flags (tx st1) w1) as [[o|e] w'].
Qed.

Lemma set_input0_eq tx {i rest} input witness (w : World) :
  TX.inputs tx = i :: rest ->
  set_input0 tx input witness w
  = (Ok (TX.set_inputs tx
           (Input.set_witness (Input.set_script i input) witness :: rest)),
     w).
Proof. unfold set_input0. now intros ->. Qed.

Lemma fuzzVerify_round consensus flags fuel st w st1 w1
    input g1 witness g2 output g3 i rest :
  loop_head st w = (Ok st1, w1) ->
  randomInputScript None (rng w1) = (Ok input, g1) ->
  randomWitness None g1 = (Ok witness, g2) ->
  randomOutputScript g2 = (Ok output, g3) ->
  TX.inputs (tx st1) = i :: rest ->
  let tx' := with_input0 (tx st1) i rest input witness in
  let w2 := mkWorld g3 (logs w1) (calls w1) in
  loop_follows (fuzzVerify_iter consensus flags) fuel st w
    (fst (fuzzVerify_check consensus flags tx' input witness output w2))
    (mkLoop tx' (total st1))
    (snd (fuzzVerify_check consensus flags tx' input witness output w2)).
Proof.
  intros Hh Hi Hw Ho Htx tx' w2. apply loop_follows_intro.
  unfold fuzzVerify_iter. rewrite (bind_Ok _ _ _ Hh).
  unfold fuzzVerify_body.
  unfold bind at 1.
  rewrite (bind_Ok _ _ _ (liftGen_eq _ _ Hi)).
  simpl rng. simpl logs. simpl calls.
  rewrite (bind_Ok _ _ _ (liftGen_eq _ (mkWorld g1 (logs w1) (calls w1)) Hw)).
  simpl rng. simpl logs. simpl calls.
  rewrite (bind_Ok _ _ _ (liftGen_eq _ (mkWorld g2 (logs w1) (calls w1)) Ho)).
  simpl rng. simpl logs. simpl calls.
  rewrite (bind_Ok _ _ _ (set_input0_eq _ _ _ _ Htx)).
  fold (with_input0 (tx st1) i rest input witness). fold tx'. fold w2.
  unfold bind, ret.
  now destruct (fuzzVerify_check consensus flags tx' input witness output w2)
    as [[o|e] w'].
Qed.

Lemma fuzzLess_round consensus flags fuel st w st1 w1 ctx g1 i rest :
  loop_head st w = (Ok st1, w1) ->
  randomContext (rng w1) = (Ok ctx, g1) ->
  TX.inputs (tx st1) = i :: rest ->
  let tx' := with_input0 (tx st1) i rest
               (Context.input ctx) (Context.witness ctx) in
  let w2 := mkWorld g1 (logs w1) (calls w1) in
  loop_follows (fuzzLess_iter consensus flags) fuel st w
    (fst (fuzzLess_check consensus flags tx' ctx w2))
    (mkLoop tx' (total st1))
    (snd (fuzzLess_check consensus flags tx' ctx w2)).
Proof.
  intros Hh Hc Htx tx' w2. apply loop_follows_intro.
  unfold fuzzLess_iter. rewrite (bind_Ok _ _ _ Hh).
  unfold fuzzLess_body.
  unfold bind at 1.
  rewrite (bind_Ok _ _ _ (liftGen_eq _ _ Hc)).
  rewrite (bind_Ok _ _ _ (set_input0_eq _ _ _ _ Htx)).
  fold (with_input0 (tx st1) i rest (Context.input ctx) (Context.witness ctx)).
  fold tx'. fold w2.
  unfold bind, ret.
  now destruct (fuzzLess_check consensus flags tx' ctx w2) as [[o|e] w'].
Qed.

End Rounds.

(* ================================================================== *)
(** * Script errors, other errors, and reports *)
(* ================================================================== *)

Section Catch.

Context {L : Library}.

(** C1.  In each of the three loops, an exception [e] raised by the
    execution of a script or by the verification ends the round with
    [continue] when [e.type] is ['ScriptError'] and leaves the round
    as the same exception otherwise; and each loop follows its round:
    on [continue] it runs the next round, and an exception that leaves
    a round leaves the loop and so ends the harness. *)
Theorem ScriptError_continues_others_abort :
  (forall flags tx w input g e,
      randomInputScript None (rng w) = (Ok input, g) ->
      Script_execute input [] flags tx 0 0 0 = inl e ->
      fst (fuzzSimple_body flags tx w)
      = if isScriptError e then Ok Continue else Throw e)
  /\ (forall flags tx w input g stack output g' e,
      randomInputScript None (rng w) = (Ok input, g) ->
      Script_execute input [] flags tx 0 0 0 = inr stack ->
      randomOutputScript g = (Ok output, g') ->
      Script_execute output stack flags tx 0 0 0 = inl e ->
      fst (fuzzSimple_body flags tx w)
      = if isScriptError e then Ok Continue else Throw e)
  /\ (forall consensus flags tx input witness output w e,
      Script_verify input witness output tx 0 0 flags = Some e ->
      fst (fuzzVerify_check consensus flags tx input witness output w)
      = if isScriptError e then Ok Continue else Throw e)
  /\ (forall consensus flags tx ctx w e,
      Script_verify (Context.input ctx) (Context.witness ctx)
        (Context.output ctx) tx 0 0 flags = Some e ->
      fst (fuzzLess_check consensus flags tx ctx w)
      = if isScriptError e then Ok Continue else Throw e)
  /\ (forall flags fuel st w st1 w1,
      loop_head st w = (Ok st1, w1) ->
      loop_follows (fuzzSimple_iter flags) fuel st w
        (fst (fuzzSimple_body flags (tx st1) w1)) st1
        (snd (fuzzSimple_body flags (tx st1) w1)))
  /\ (forall consensus flags fuel st w st1 w1
             input g1 witness g2 output g3 i rest,
      loop_head st w = (Ok st1, w1) ->
      randomInputScript None (rng w1) = (Ok input, g1) ->
      randomWitness None g1 = (Ok witness, g2) ->
      randomOutputScript g2 = (Ok output, g3) ->
      TX.inputs (tx st1) = i :: rest ->
      let tx' := with_input0 (tx st1) i rest input witness in
      let w2 := mkWorld g3 (logs w1) (calls w1) in
      loop_follows (fuzzVerify_iter consensus flags) fuel st w
        (fst (fuzzVerify_check consensus flags tx' input witness output w2))
        (mkLoop tx' (total st1))
        (snd (fuzzVerify_check consensus flags tx' input witness output w2)))
  /\ (forall consensus flags fuel st w st1 w1 ctx g1 i rest,
      loop_head st w = (Ok st1, w1) ->
      randomContext (rng w1) = (Ok ctx, g1) ->
      TX.inputs (tx st1) = i :: rest ->
      let tx' := with_input0 (tx st1) i rest
                   (Context.input ctx) (Context.witness ctx) in
      let w2 := mkWorld g1 (logs w1) (calls w1) in
      loop_follows (fuzzLess_iter consensus flags) fuel st w
        (fst (fuzzLess_check consensus flags tx' ctx w2))
        (mkLoop tx' (total st1))
        (snd (fuzzLess_check consensus flags tx' ctx w2))).
Proof.
  repeat apply conj.
  - intros flags tx w input g e Hin He.
    rewrite (fuzzSimple_body_eq flags tx w Hin). cbv zeta. rewrite He.
    now destruct (isScriptError e).
  - intros flags tx w input g stack output g' e Hin Hs Hout He.
    rewrite (fuzzSimple_body_eq flags tx w Hin). cbv zeta. rewrite Hs.
    erewrite fuzzSimple_output_eq by exact Hout. cbv zeta. rewrite He.
    now destruct (isScriptError e).
  - intros consensus flags tx input witness output w e He.
    rewrite fuzzVerify_check_eq. cbv zeta. rewrite He.
    now destruct (isScriptError e).
  - intros consensus flags tx ctx w e He.
    rewrite fuzzLess_check_eq. cbv zeta. rewrite He.
    now destruct (isScriptError e).
  - intros. now apply fuzzSimple_round.
  - intros. now apply fuzzVerify_round with (g1 := g1) (g2 := g2).
  - intros. now apply fuzzLess_round.
Qed.

(** C7.  A round of [fuzzSimple] ends the loop with a report only when
    the input script and then the output script ran on one stack
    without an exception, the stack they left is not empty and its top
    element is true (and the output script is not push-only for the
    harness); a script error from either script, an empty stack, a
    false top element or a push-only output script ends the round with
    [continue] and without a line written, and the loop then runs the
    next round from the random source the round left. *)
Theorem fuzzSimple_reports_only_valid (flags : Z) (st : LoopState)
    (w : World) :
  (fst (fuzzSimple_body flags (tx st) w) = Ok Break ->
   exists input g stack output g' stack',
     randomInputScript None (rng w) = (Ok input, g)
     /\ Script_execute input [] flags (tx st) 0 0 0 = inr stack
     /\ randomOutputScript g = (Ok output, g')
     /\ Script_execute output stack flags (tx st) 0 0 0 = inr stack'
     /\ Stack.length stack' <> 0
     /\ Stack.getBool stack' (-1) = true
     /\ isPushOnly output = false
     /\ logs (snd (fuzzSimple_body flags (tx st) w))
        = logs w ++ simple_report_lines input output stack')
  /\ (forall input g e,
       randomInputScript None (rng w) = (Ok input, g) ->
       Script_execute input [] flags (tx st) 0 0 0 = inl e ->
       isScriptError e = true ->
       fst (fuzzSimple_body flags (tx st) w) = Ok Continue
       /\ logs (snd (fuzzSimple_body flags (tx st) w)) = logs w)
  /\ (forall input g stack output g',
       randomInputScript None (rng w) = (Ok input, g) ->
       Script_execute input [] flags (tx st) 0 0 0 = inr stack ->
       randomOutputScript g = (Ok output, g') ->
       match Script_execute output stack flags (tx st) 0 0 0 with
       | inl e => isScriptError e = true
       | inr stack' =>
           Stack.length stack' = 0
           \/ Stack.getBool stack' (-1) = false
           \/ isPushOnly output = true
       end ->
       fst (fuzzSimple_body flags (tx st) w) = Ok Continue
       /\ logs (snd (fuzzSimple_body flags (tx st) w)) = logs w
       /\ rng (snd (fuzzSimple_body flags (tx st) w)) = g')
  /\ (forall fuel st0 w0,
       loop_head st0 w0 = (Ok st, w) ->
       loop_follows (fuzzSimple_iter flags) fuel st0 w0
         (fst (fuzzSimple_body flags (tx st) w)) st
         (snd (fuzzSimple_body flags (tx st) w))).
Proof.
  destruct (randomInputScript_returns None (rng w)) as (input & g & Hin).
  rewrite (fuzzSimple_body_eq flags (tx st) w Hin). cbv zeta.
  set (w1 := called (CallExecute input [] flags (tx st) 0 0 0)
               (mkWorld g (logs w) (calls w))).
  destruct (randomOutputScript_returns g) as (output & g' & Hout).
  assert (Hout1 : randomOutputScript (rng w1) = (Ok output, g')) by exact Hout.
  repeat apply conj.
  - intros HB. exists input, g.
    destruct (Script_execute input [] flags (tx st) 0 0 0) as [e|stack] eqn:Ei.
    { simpl in HB. destruct (isScriptError e); discriminate. }
    exists stack, output, g'.
    rewrite (fuzzSimple_output_eq flags (tx st) input stack w1 Hout1) in *.
    cbv zeta in *.
    destruct (Script_execute output stack flags (tx st) 0 0 0) as [e|stack'] eqn:Eo.
    { simpl in HB. destruct (isScriptError e); discriminate. }
    exists stack'. rewrite fuzzSimple_report_eq in *.
    destruct (Stack.length stack' =? 0) eqn:E0; [discriminate|].
    destruct (Stack.getBool stack' (-1)) eqn:E1; [|discriminate].
    destruct (isPushOnly output) eqn:E2; [discriminate|].
    simpl. apply Z.eqb_neq in E0. repeat split; auto.
  - intros input0 g0 e Hin0 He Hse.
    rewrite Hin0 in Hin. inversion Hin; subst input0 g0.
    rewrite He, Hse. split; reflexivity.
  - intros input0 g0 stack output0 g0' Hin0 Hs Hout0 Hcase.
    rewrite Hin0 in Hin. inversion Hin; subst input0 g0.
    rewrite Hout0 in Hout. inversion Hout; subst output0 g0'.
    rewrite Hs.
    rewrite (fuzzSimple_output_eq flags (tx st) input stack w1 Hout1). cbv zeta.
    destruct (Script_execute output stack flags (tx st) 0 0 0) as [e|stack'].
    + rewrite Hcase. repeat split; reflexivity.
    + rewrite fuzzSimple_report_eq.
      assert (Hb : (Stack.length stack' =? 0)
                   || negb (Stack.getBool stack' (-1))
                   || isPushOnly output = true).
      { destruct Hcase as [H|[H|H]].
        - apply Z.eqb_eq in H. now rewrite H.
        - rewrite H. simpl. now rewrite orb_true_r.
        - rewrite H. now rewrite orb_true_r. }
      rewrite Hb. repeat split; reflexivity.
  - intros fuel st0 w0 Hh.
    pose proof (fuzzSimple_round flags fuel st0 w0 st w Hh) as H.
    now rewrite (fuzzSimple_body_eq flags (tx st) w Hin) in H.
Qed.

End Catch.

(* ================================================================== *)
(** * The harness's push-only test *)
(* ================================================================== *)

Section PushOnly.

Context {L : Library}.

(** With none of the three names in the table, every test of the loop
    compares with [undefined] and no operation is passed over. *)
Lemma passes_over_undefined (op : Opcode.t) :
  Script_opcodes "NOP"%string = None ->
  Script_opcodes "NOP_1"%string = None ->
  Script_opcodes "NOP_3"%string = None ->
  passes_over op = false.
Proof.
  intros H0 H1 H3. unfold passes_over. now rewrite H0, H1, H3.
Qed.

Lemma isPushOnly_undefined (s : Script.t) :
  Script_opcodes "NOP"%string = None ->
  Script_opcodes "NOP_1"%string = None ->
  Script_opcodes "NOP_3"%string = None ->
  isPushOnly s = Script.isPushOnly s.
Proof.
  intros H0 H1 H3. unfold isPushOnly, Script.values.
  destruct (Script.isPushOnly s) eqn:E; [reflexivity|].
  unfold Script.isPushOnly in E.
  destruct (Script.code s) as [|op ops]; [discriminate E|].
  cbn [forallb]. now rewrite (passes_over_undefined op H0 H1 H3).
Qed.

(** With the three names in the table, the loop passes over the
    operations the names stand for. *)
Lemma nop_like_forallb (nop nop1 nop3 : Z) (ops : list Opcode.t) :
  Script_opcodes "NOP"%string = Some nop ->
  Script_opcodes "NOP_1"%string = Some nop1 ->
  Script_opcodes "NOP_3"%string = Some nop3 ->
  forallb passes_over ops = true <-> Forall (nop_like nop nop1 nop3) ops.
Proof.
  intros H0 H1 H3. rewrite forallb_forall, Forall_forall.
  unfold passes_over, nop_like. rewrite H0, H1, H3. cbn [strictEquals greaterThan].
  split; intros H op Hin; specialize (H op Hin).
  - zbool; auto. right. right. lia.
  - destruct H as [H|[H|H]]; rewrite ?H, ?Z.eqb_refl, ?orb_true_r; auto.
    apply orb_true_iff. right. rewrite Z.gtb_ltb. apply Z.ltb_lt. lia.
Qed.

Lemma isPushOnly_spec (nop nop1 nop3 : Z) (s : Script.t) :
  Script_opcodes "NOP"%string = Some nop ->
  Script_opcodes "NOP_1"%string = Some nop1 ->
  Script_opcodes "NOP_3"%string = Some nop3 ->
  isPushOnly s = true
  <-> Script.isPushOnly s = true
      \/ Forall (nop_like nop nop1 nop3) (Script.code s).
Proof.
  intros H0 H1 H3. unfold isPushOnly, Script.values.
  destruct (Script.isPushOnly s).
  - split; auto.
  - rewrite (nop_like_forallb nop nop1 nop3 _ H0 H1 H3).
    split; [auto | intros [H|H]; [discriminate|auto]].
Qed.

(** Whatever the table holds, the harness's test accepts what the
    library's test accepts. *)
Lemma isPushOnly_accepts_pushes (s : Script.t) :
  Script.isPushOnly s = true -> isPushOnly s = true.
Proof.
  intros H. unfold isPushOnly. now rewrite H.
Qed.

(** Lines 355-356 and 413-414: in a round of [fuzzSimple] that left a
    stack with a true top element, and in a round of [fuzzVerify] whose
    verification succeeded, the report is left out and the round ends
    with [continue] exactly when the harness's test accepts the output
    script. *)
Lemma report_left_out_iff_isPushOnly :
  (forall input output stack w,
      Stack.length stack <> 0 ->
      Stack.getBool stack (-1) = true ->
      fuzzSimple_report input output stack w
      = if isPushOnly output then (Ok Continue, w)
        else (Ok Break,
              logged (simple_report_lines input output stack) w))
  /\ (forall consensus flags tx input witness output w,
        Script_verify input witness output tx 0 0 flags = None ->
        fst (fuzzVerify_check consensus flags tx input witness output w)
        = Ok (if isPushOnly output then Continue else Break)
        /\ (logs (snd (fuzzVerify_check consensus flags tx input witness
                         output w))
            = logs (snd (assertConsensus consensus tx output flags
                           (Some "OK"%string)
                           (called (CallVerify input witness output tx
                                      0 0 flags) w)))
              ++ (if isPushOnly output then []
                  else verify_report_lines input witness output))).
Proof.
  split.
  - intros input output stack w H0 H1. rewrite fuzzSimple_report_eq.
    apply Z.eqb_neq in H0. rewrite H0, H1. reflexivity.
  - intros consensus flags tx input witness output w Hv.
    rewrite fuzzVerify_check_eq. cbv zeta. rewrite Hv.
    destruct (isPushOnly output); simpl; split; auto using app_nil_r.
Qed.

End PushOnly.

(** With the aliased table the harness's test is strictly weaker than
    the library's: it accepts the script of the one opcode 0x61, which
    the library's test rejects. *)
Lemma isPushOnly_with_aliases :
  (forall s,
      isPushOnly (L := Sample.withAliases) s = true
      <-> Script.isPushOnly s = true
          \/ Forall (nop_like 0x61 0xb0 0xb2) (Script.code s))
  /\ isPushOnly (L := Sample.withAliases) (Script.fromRaw [x61]) = true
  /\ Script.isPushOnly (Script.fromRaw [x61]) = false.
Proof.
  split; [|split; reflexivity].
  intros s.
  exact (isPushOnly_spec (L := Sample.withAliases) 0x61 0xb0 0xb2 s
           eq_refl eq_refl eq_refl).
Qed.

(** C10 (code bug).  The harness reads the entries [NOP], [NOP_1] and
    [NOP_3] of [Script.opcodes].  In a table that has none of the three
    names (one that names these opcodes OP_NOP, OP_NOP1 and OP_NOP3) each
    test of the loop compares with [undefined] and is false, so the
    harness's [isPushOnly] is the library's [isPushOnly] and not weaker:
    on the script of the one operation OP_NOP, and likewise OP_NOP1 and
    the opcode OP_NOP4 above OP_NOP3, which the specification says it accepts,
    it answers [false], and the report of [fuzzSimple] is not left out
    for such an output. *)
Theorem isPushOnly_rejects_nops :
  (forall L : Library,
      Script_opcodes "NOP"%string = None ->
      Script_opcodes "NOP_1"%string = None ->
      Script_opcodes "NOP_3"%string = None ->
      forall s, isPushOnly s = Script.isPushOnly s)
  /\ (Script_opcodes (Library := Sample.library) "OP_NOP"%string = Some 0x61
      /\ Script_opcodes (Library := Sample.library) "OP_NOP1"%string = Some 0xb0
      /\ Script_opcodes (Library := Sample.library) "OP_NOP3"%string = Some 0xb2)
  /\ (map Opcode.value (Script.values (Script.fromRaw [x61])) = [0x61]
      /\ isPushOnly (L := Sample.library) (Script.fromRaw [x61]) = false)
  /\ (map Opcode.value (Script.values (Script.fromRaw [xb0])) = [0xb0]
      /\ isPushOnly (L := Sample.library) (Script.fromRaw [xb0]) = false)
  /\ (map Opcode.value (Script.values (Script.fromRaw [xb3])) = [0xb3]
      /\ isPushOnly (L := Sample.library) (Script.fromRaw [xb3]) = false)
  /\ fst (fuzzSimple_report (L := Sample.library) Script.empty
            (Script.fromRaw [x61]) [[x01]] (Sample.world []))
     = Ok Break.
Proof.
  split; [|repeat split; reflexivity].
  intros L H0 H1 H3 s. now apply isPushOnly_undefined.
Qed.

(* ================================================================== *)
(** * Every verification is of input 0 with amount 0 *)
(* ================================================================== *)

Section Targets.

Context {L : Library}.
Variable P : Call -> Prop.

Lemma adds_ret {A} (a : A) : adds_only P (ret a).
Proof. intros w. exists []. simpl. now rewrite app_nil_r. Qed.

Lemma adds_throw {A} (e : Error.t) : adds_only P (@throw World A e).
Proof. intros w. exists []. simpl. now rewrite app_nil_r. Qed.

Lemma adds_bind {A B} (m : M A) (k : A -> M B) :
  adds_only P m -> (forall a, adds_only P (k a)) -> adds_only P (bind m k).
Proof.
  intros Hm Hk w. unfold bind.
  destruct (Hm w) as (n1 & E1 & F1).
  destruct (m w) as [[a|e] w1]; simpl in *.
  - destruct (Hk a w1) as (n2 & E2 & F2).
    exists (n1 ++ n2). rewrite E2, E1, app_assoc. split; auto.
    apply Forall_app; auto.
  - now exists n1.
Qed.

Lemma adds_try {A} (m : M A) : adds_only P m -> adds_only P (try_ m).
Proof.
  intros Hm w. unfold try_. destruct (Hm w) as (n1 & E1 & F1).
  destruct (m w) as [[a|e] w1]; now exists n1.
Qed.

Lemma adds_liftGen {A} (m : Gen A) : adds_only P (liftGen m).
Proof.
  intros w. unfold liftGen. exists [].
  destruct (m (rng w)). simpl. now rewrite app_nil_r.
Qed.

Lemma adds_util_log args : adds_only P (util_log args).
Proof. intros w. exists []. simpl. now rewrite app_nil_r. Qed.

Lemma adds_record_call c : P c -> adds_only P (record_call c).
Proof. intros Hc w. exists [c]. simpl. split; auto. Qed.

Lemma adds_if {A} (b : bool) (m1 m2 : M A) :
  adds_only P m1 -> adds_only P m2 -> adds_only P (if b then m1 else m2).
Proof. now destruct b. Qed.

Lemma adds_loop (iter : LoopState -> M (Outcome * LoopState)) :
  (forall st, adds_only P (iter st)) ->
  forall fuel st, adds_only P (loop iter fuel st).
Proof.
  intros Hiter. induction fuel as [|fuel IH]; intros st; simpl.
  - apply adds_ret.
  - apply adds_bind; [apply Hiter|]. intros [o st']. simpl.
    destruct o; [apply IH | apply adds_ret].
Qed.

End Targets.

(** Breaks a computation of the harness into its steps. *)
Ltac adds_steps_with known :=
  repeat first
    [ known
    | apply adds_ret | apply adds_throw | apply adds_liftGen
    | apply adds_util_log | apply adds_try
    | apply adds_if
    | apply adds_bind; [|intros]
    | match goal with
      | |- adds_only _ (match ?x with _ => _ end) => destruct x
      end ].

Ltac adds_steps := adds_steps_with fail.

Section FirstInput.

Context {L : Library}.

Lemma adds_execute script stack flags tx version :
  adds_only targets_first_input (execute script stack flags tx 0 0 version).
Proof.
  unfold execute. adds_steps. apply adds_record_call. now split.
Qed.

Lemma adds_verify input witness output tx flags :
  adds_only targets_first_input (verify input witness output tx 0 0 flags).
Proof.
  unfold verify. adds_steps. apply adds_record_call. now split.
Qed.

Lemma adds_assertConsensus consensus tx output flags code :
  adds_only targets_first_input
    (assertConsensus consensus tx output flags code).
Proof.
  unfold assertConsensus, verifyConsensus.
  destruct consensus; adds_steps. apply adds_record_call. now split.
Qed.

Lemma adds_loop_head st : adds_only targets_first_input (loop_head st).
Proof. unfold loop_head. adds_steps. Qed.

Lemma adds_fuzzSimple_iter flags st :
  adds_only targets_first_input (fuzzSimple_iter flags st).
Proof.
  unfold fuzzSimple_iter, fuzzSimple_body, fuzzSimple_output,
    fuzzSimple_report, rethrow_unless_ScriptError.
  adds_steps_with ltac:(first [apply adds_loop_head | apply adds_execute]).
Qed.

Lemma adds_set_input0 tx input witness :
  adds_only targets_first_input (set_input0 tx input witness).
Proof. unfold set_input0. adds_steps. Qed.

Lemma adds_fuzzVerify_iter consensus flags st :
  adds_only targets_first_input (fuzzVerify_iter consensus flags st).
Proof.
  unfold fuzzVerify_iter, fuzzVerify_body, fuzzVerify_check.
  adds_steps_with
    ltac:(first [ apply adds_loop_head | apply adds_set_input0
                | apply adds_verify | apply adds_assertConsensus ]).
Qed.

Lemma adds_fuzzLess_iter consensus flags st :
  adds_only targets_first_input (fuzzLess_iter consensus flags st).
Proof.
  unfold fuzzLess_iter, fuzzLess_body, fuzzLess_check.
  adds_steps_with
    ltac:(first [ apply adds_loop_head | apply adds_set_input0
                | apply adds_verify | apply adds_assertConsensus ]).
Qed.

Lemma adds_fuzzSimple flags fuel :
  adds_only targets_first_input (fuzzSimple flags fuel).
Proof.
  unfold fuzzSimple. apply adds_bind; [apply adds_liftGen|]. intros tx0.
  apply adds_loop. intros st. apply adds_fuzzSimple_iter.
Qed.

Lemma adds_fuzzVerify consensus flags fuel :
  adds_only targets_first_input (fuzzVerify consensus flags fuel).
Proof.
  unfold fuzzVerify. apply adds_bind; [apply adds_liftGen|]. intros tx0.
  apply adds_loop. intros st. apply adds_fuzzVerify_iter.
Qed.

Lemma adds_fuzzLess consensus flags fuel :
  adds_only targets_first_input (fuzzLess consensus flags fuel).
Proof.
  unfold fuzzLess. apply adds_bind; [apply adds_liftGen|]. intros tx0.
  apply adds_loop. intros st. apply adds_fuzzLess_iter.
Qed.

Lemma adds_main consensus table argv fuel :
  adds_only targets_first_input (main consensus table argv fuel).
Proof.
  unfold main.
  destruct (nth_error argv 2) as [mode|]; [|adds_steps].
  repeat match goal with
         | |- adds_only _ (match ?x with _ => _ end) => destruct x
         end;
    first [ apply adds_fuzzSimple | apply adds_fuzzVerify
          | apply adds_fuzzLess | adds_steps ].
Qed.

Lemma adds_program consensus table argv fuel :
  adds_only targets_first_input (program consensus table argv fuel).
Proof.
  unfold program. apply adds_bind; [|intros; apply adds_main].
  destruct consensus; [apply adds_util_log | apply adds_ret].
Qed.

End FirstInput.

Section Transactions.

Context {L : Library}.

Lemma bind_Ok_inv {S A B} (m : SE S A) (k : A -> SE S B) s b s' :
  bind m k s = (Ok b, s') ->
  exists a s1, m s = (Ok a, s1) /\ k a s1 = (Ok b, s').
Proof.
  unfold bind. destruct (m s) as [[a|e] s1]; intros H.
  - now exists a, s1.
  - discriminate.
Qed.

Lemma ret_inv {S A} (a b : A) (s s' : S) :
  ret a s = (Ok b, s') -> a = b /\ s = s'.
Proof. unfold ret. intros H. inversion H. auto. Qed.

Lemma random_inv lo hi g z g' :
  random lo hi g = (Ok z, g') -> z = fst (util_random lo hi g).
Proof. rewrite random_eq. intros H. now inversion H. Qed.

(** A loop whose every round moves a measure by [d] moves it by [d]
    times the number of rounds. *)
Lemma repeatM_count {S A} (f : A -> nat) (d : nat) (step : A -> SE S A) :
  (forall a s a' s', step a s = (Ok a', s') -> f a' = (f a + d)%nat) ->
  forall n a s a' s',
    repeatM n step a s = (Ok a', s') -> f a' = (f a + n * d)%nat.
Proof.
  intros Hstep. induction n as [|n IH]; intros a s a' s' H; simpl in H.
  - apply ret_inv in H as [-> _]. lia.
  - apply bind_Ok_inv in H as (a1 & s1 & H1 & H2).
    apply Hstep in H1. apply IH in H2. lia.
Qed.

(** A transaction of [randomTX] has as many inputs as the first draw
    says: one to four. *)
Lemma randomTX_inputs g tx g' :
  random_in_range L ->
  TX.inputs TX_new = [] ->
  randomTX g = (Ok tx, g') ->
  (1 <= length (TX.inputs tx) <= 4)%nat.
Proof.
  intros Hrange Hnew H. unfold randomTX in H.
  apply bind_Ok_inv in H as (n & g1 & Hn & H). apply random_inv in Hn.
  apply bind_Ok_inv in H as (m & g2 & _ & H).
  apply bind_Ok_inv in H as (v & g3 & _ & H).
  apply bind_Ok_inv in H as (tx1 & g4 & H1 & H).
  apply bind_Ok_inv in H as (tx2 & g5 & H2 & H).
  apply bind_Ok_inv in H as (r & g6 & _ & H).
  apply bind_Ok_inv in H as (tx3 & g7 & H3 & H).
  apply ret_inv in H as [<- _]. unfold TX.refresh.
  apply (repeatM_count (fun t => length (TX.inputs t)) 1) in H1.
  2:{ intros a s a' s' Hs.
      apply bind_Ok_inv in Hs as (i & s1 & _ & Hs).
      apply ret_inv in Hs as [<- _]. simpl. rewrite length_app. simpl. lia. }
  apply (repeatM_count (fun t => length (TX.inputs t)) 0) in H2.
  2:{ intros a s a' s' Hs.
      apply bind_Ok_inv in Hs as (o & s1 & _ & Hs).
      apply ret_inv in Hs as [<- _]. simpl. lia. }
  assert (E3 : TX.inputs tx3 = TX.inputs tx2).
  { destruct (r =? 0).
    - apply bind_Ok_inv in H3 as (k & s1 & _ & H3).
      now apply ret_inv in H3 as [<- _].
    - now apply ret_inv in H3 as [<- _]. }
  rewrite E3, H2, H1. simpl. rewrite Hnew. simpl.
  pose proof (Hrange 1 5 g ltac:(lia)) as Hb. rewrite <- Hn in Hb. lia.
Qed.

(** C9.  Every call the harness makes into the engine or the reference
    verifier, in each of the three loops, for any flags (so for both
    presets) and any number of rounds, is a call for input 0 with
    amount 0: [fuzzSimple], [fuzzVerify], [fuzzLess] and the whole
    program leave the earlier calls in place and add only such calls.
    The transactions these calls are made for have at least one input
    and at most four, [util.random(1, 5)] being below 5. *)
Theorem harness_targets_first_input
    (consensus : option Oracle) (flags : Z) (fuel : nat) :
  adds_only targets_first_input (fuzzSimple flags fuel)
  /\ adds_only targets_first_input (fuzzVerify consensus flags fuel)
  /\ adds_only targets_first_input (fuzzLess consensus flags fuel)
  /\ (forall table argv,
        adds_only targets_first_input (program consensus table argv fuel))
  /\ (random_in_range L -> TX.inputs TX_new = [] ->
      forall g tx g', randomTX g = (Ok tx, g') ->
                      (1 <= length (TX.inputs tx) <= 4)%nat).
Proof.
  repeat apply conj.
  - apply adds_fuzzSimple.
  - apply adds_fuzzVerify.
  - apply adds_fuzzLess.
  - intros. apply adds_program.
  - intros Hr Hn g tx g' H. exact (randomTX_inputs g tx g' Hr Hn H).
Qed.

End Transactions.

(* ================================================================== *)
(** * The generators return *)
(* ================================================================== *)

Section Returns.

Context {L : Library}.

Lemma returns_ret {S A} (Q : A -> Prop) (a : A) :
  Q a -> returns (S := S) Q (ret a).
Proof. intros Ha s. now exists a, s. Qed.

Lemma returns_bind {S A B} (Q : A -> Prop) (R : B -> Prop)
    (m : SE S A) (k : A -> SE S B) :
  returns Q m -> (forall a, Q a -> returns R (k a)) -> returns R (bind m k).
Proof.
  intros Hm Hk s. destruct (Hm s) as (a & s1 & E & Ha).
  rewrite (bind_Ok _ _ _ E). now apply Hk.
Qed.

Lemma returns_weaken {S A} (Q R : A -> Prop) (m : SE S A) :
  (forall a, Q a -> R a) -> returns Q m -> returns R m.
Proof.
  intros HQR Hm s. destruct (Hm s) as (a & s1 & E & Ha).
  exists a, s1. auto.
Qed.

Lemma returns_repeatM {S A} (step : A -> SE S A) n a :
  (forall a, returns any (step a)) -> returns any (repeatM n step a).
Proof.
  intros Hstep. revert a. induction n as [|n IH]; intros a; simpl.
  - now apply returns_ret.
  - eapply returns_bind; [apply Hstep | intros; apply IH].
Qed.

Lemma returns_random_any lo hi : returns any (random lo hi).
Proof. intros g. rewrite random_eq. now eexists _, _. Qed.

Lemma returns_randomBytes n : returns any (randomBytes n).
Proof. intros g. rewrite randomBytes_eq. now eexists _, _. Qed.

Hypothesis in_range : random_in_range L.

Lemma returns_random lo hi :
  lo < hi -> returns (fun z => lo <= z < hi) (random lo hi).
Proof.
  intros H g. rewrite random_eq. eexists _, _. split; [reflexivity|].
  now apply in_range.
Qed.

(** Chains the steps of a generator. *)
Ltac returns_steps :=
  repeat first
    [ apply (returns_ret any); exact I
    | apply returns_random_any
    | apply returns_randomBytes
    | apply returns_repeatM; intros
    | eapply returns_bind; [|intros ? ?]
    | match goal with
      | |- returns _ (if ?b then _ else _) => destruct b
      | |- returns _ (match ?x with _ => _ end) => destruct x
      end ].

Lemma returns_randomItem : returns any randomItem.
Proof. unfold randomItem. returns_steps. Qed.

Lemma returns_randomInputScript redeem :
  returns any (randomInputScript redeem).
Proof.
  unfold randomInputScript.
  eapply returns_bind; [apply returns_random_any | intros size _].
  eapply returns_bind.
  - apply returns_repeatM. intros ops.
    eapply returns_bind; [apply returns_randomItem | intros item _].
    now apply returns_ret.
  - intros ops _. destruct redeem; now apply returns_ret.
Qed.

Lemma returns_randomWitness redeem : returns any (randomWitness redeem).
Proof.
  unfold randomWitness.
  eapply returns_bind; [apply returns_random_any | intros size _].
  eapply returns_bind.
  - apply returns_repeatM. intros w.
    eapply returns_bind; [apply returns_randomItem | intros item _].
    now apply returns_ret.
  - intros w _. destruct redeem; now apply returns_ret.
Qed.

Lemma returns_randomKeyLength : returns any randomKeyLength.
Proof. unfold randomKeyLength. returns_steps. Qed.

Lemma returns_randomPubkey : returns any randomPubkey.
Proof.
  unfold randomPubkey.
  eapply returns_bind; [apply returns_randomKeyLength | intros len _].
  returns_steps.
Qed.

Lemma returns_randomPubkeyhash : returns any randomPubkeyhash.
Proof. unfold randomPubkeyhash. returns_steps. Qed.

Lemma returns_randomMultisig : returns any randomMultisig.
Proof.
  unfold randomMultisig.
  eapply returns_bind; [apply returns_random_any | intros n _].
  eapply returns_bind; [apply returns_random_any | intros m _].
  eapply returns_bind.
  - apply returns_repeatM. intros keys.
    eapply returns_bind; [apply returns_randomKeyLength | intros len _].
    returns_steps.
  - intros keys _. now apply returns_ret.
Qed.

Lemma returns_randomScripthash : returns any randomScripthash.
Proof. unfold randomScripthash. returns_steps. Qed.

Lemma returns_randomWitnessPubkeyhash : returns any randomWitnessPubkeyhash.
Proof. unfold randomWitnessPubkeyhash. returns_steps. Qed.

Lemma returns_randomWitnessScripthash : returns any randomWitnessScripthash.
Proof. unfold randomWitnessScripthash. returns_steps. Qed.

Lemma returns_randomProgram : returns any randomProgram.
Proof. unfold randomProgram. returns_steps. Qed.

(** The [switch] statements never reach their [throw new Error()]. *)
Lemma returns_randomRedeem : returns any randomRedeem.
Proof.
  unfold randomRedeem.
  eapply returns_bind; [apply (returns_random 0 5); lia | intros r Hr].
  cbv beta in Hr.
  assert (Hc : r = 0 \/ r = 1 \/ r = 2 \/ r = 3 \/ r = 4) by lia.
  destruct Hc as [->|[->|[->|[->| ->]]]]; simpl;
    auto using returns_randomPubkey, returns_randomPubkeyhash,
      returns_randomMultisig, returns_randomWitnessPubkeyhash,
      returns_randomProgram.
Qed.

Lemma returns_randomScript : returns any randomScript.
Proof.
  unfold randomScript.
  eapply returns_bind; [apply (returns_random 0 7); lia | intros r Hr].
  cbv beta in Hr.
  assert (Hc : r = 0 \/ r = 1 \/ r = 2 \/ r = 3 \/ r = 4 \/ r = 5 \/ r = 6)
    by lia.
  destruct Hc as [->|[->|[->|[->|[->|[->| ->]]]]]]; simpl;
    auto using returns_randomPubkey, returns_randomPubkeyhash,
      returns_randomMultisig, returns_randomScripthash,
      returns_randomWitnessPubkeyhash, returns_randomWitnessScripthash,
      returns_randomProgram.
Qed.

Lemma returns_randomScripthashContext : returns any randomScripthashContext.
Proof.
  unfold randomScripthashContext.
  eapply returns_bind; [apply returns_randomRedeem | intros redeem _].
  eapply returns_bind; [apply returns_randomInputScript | intros input _].
  now apply returns_ret.
Qed.

Lemma returns_randomWitnessScripthashContext :
  returns any randomWitnessScripthashContext.
Proof.
  unfold randomWitnessScripthashContext.
  eapply returns_bind; [apply returns_randomRedeem | intros redeem _].
  eapply returns_bind; [apply returns_randomWitness | intros witness _].
  now apply returns_ret.
Qed.

Lemma returns_randomInput : returns any randomInput.
Proof.
  unfold randomInput, randomOutpoint. returns_steps.
Qed.

Lemma returns_randomOutput : returns any randomOutput.
Proof.
  unfold randomOutput.
  eapply returns_bind; [apply returns_randomScript | intros s _].
  returns_steps.
Qed.

Lemma returns_randomTX : returns any randomTX.
Proof.
  unfold randomTX.
  eapply returns_bind; [apply returns_random_any | intros n _].
  eapply returns_bind; [apply returns_random_any | intros m _].
  eapply returns_bind; [apply returns_random_any | intros v _].
  eapply returns_bind.
  { apply returns_repeatM. intros t.
    eapply returns_bind; [apply returns_randomInput | intros i _].
    now apply returns_ret. }
  intros tx1 _. eapply returns_bind.
  { apply returns_repeatM. intros t.
    eapply returns_bind; [apply returns_randomOutput | intros o _].
    now apply returns_ret. }
  intros tx2 _. returns_steps.
Qed.

(** The head of a round returns: a round always reaches its body. *)
Lemma loop_head_returns (st : LoopState) (w : World) :
  exists st1 w1, loop_head st w = (Ok st1, w1).
Proof.
  unfold loop_head.
  set (t := total st + 1).
  assert (Hlog : forall w0 : World, exists w1,
             (if Z.rem t 1000 =? 0
              then util_log [LStr "Fuzzed %d scripts."; LNum t]
              else ret tt) w0 = (Ok tt, w1)).
  { intros w0. destruct (Z.rem t 1000 =? 0); eexists; reflexivity. }
  destruct (Hlog w) as (w1 & E1). rewrite (bind_Ok _ _ _ E1).
  destruct (Z.rem t 500 =? 0).
  - destruct (returns_randomTX (rng w1)) as (tx1 & g & E & _).
    rewrite (bind_Ok _ _ _ (liftGen_eq _ _ E)). unfold ret. eauto.
  - unfold bind, ret. simpl. eauto.
Qed.

End Returns.

(* ================================================================== *)
(** * Spending contexts *)
(* ================================================================== *)

Lemma fromData_value (d : bytes) :
  0 <= Opcode.value (Opcode.fromData d) <= 0x4e.
Proof.
  unfold Opcode.fromData, opcodes.OP_0, opcodes.PUSHDATA1, opcodes.PUSHDATA2,
    opcodes.PUSHDATA4.
  pose proof (blen_nonneg d).
  ztest; simpl; lia.
Qed.

Lemma toPush_fromData (d : bytes) :
  Opcode.toPush (Opcode.fromData d) = Some d.
Proof.
  pose proof (fromData_value d) as Hv. revert Hv.
  unfold Opcode.fromData, Opcode.toPush, opcodes.OP_0, opcodes.PUSHDATA1,
    opcodes.PUSHDATA2, opcodes.PUSHDATA4.
  destruct (Z.eqb_spec (blen d) 0) as [E|E].
  - intros _. simpl. destruct d; [reflexivity | discriminate].
  - ztest; simpl; intros Hv; ztest; reflexivity.
Qed.

Lemma compile_fromData_isPushOnly (items : list bytes) :
  Script.isPushOnly (Script.compile (map Opcode.fromData items)) = true.
Proof.
  unfold Script.isPushOnly, Script.compile. simpl.
  apply forallb_forall. intros op Hin.
  apply in_map_iff in Hin as (d & <- & _).
  pose proof (fromData_value d). unfold opcodes.OP_16.
  apply andb_true_iff. split.
  - apply negb_true_iff, Z.eqb_neq. lia.
  - apply Z.leb_le. lia.
Qed.

Lemma last_push_compile (items : list bytes) (d : bytes) :
  last_push (Script.compile (map Opcode.fromData (items ++ [d]))) = Some d.
Proof.
  unfold last_push, Script.compile. simpl.
  rewrite !map_app. simpl. rewrite last_last. apply toPush_fromData.
Qed.

Lemma getScripthash_fromScripthash (h : bytes) :
  blen h = 20 -> Script.getScripthash (Script.fromScripthash h) = Some h.
Proof.
  unfold blen. intros H.
  assert (Hn : length h = 20%nat) by lia. clear H.
  do 20 (destruct h as [|? h]; [discriminate Hn|]).
  destruct h; [reflexivity | discriminate Hn].
Qed.

Lemma getProgram_fromProgram (d : bytes) :
  blen d = 32 -> Script.getProgram (Script.fromProgram 0 d) = Some (0, d).
Proof.
  unfold blen. intros H.
  assert (Hn : length d = 32%nat) by lia. clear H.
  do 32 (destruct d as [|? d]; [discriminate Hn|]).
  destruct d; [reflexivity | discriminate Hn].
Qed.

Section Contexts.

Context {L : Library}.

(** What holds before a loop and is kept by every round holds after
    it. *)
Lemma repeatM_preserves {S A} (P : A -> Prop) (step : A -> SE S A) :
  (forall a s a' s', P a -> step a s = (Ok a', s') -> P a') ->
  forall n a s a' s', P a -> repeatM n step a s = (Ok a', s') -> P a'.
Proof.
  intros Hstep. induction n as [|n IH]; intros a s a' s' Ha H; simpl in H.
  - now apply ret_inv in H as [<- _].
  - apply bind_Ok_inv in H as (a1 & s1 & H1 & H2).
    eapply IH; [|exact H2]. eapply Hstep; eauto.
Qed.

(** [randomInputScript] compiles data pushes and nothing else, the
    last of them [redeem] when it is given. *)
Lemma randomInputScript_pushes redeem g s g' :
  randomInputScript redeem g = (Ok s, g') ->
  exists items,
    s = Script.compile
          (map Opcode.fromData
             (items ++ match redeem with Some r => [r] | None => [] end)).
Proof.
  unfold randomInputScript. intros H.
  apply bind_Ok_inv in H as (size & g1 & _ & H).
  apply bind_Ok_inv in H as (ops & g2 & Hops & H).
  apply (repeatM_preserves
           (fun ops => exists items, ops = map Opcode.fromData items))
    in Hops.
  - destruct Hops as (items & ->). exists items.
    destruct redeem as [r|]; apply ret_inv in H as [<- _];
      rewrite map_app; simpl; now rewrite ?app_nil_r.
  - intros a s0 a' s0' (items & ->) Hs.
    apply bind_Ok_inv in Hs as (item & s1 & _ & Hs).
    apply ret_inv in Hs as [<- _]. exists (items ++ [item]).
    now rewrite map_app.
  - now exists [].
Qed.

(** [randomWitness] ends with [redeem] when it is given. *)
Lemma randomWitness_last r g witness g' :
  randomWitness (Some r) g = (Ok witness, g') ->
  exists items, witness = items ++ [r].
Proof.
  unfold randomWitness. intros H.
  apply bind_Ok_inv in H as (size & g1 & _ & H).
  apply bind_Ok_inv in H as (items & g2 & _ & H).
  apply ret_inv in H as [<- _]. now exists items.
Qed.

(** C5.  Every context [randomScripthashContext] returns is ready for a
    pay-to-script-hash spend: its input script is compiled from data
    pushes alone and is push-only, the last element it pushes is the
    serialized redeem script, its witness is empty, and the hash160 of
    that element is the 20-byte hash the output script embeds.  And with
    [util.random] drawing within its bounds, it returns a context from
    every state of the random source. *)
Theorem randomScripthashContext_ready :
  hash160_length L ->
  (forall g ctx g',
      randomScripthashContext g = (Ok ctx, g') -> scripthash_ready ctx)
  /\ (random_in_range L ->
      forall g, exists ctx g', randomScripthashContext g = (Ok ctx, g')).
Proof.
  intros Hlen. split.
  - intros g ctx g' H. unfold randomScripthashContext in H.
    apply bind_Ok_inv in H as (redeem & g1 & _ & H).
    apply bind_Ok_inv in H as (input & g2 & Hin & H).
    apply ret_inv in H as [<- _].
    apply randomInputScript_pushes in Hin as (items & ->).
    exists redeem, items. simpl. repeat apply conj; try reflexivity.
    + apply compile_fromData_isPushOnly.
    + apply last_push_compile.
    + apply getScripthash_fromScripthash. apply Hlen.
    + apply Hlen.
  - intros Hrange g.
    destruct (returns_randomScripthashContext Hrange g) as (ctx & g' & E & _).
    now exists ctx, g'.
Qed.

(** C6.  Every context [randomWitnessScripthashContext] returns is ready
    for a native witness-script-hash spend: its input script is empty,
    the last element of its witness is the serialized redeem script,
    and its output script is the version-0 witness program whose
    32-byte program is the sha256 of that element.  And with
    [util.random] drawing within its bounds, it returns a context from
    every state of the random source. *)
Theorem randomWitnessScripthashContext_ready :
  sha256_length L ->
  (forall g ctx g',
      randomWitnessScripthashContext g = (Ok ctx, g') ->
      witness_scripthash_ready ctx)
  /\ (random_in_range L ->
      forall g, exists ctx g',
        randomWitnessScripthashContext g = (Ok ctx, g')).
Proof.
  intros Hlen. split.
  - intros g ctx g' H. unfold randomWitnessScripthashContext in H.
    apply bind_Ok_inv in H as (redeem & g1 & _ & H).
    apply bind_Ok_inv in H as (witness & g2 & Hw & H).
    apply ret_inv in H as [<- _].
    apply randomWitness_last in Hw as (items & ->).
    exists redeem, items. simpl. repeat apply conj; try reflexivity.
    + apply last_last.
    + apply getProgram_fromProgram. apply Hlen.
    + apply Hlen.
  - intros Hrange g.
    destruct (returns_randomWitnessScripthashContext Hrange g)
      as (ctx & g' & E & _).
    now exists ctx, g'.
Qed.

End Contexts.

(* ================================================================== *)
(** * The executable library meets the assumptions *)
(* ================================================================== *)

Lemma Sample_random_in_range : random_in_range Sample.library.
Proof.
  intros lo hi g H. destruct g as [|x g]; simpl.
  - lia.
  - pose proof (Z.mod_pos_bound x (hi - lo) ltac:(lia)). lia.
Defined.

Lemma Sample_hash160_length : hash160_length Sample.library.
Proof.
  intros b. simpl. unfold Sample.hash160, blen. now rewrite repeat_length.
Defined.

Lemma Sample_sha256_length : sha256_length Sample.library.
Proof.
  intros b. simpl. unfold Sample.sha256, blen. now rewrite repeat_length.
Defined.

(* ================================================================== *)
(** * The two flag presets *)
(* ================================================================== *)

(** [a | b] is the plain bitwise or on flags that fit in 31 bits. *)
Lemma toInt32_small (z : Z) : - 2 ^ 31 <= z < 2 ^ 31 -> toInt32 z = z.
Proof.
  intros H. unfold toInt32. rewrite Z.mod_small; lia.
Qed.

Lemma bitOr_small (a b : Z) :
  - 2 ^ 31 <= a < 2 ^ 31 -> - 2 ^ 31 <= b < 2 ^ 31 ->
  bitOr a b = Z.lor a b.
Proof.
  intros Ha Hb. unfold bitOr. now rewrite !toInt32_small.
Qed.

(** The harness's [STANDARD] contains the harness's [MANDATORY] exactly
    when the library's standard preset contains both the library's
    mandatory preset and the witness bit (each taken as the 32-bit
    integer the bitwise operators see). *)
Lemma harness_presets_nested_iff (table : FlagsTable) :
  Z.land (MANDATORY table) (toInt32 (STANDARD table)) = MANDATORY table
  <-> Z.land (toInt32 (MANDATORY_VERIFY_FLAGS table))
        (toInt32 (STANDARD_VERIFY_FLAGS table))
      = toInt32 (MANDATORY_VERIFY_FLAGS table)
      /\ Z.land (toInt32 (VERIFY_WITNESS table))
           (toInt32 (STANDARD_VERIFY_FLAGS table))
         = toInt32 (VERIFY_WITNESS table).
Proof.
  unfold MANDATORY, STANDARD, bitOr.
  destruct table as [m0 s0 v0]. cbn [MANDATORY_VERIFY_FLAGS
    STANDARD_VERIFY_FLAGS VERIFY_WITNESS].
  generalize (toInt32 m0) (toInt32 s0) (toInt32 v0). intros m s v. split.
  - intros H. split; apply Z.bits_inj'; intros n Hn;
      apply (f_equal (fun z => Z.testbit z n)) in H;
      rewrite Z.land_spec, Z.lor_spec in H; rewrite Z.land_spec;
      destruct (Z.testbit m n), (Z.testbit v n), (Z.testbit s n);
      simpl in *; congruence.
  - intros [Hm Hv]. rewrite Z.land_lor_distr_l. now rewrite Hm, Hv.
Qed.

(** That the library's standard preset contains its mandatory preset
    does not settle it: the witness bit may or may not be among the
    standard ones. *)
Lemma harness_presets_not_forced :
  (exists table,
      Z.land (MANDATORY_VERIFY_FLAGS table) (STANDARD_VERIFY_FLAGS table)
      = MANDATORY_VERIFY_FLAGS table
      /\ Z.land (MANDATORY table) (STANDARD table) = MANDATORY table)
  /\ (exists table,
      Z.land (MANDATORY_VERIFY_FLAGS table) (STANDARD_VERIFY_FLAGS table)
      = MANDATORY_VERIFY_FLAGS table
      /\ Z.land (MANDATORY table) (STANDARD table) <> MANDATORY table).
Proof.
  split.
  - exists (mkFlags 1 2049 2048). split; reflexivity.
  - exists (mkFlags 1 1 2048). split; [reflexivity | discriminate].
Qed.

(* ================================================================== *)
(** * The theorems at concrete inputs *)
(* ================================================================== *)

Lemma fromRaw_toRaw_roundtrip_witness :
  Script.wf Sample.script = true
  /\ Script.fromRaw (Script.toRaw Sample.script) = Sample.script.
Proof.
  split; [reflexivity|].
  apply (fromRaw_toRaw_roundtrip Sample.script). reflexivity.
Defined.

Lemma assertConsensus_mismatch_only_logs_witness :
  Some "OK"%string
  <> Some (Sample.oracle (Sample.toRaw Sample.newTX) 0
             (Script.toRaw Sample.op_return) 0 0)
  /\ fst (assertConsensus (L := Sample.library) (Some Sample.oracle)
            Sample.newTX Sample.op_return 0 (Some "OK"%string)
            (Sample.world []))
     = Ok tt.
Proof.
  assert (H : Some "OK"%string
              <> Some (Sample.oracle (Sample.toRaw Sample.newTX) 0
                         (Script.toRaw Sample.op_return) 0 0))
    by discriminate.
  split; [exact H|].
  rewrite (proj1 (assertConsensus_mismatch_only_logs (L := Sample.library)
                    Sample.oracle Sample.newTX Sample.op_return 0
                    (Some "OK"%string) (Sample.world []) H)).
  reflexivity.
Defined.

Lemma ScriptError_continues_others_abort_witness :
  fst (fuzzVerify_check (L := Sample.library) None 0 Sample.newTX
         Script.empty [] Sample.op_return (Sample.world []))
  = Ok Continue
  /\ fst (fuzzVerify_check (L := Sample.broken) None 0 Sample.newTX
            Script.empty [] Sample.op_return
            (mkWorld (L := Sample.broken) [] [] []))
     = Throw Sample.crash.
Proof.
  split.
  - exact (proj1 (proj2 (proj2
             (ScriptError_continues_others_abort (L := Sample.library))))
             None 0 Sample.newTX Script.empty [] Sample.op_return
             (Sample.world []) (Sample.scriptError "OP_RETURN") eq_refl).
  - exact (proj1 (proj2 (proj2
             (ScriptError_continues_others_abort (L := Sample.broken))))
             None 0 Sample.newTX Script.empty [] Sample.op_return
             (mkWorld (L := Sample.broken) [] [] []) Sample.crash eq_refl).
Defined.

Lemma fuzzSimple_reports_only_valid_witness :
  fst (fuzzSimple_body (L := Sample.library) 0 Sample.newTX
         (Sample.world Sample.report_tape)) = Ok Break
  /\ exists input g stack output g' stack',
       randomInputScript (L := Sample.library) None Sample.report_tape
       = (Ok input, g)
       /\ Sample.execute input [] 0 Sample.newTX 0 0 0 = inr stack
       /\ randomOutputScript (L := Sample.library) g = (Ok output, g')
       /\ Sample.execute output stack 0 Sample.newTX 0 0 0 = inr stack'
       /\ Stack.length stack' <> 0
       /\ Stack.getBool stack' (-1) = true
       /\ isPushOnly (L := Sample.library) output = false
       /\ logs (snd (fuzzSimple_body (L := Sample.library) 0 Sample.newTX
                       (Sample.world Sample.report_tape)))
          = [] ++ simple_report_lines input output stack'.
Proof.
  assert (H : fst (fuzzSimple_body (L := Sample.library) 0 Sample.newTX
                     (Sample.world Sample.report_tape)) = Ok Break)
    by reflexivity.
  split; [exact H|].
  exact (proj1 (fuzzSimple_reports_only_valid (L := Sample.library) 0
                  Sample.state (Sample.world Sample.report_tape)) H).
Defined.

Lemma randomScripthashContext_ready_witness :
  hash160_length Sample.library
  /\ scripthash_ready (L := Sample.library) Sample.scripthash_context.
Proof.
  split; [exact Sample_hash160_length|].
  apply (proj1 (randomScripthashContext_ready (L := Sample.library)
                  Sample_hash160_length)
           Sample.context_tape Sample.scripthash_context
           (snd (randomScripthashContext (L := Sample.library)
                   Sample.context_tape))).
  vm_compute. reflexivity.
Defined.

Lemma randomWitnessScripthashContext_ready_witness :
  sha256_length Sample.library
  /\ witness_scripthash_ready (L := Sample.library)
       Sample.witness_scripthash_context.
Proof.
  split; [exact Sample_sha256_length|].
  apply (proj1 (randomWitnessScripthashContext_ready (L := Sample.library)
                  Sample_sha256_length)
           Sample.context_tape Sample.witness_scripthash_context
           (snd (randomWitnessScripthashContext (L := Sample.library)
                   Sample.context_tape))).
  vm_compute. reflexivity.
Defined.

Lemma harness_targets_first_input_witness :
  Forall targets_first_input
    (calls (snd (fuzzVerify (L := Sample.library) (Some Sample.oracle) 0 2
                   (Sample.world Sample.report_tape))))
  /\ (1 <= length (TX.inputs
                     (match fst (randomTX (L := Sample.library)
                                   Sample.report_tape) with
                      | Ok tx => tx
                      | Throw _ => Sample.newTX
                      end)) <= 4)%nat.
Proof.
  split.
  - destruct (proj1 (proj2 (harness_targets_first_input
                              (L := Sample.library) (Some Sample.oracle) 0 2))
                (Sample.world Sample.report_tape)) as (new & E & F).
    rewrite E. exact F.
  - apply (proj2 (proj2 (proj2 (proj2
             (harness_targets_first_input (L := Sample.library) None 0 0))))
             Sample_random_in_range eq_refl Sample.report_tape _
             (snd (randomTX (L := Sample.library) Sample.report_tape))).
    vm_compute. reflexivity.
Defined.

Lemma isPushOnly_rejects_nops_witness :
  isPushOnly (L := Sample.library) Sample.op_return
  = Script.isPushOnly Sample.op_return.
Proof.
  exact (proj1 isPushOnly_rejects_nops Sample.library eq_refl eq_refl
           eq_refl Sample.op_return).
Defined.

(* ================================================================== *)
(** * What the generators produce *)
(* ================================================================== *)

Lemma Sample_randomBytes_length : randomBytes_length Sample.library.
Proof.
  intros n g Hn. simpl. unfold Sample.nextBytes, blen.
  destruct g; simpl; rewrite repeat_length; lia.
Defined.

(** A buffer that is not empty parses to at least one operation: the
    reader takes an operation off every buffer that has a byte. *)
Lemma parse_nonempty (b : bytes) : b <> [] -> Script.parse b <> [].
Proof.
  intros Hb. destruct b as [|x tl]; [congruence|].
  unfold Script.parse. cbn [length Script.parse_fuel].
  destruct (Opcode.fromReader (x :: tl)) as [[op rest]|] eqn:E.
  - discriminate.
  - apply fromReader_None in E. discriminate E.
Qed.

Section Generators.

Context {L : Library}.

(** A loop that appends one element a round has appended as many as it
    made rounds, each as a round makes them. *)
Lemma repeatM_grows {S A B} (Q : B -> Prop) (f : B -> A)
    (step : list A -> SE S (list A)) :
  (forall l s l' s', step l s = (Ok l', s') ->
                     exists b, l' = l ++ [f b] /\ Q b) ->
  forall n acc s out s',
    repeatM n step acc s = (Ok out, s') ->
    exists new, out = acc ++ map f new /\ length new = n /\ Forall Q new.
Proof.
  intros Hstep. induction n as [|n IH]; intros acc s out s' H; simpl in H.
  - apply ret_inv in H as [<- _]. exists []. simpl.
    rewrite app_nil_r. auto.
  - apply bind_Ok_inv in H as (l1 & s1 & H1 & H2).
    apply Hstep in H1 as (b & -> & Hb).
    apply IH in H2 as (new & -> & Hlen & Hall).
    exists (b :: new). simpl. rewrite <- app_assoc. simpl.
    repeat split; auto.
Qed.

Lemma randomBytes_inv n g b g' :
  randomBytes n g = (Ok b, g') -> b = fst (random_randomBytes n g).
Proof. rewrite randomBytes_eq. intros H. now inversion H. Qed.

Lemma random_bounds lo hi g z g' :
  random_in_range L -> lo < hi ->
  random lo hi g = (Ok z, g') -> lo <= z < hi.
Proof.
  intros Hr Hlt H. apply random_inv in H. subst z. now apply Hr.
Qed.

Lemma randomBytes_blen n g b g' :
  randomBytes_length L -> 0 <= n ->
  randomBytes n g = (Ok b, g') -> blen b = n.
Proof.
  intros Hl Hn H. apply randomBytes_inv in H. subst b. now apply Hl.
Qed.

Lemma randomItem_short g b g' :
  random_in_range L -> randomBytes_length L ->
  randomItem g = (Ok b, g') -> 0 <= blen b < 100.
Proof.
  intros Hr Hl H. unfold randomItem in H.
  apply bind_Ok_inv in H as (len & g1 & Hlen & H).
  apply random_bounds in Hlen; [|exact Hr|lia].
  pose proof (randomBytes_blen _ _ _ _ Hl (proj1 Hlen) H). lia.
Qed.

Lemma randomKeyLength_inv g len g' :
  randomKeyLength g = (Ok len, g') -> len = 33 \/ len = 65.
Proof.
  unfold randomKeyLength. intros H.
  apply bind_Ok_inv in H as (r & g1 & _ & H).
  apply ret_inv in H as [<- _]. destruct (r =? 0); auto.
Qed.

(** X1.  With [util.random] drawing within its bounds, a transaction of
    [randomTX] has at most four outputs more than a new transaction
    has, a version in [0, 0xffffffff) and either the lock time of a new
    transaction or one in [0, 0xffffffff). *)
Theorem randomTX_shape (g : Rng) (tx : TX.t) (g' : Rng) :
  random_in_range L ->
  randomTX g = (Ok tx, g') ->
  (length (TX.outputs TX_new) <= length (TX.outputs tx)
   <= length (TX.outputs TX_new) + 4)%nat
  /\ 0 <= TX.version tx < 0xffffffff
  /\ (TX.locktime tx = TX.locktime TX_new
      \/ 0 <= TX.locktime tx < 0xffffffff).
Proof.
  intros Hr H. unfold randomTX in H.
  apply bind_Ok_inv in H as (n & g1 & _ & H).
  apply bind_Ok_inv in H as (m & g2 & Hm & H).
  apply random_bounds in Hm; [|exact Hr|lia].
  apply bind_Ok_inv in H as (v & g3 & Hv & H).
  apply random_bounds in Hv; [|exact Hr|lia].
  apply bind_Ok_inv in H as (tx1 & g4 & H1 & H).
  apply bind_Ok_inv in H as (tx2 & g5 & H2 & H).
  apply bind_Ok_inv in H as (r & g6 & _ & H).
  apply bind_Ok_inv in H as (tx3 & g7 & H3 & H).
  apply ret_inv in H as [<- _]. unfold TX.refresh.
  set (same := fun a b : TX.t =>
                 TX.version b = TX.version a
                 /\ TX.locktime b = TX.locktime a).
  assert (S1 : same (TX.set_version TX_new v) tx1
               /\ TX.outputs tx1 = TX.outputs TX_new).
  { apply (repeatM_preserves
             (fun t => same (TX.set_version TX_new v) t
                       /\ TX.outputs t = TX.outputs TX_new)) in H1; auto.
    - intros a s a' s' [[Ha Hb] Hc] Hs.
      apply bind_Ok_inv in Hs as (i & s1 & _ & Hs).
      apply ret_inv in Hs as [<- _]. unfold same. simpl. auto.
    - unfold same. simpl. auto. }
  destruct S1 as [[V1 L1] O1].
  assert (S2 : same tx1 tx2) .
  { apply (repeatM_preserves (fun t => same tx1 t)) in H2; auto.
    - intros a s a' s' [Ha Hb] Hs.
      apply bind_Ok_inv in Hs as (o & s1 & _ & Hs).
      apply ret_inv in Hs as [<- _]. unfold same. simpl. auto.
    - unfold same. auto. }
  destruct S2 as [V2 L2].
  apply (repeatM_count (fun t => length (TX.outputs t)) 1) in H2.
  2:{ intros a s a' s' Hs.
      apply bind_Ok_inv in Hs as (o & s1 & _ & Hs).
      apply ret_inv in Hs as [<- _]. simpl. rewrite length_app. simpl. lia. }
  simpl in V1, L1.
  destruct (r =? 0).
  - apply bind_Ok_inv in H3 as (k & s1 & Hk & H3).
    apply random_bounds in Hk; [|exact Hr|lia].
    apply ret_inv in H3 as [<- _]. simpl.
    rewrite H2, O1, V2, V1. repeat split; lia.
  - apply ret_inv in H3 as [<- _].
    rewrite H2, O1, V2, V1, L2, L1. repeat split; lia.
Qed.

(** The number of elements of a witness of [randomWitness]. *)
Lemma randomWitness_length redeem g (witness : Witness) g' :
  random_in_range L ->
  randomWitness redeem g = (Ok witness, g') ->
  let k := match redeem with Some _ => 1%nat | None => 0%nat end in
  (1 + k <= length witness <= 99 + k)%nat.
Proof.
  intros Hr H k. unfold randomWitness in H.
  apply bind_Ok_inv in H as (size & g1 & Hsize & H).
  apply random_bounds in Hsize; [|exact Hr|lia].
  apply bind_Ok_inv in H as (items & g2 & Hitems & H).
  apply (repeatM_count (fun l : Witness => length l) 1) in Hitems.
  - simpl in Hitems. unfold k.
    destruct redeem; apply ret_inv in H as [<- _];
      rewrite ?length_app; simpl; lia.
  - intros a s a' s' Hs.
    apply bind_Ok_inv in Hs as (item & s1 & _ & Hs).
    apply ret_inv in Hs as [<- _]. rewrite length_app. simpl. lia.
Qed.

(** X2.  With [util.random] within its bounds and [randomBytes(n)]
    returning [n] bytes, [randomWitness] returns 1 to 99 random items of
    fewer than 100 bytes each, followed by [redeem] when it is given and
    by nothing else. *)
Theorem randomWitness_shape
    (redeem : option bytes) (g : Rng) (witness : Witness) (g' : Rng) :
  random_in_range L -> randomBytes_length L ->
  randomWitness redeem g = (Ok witness, g') ->
  exists items,
    witness = items ++ match redeem with Some r => [r] | None => [] end
    /\ (1 <= length items <= 99)%nat
    /\ Forall (fun item => 0 <= blen item < 100) items.
Proof.
  intros Hr Hl H. unfold randomWitness in H.
  apply bind_Ok_inv in H as (size & g1 & Hsize & H).
  apply random_bounds in Hsize; [|exact Hr|lia].
  apply bind_Ok_inv in H as (items & g2 & Hitems & H).
  apply (repeatM_grows (fun item => 0 <= blen item < 100) (fun x => x))
    in Hitems.
  - destruct Hitems as (new & -> & Hlen & Hall). simpl in *.
    rewrite map_id in *. exists new.
    repeat split; try lia; auto.
    destruct redeem; apply ret_inv in H as [<- _];
      now rewrite ?app_nil_r.
  - intros l s l' s' Hs.
    apply bind_Ok_inv in Hs as (item & s1 & Hi & Hs).
    apply ret_inv in Hs as [<- _]. exists item. split; auto.
    now apply randomItem_short in Hi.
Qed.


(** X3.  With the same two assumptions, a script of [randomInputScript]
    is compiled from 1 to 99 data pushes of fewer than 100 bytes, and a
    push of [redeem] when it is given; it is push-only, and when
    [redeem] is shorter than 4 GiB it is well-formed and parsing its raw
    bytes gives it back. *)
Theorem randomInputScript_shape
    (redeem : option bytes) (g : Rng) (s : Script.t) (g' : Rng) :
  random_in_range L -> randomBytes_length L ->
  randomInputScript redeem g = (Ok s, g') ->
  (exists items,
      s = Script.compile
            (map Opcode.fromData
               (items ++ match redeem with Some r => [r] | None => [] end))
      /\ (1 <= length items <= 99)%nat
      /\ Forall (fun item => 0 <= blen item < 100) items)
  /\ Script.isPushOnly s = true
  /\ (match redeem with Some r => blen r < 0x100000000 | None => True end ->
      Script.wf s = true /\ Script.fromRaw (Script.toRaw s) = s).
Proof.
  intros Hr Hl H. unfold randomInputScript in H.
  apply bind_Ok_inv in H as (size & g1 & Hsize & H).
  apply random_bounds in Hsize; [|exact Hr|lia].
  apply bind_Ok_inv in H as (ops & g2 & Hops & H).
  apply (repeatM_grows (fun item => 0 <= blen item < 100) Opcode.fromData)
    in Hops.
  2:{ intros l s0 l' s0' Hs.
      apply bind_Ok_inv in Hs as (item & s1 & Hi & Hs).
      apply ret_inv in Hs as [<- _]. exists item. split; auto.
      now apply randomItem_short in Hi. }
  destruct Hops as (items & -> & Hlen & Hall). simpl in H.
  assert (Hs : s = Script.compile
                     (map Opcode.fromData
                        (items ++ match redeem with
                                  | Some r => [r]
                                  | None => []
                                  end))).
  { destruct redeem; apply ret_inv in H as [<- _];
      rewrite map_app; simpl; now rewrite ?app_nil_r. }
  split; [|split].
  - exists items. repeat split; try lia; auto.
  - rewrite Hs. apply compile_fromData_isPushOnly.
  - intros Hredeem.
    assert (Hwf : Script.wf s = true).
    { rewrite Hs. apply compile_fromData_wf. apply Forall_app. split.
      - eapply Forall_impl; [|exact Hall]. simpl. intros. lia.
      - destruct redeem; auto. }
    split; [exact Hwf|].
    unfold Script.wf in Hwf. apply andb_true_iff in Hwf as [Hops Hraw].
    apply bytes_eqb_eq in Hraw.
    destruct s as [code raw]. simpl in *. subst raw.
    unfold Script.fromRaw, Script.toRaw. simpl.
    now rewrite parse_serialize.
Qed.

(** X4.  With the same two assumptions, the script of
    [randomOutputScript] holds 1 to 9999 raw bytes, so it is within the
    10,000-byte script limit and is never the empty script, and it has
    at least one operation. *)
Theorem randomOutputScript_shape (g : Rng) (s : Script.t) (g' : Rng) :
  random_in_range L -> randomBytes_length L ->
  randomOutputScript g = (Ok s, g') ->
  1 <= blen (Script.toRaw s) <= 9999
  /\ Script.code s <> [].
Proof.
  intros Hr Hl H. unfold randomOutputScript in H.
  apply bind_Ok_inv in H as (size & g1 & Hsize & H).
  apply random_bounds in Hsize; [|exact Hr|lia].
  apply bind_Ok_inv in H as (b & g2 & Hb & H).
  assert (Hpos : 0 <= size) by lia.
  apply (randomBytes_blen _ _ _ _ Hl Hpos) in Hb.
  apply ret_inv in H as [<- _].
  unfold Script.fromRaw, Script.toRaw. simpl.
  split; [lia|]. apply parse_nonempty.
  intros ->. unfold blen in Hb. simpl in Hb. lia.
Qed.

End Generators.

(* ================================================================== *)
(** * Keys, templates and the switch statements *)
(* ================================================================== *)

Lemma toHex_length (b : bytes) :
  String.length (toHex b) = (2 * length b)%nat.
Proof.
  induction b as [|x b IH]; simpl; [reflexivity|]. rewrite IH. lia.
Qed.

Lemma hex_digit_cases (n : Z) :
  0 <= n < 16 ->
  is_hex (hex_digit n) = true /\ hex_value (hex_digit n) = Some n.
Proof.
  intros H. replace n with (Z.of_nat (Z.to_nat n)) by lia.
  assert (Hk : (Z.to_nat n < 16)%nat) by lia.
  generalize dependent (Z.to_nat n). clear. intros k Hk.
  do 16 (destruct k as [|k]; [split; reflexivity|]). lia.
Qed.

Lemma toHex_all_hex (b : bytes) : all_hex (toHex b) = true.
Proof.
  induction b as [|x b IH]; [reflexivity|].
  pose proof (readU8_range x) as Hx.
  assert (H1 : 0 <= readU8 x / 16 < 16).
  { split; [apply Z.div_pos; lia | apply Z.div_lt_upper_bound; lia]. }
  assert (H2 : 0 <= readU8 x mod 16 < 16) by (apply Z.mod_pos_bound; lia).
  cbn [toHex all_hex].
  rewrite (proj1 (hex_digit_cases _ H1)), (proj1 (hex_digit_cases _ H2)).
  exact IH.
Qed.

Lemma fromHex_toHex (b : bytes) : fromHex (toHex b) = Some b.
Proof.
  induction b as [|x b IH]; [reflexivity|].
  pose proof (readU8_range x) as Hx.
  assert (H1 : 0 <= readU8 x / 16 < 16).
  { split; [apply Z.div_pos; lia | apply Z.div_lt_upper_bound; lia]. }
  assert (H2 : 0 <= readU8 x mod 16 < 16) by (apply Z.mod_pos_bound; lia).
  cbn [toHex fromHex].
  rewrite (proj2 (hex_digit_cases _ H1)), (proj2 (hex_digit_cases _ H2)), IH.
  rewrite <- (Z.div_mod (readU8 x) 16) by lia.
  now rewrite writeU8_readU8.
Qed.

Lemma lastBit_cases (y : bytes) :
  (lastBit y = 0 /\ Z.even (readU8 (last y x00)) = true)
  \/ (lastBit y = 1 /\ Z.odd (readU8 (last y x00)) = true).
Proof.
  unfold lastBit. set (v := readU8 (last y x00)).
  assert (E : Z.land v 1 = v mod 2).
  { change 1 with (Z.ones 1). rewrite Z.land_ones by lia. reflexivity. }
  rewrite E, Zmod_even, <- Z.negb_even.
  destruct (Z.even v); auto.
Qed.

(** The witness program a version opcode and one push of 2 to 40 bytes
    make is read back as that version and that program. *)
Lemma getProgram_fromProgram_any (v : Z) (d : bytes) :
  0 <= v <= 16 -> 2 <= blen d <= 40 ->
  Script.getProgram (Script.fromProgram v d) = Some (v, d).
Proof.
  intros Hv Hd.
  unfold Script.fromProgram, Script.compile, Script.getProgram,
    Script.serialize. simpl.
  unfold Opcode.fromSmall, Opcode.fromData, Opcode.toRaw, Opcode.fromOp,
    opcodes.OP_0, opcodes.OP_1, opcodes.OP_16. simpl.
  destruct (Z.eqb_spec (blen d) 0); [lia|].
  destruct (Z.leb_spec (blen d) 75); [|lia]. simpl.
  destruct (Z.eqb_spec (blen d) (-1)); [lia|].
  destruct (Z.leb_spec (blen d) 75); [|lia]. simpl.
  rewrite app_nil_r.
  destruct (Z.eqb_spec v 0) as [->|Hv0].
  - simpl. rewrite (readU8_small (blen d)) by lia. ztest. reflexivity.
  - destruct (Z.eqb_spec (v + 80) (-1)); [lia|]. simpl.
    rewrite (readU8_small (blen d)), (readU8_small (v + 80)) by lia.
    ztest. f_equal. f_equal. lia.
Qed.

Section Templates.

Context {L : Library}.

Lemma generator_returns {A} (m : Gen A) :
  returns any m -> forall g, exists a g', m g = (Ok a, g').
Proof. intros Hm g. destruct (Hm g) as (a & g' & E & _). eauto. Qed.

(** With every draw within its bounds [randomContext] returns. *)
Lemma randomContext_returns :
  random_in_range L -> forall g, exists ctx g', randomContext g = (Ok ctx, g').
Proof.
  intros Hrange g. unfold randomContext.
  rewrite (bind_Ok _ _ _ (random_eq 0 6 g)).
  set (r := fst (util_random 0 6 g)).
  pose proof (Hrange 0 6 g ltac:(lia)) as Hr. fold r in Hr.
  assert (Hin := fun redeem =>
                   generator_returns _ (returns_randomInputScript redeem)).
  assert (Hw := fun redeem =>
                  generator_returns _ (returns_randomWitness redeem)).
  assert (Hred := generator_returns _ (returns_randomRedeem Hrange)).
  assert (Hc : r = 0 \/ r = 1 \/ r = 2 \/ r = 3 \/ r = 4 \/ r = 5) by lia.
  destruct Hc as [->|[->|[->|[->|[->| ->]]]]]; simpl.
  - unfold randomPubkeyContext.
    destruct (Hin None (snd (util_random 0 6 g))) as (i & g1 & E1).
    rewrite (bind_Ok _ _ _ E1).
    destruct (generator_returns _ returns_randomPubkey g1) as (o & g2 & E2).
    rewrite (bind_Ok _ _ _ E2). unfold ret. eauto.
  - unfold randomPubkeyhashContext.
    destruct (Hin None (snd (util_random 0 6 g))) as (i & g1 & E1).
    rewrite (bind_Ok _ _ _ E1).
    destruct (generator_returns _ returns_randomPubkeyhash g1)
      as (o & g2 & E2).
    rewrite (bind_Ok _ _ _ E2). unfold ret. eauto.
  - apply (generator_returns _ (returns_randomScripthashContext Hrange)).
  - unfold randomWitnessPubkeyhashContext.
    destruct (Hw None (snd (util_random 0 6 g))) as (i & g1 & E1).
    rewrite (bind_Ok _ _ _ E1).
    destruct (generator_returns _ returns_randomWitnessPubkeyhash g1)
      as (o & g2 & E2).
    rewrite (bind_Ok _ _ _ E2). unfold ret. eauto.
  - apply (generator_returns _
             (returns_randomWitnessScripthashContext Hrange)).
  - unfold randomWitnessNestedContext.
    destruct (Hred (snd (util_random 0 6 g))) as (rd & g1 & E1).
    rewrite (bind_Ok _ _ _ E1).
    destruct (Hw (Some (Script.toRaw rd)) g1) as (wt & g2 & E2).
    rewrite (bind_Ok _ _ _ E2). unfold ret. eauto.
Qed.

(** X5.  [randomRedeem], [randomScript] and [randomContext] reach the
    [throw new Error()] after their [switch] exactly when
    [util.random] answers outside of [0, 5), [0, 7) and [0, 6): they
    then throw an error that is not a script error, before anything
    else is drawn; with the answer inside, [randomRedeem] and
    [randomScript] return a script, and so does [randomContext] a
    context when every draw is within its bounds. *)
Theorem switch_throws_exactly_outside_range :
  (forall g,
      let r := fst (util_random 0 5 g) in
      (0 <= r < 5 -> exists s g', randomRedeem g = (Ok s, g'))
      /\ (~ 0 <= r < 5 ->
          randomRedeem g = (Throw plainError, snd (util_random 0 5 g))))
  /\ (forall g,
      let r := fst (util_random 0 7 g) in
      (0 <= r < 7 -> exists s g', randomScript g = (Ok s, g'))
      /\ (~ 0 <= r < 7 ->
          randomScript g = (Throw plainError, snd (util_random 0 7 g))))
  /\ (forall g,
      let r := fst (util_random 0 6 g) in
      (random_in_range L -> exists ctx g', randomContext g = (Ok ctx, g'))
      /\ (~ 0 <= r < 6 ->
          randomContext g = (Throw plainError, snd (util_random 0 6 g))))
  /\ isScriptError plainError = false.
Proof.
  assert (Hpk := returns_randomPubkey).
  assert (Hpkh := returns_randomPubkeyhash).
  assert (Hms := returns_randomMultisig).
  assert (Hsh := returns_randomScripthash).
  assert (Hwpkh := returns_randomWitnessPubkeyhash).
  assert (Hwsh := returns_randomWitnessScripthash).
  assert (Hprog := returns_randomProgram).
  assert (Hdrop : forall (A : Type) (m : Gen A),
             returns any m -> forall g, exists a g', m g = (Ok a, g')).
  { intros A m Hm g. destruct (Hm g) as (a & g' & E & _). eauto. }
  repeat apply conj.
  - intros g r. unfold randomRedeem.
    rewrite (bind_Ok _ _ _ (random_eq 0 5 g)). fold r. split.
    + intros Hr.
      assert (Hc : r = 0 \/ r = 1 \/ r = 2 \/ r = 3 \/ r = 4) by lia.
      destruct Hc as [->|[->|[->|[->| ->]]]]; simpl; auto.
    + intros Hr.
      repeat match goal with
             | |- context [r =? ?k] => destruct (Z.eqb_spec r k); [lia|]
             end.
      reflexivity.
  - intros g r. unfold randomScript.
    rewrite (bind_Ok _ _ _ (random_eq 0 7 g)). fold r. split.
    + intros Hr.
      assert (Hc : r = 0 \/ r = 1 \/ r = 2 \/ r = 3 \/ r = 4 \/ r = 5
                   \/ r = 6) by lia.
      destruct Hc as [->|[->|[->|[->|[->|[->| ->]]]]]]; simpl; auto.
    + intros Hr.
      repeat match goal with
             | |- context [r =? ?k] => destruct (Z.eqb_spec r k); [lia|]
             end.
      reflexivity.
  - intros g r. split.
    + intros Hrange. apply (randomContext_returns Hrange).
    + intros Hr. unfold randomContext.
      rewrite (bind_Ok _ _ _ (random_eq 0 6 g)). fold r.
      repeat match goal with
             | |- context [r =? ?k] => destruct (Z.eqb_spec r k); [lia|]
             end.
      reflexivity.
  - reflexivity.
Qed.

End Templates.

Section MoreGenerators.

Context {L : Library}.

(** X6.  [randomKey] returns either the first private key behind a byte
    2 or 3, the byte being 3 exactly when the last byte of the second
    key is odd, or the byte 4 followed by both keys; with 32-byte
    private keys this is 33 or 65 bytes. *)
Theorem randomKey_encoding
    (generate : Rng -> bytes * Rng) (g : Rng) (key : bytes) (g' : Rng) :
  randomKey generate g = (Ok key, g') ->
  let x := fst (generate g) in
  let y := fst (generate (snd (generate g))) in
  ((key = x02 :: x /\ Z.even (readU8 (last y x00)) = true)
   \/ (key = x03 :: x /\ Z.odd (readU8 (last y x00)) = true)
   \/ key = x04 :: x ++ y)
  /\ ((forall s, blen (fst (generate s)) = 32) ->
      blen key = 33 \/ blen key = 65).
Proof.
  intros H x y. unfold randomKey, generatePrivateKey in H.
  unfold bind at 1 in H.
  destruct (generate g) as [x0 g1] eqn:Ex. simpl in x, y.
  unfold bind at 1 in H.
  destruct (generate g1) as [y0 g2] eqn:Ey. simpl in y.
  apply bind_Ok_inv in H as (r & g3 & _ & H).
  assert (Hkey : (key = x02 :: x /\ Z.even (readU8 (last y x00)) = true)
                 \/ (key = x03 :: x /\ Z.odd (readU8 (last y x00)) = true)
                 \/ key = x04 :: x ++ y).
  { destruct (r =? 0); apply ret_inv in H as [<- _].
    - destruct (lastBit_cases y0) as [[E Hb]|[E Hb]]; rewrite E; auto.
    - auto. }
  split; [exact Hkey|].
  intros Hlen.
  assert (Hx : blen x = 32) by (specialize (Hlen g); now rewrite Ex in Hlen).
  assert (Hy : blen y = 32) by (specialize (Hlen g1); now rewrite Ey in Hlen).
  unfold blen in *.
  destruct Hkey as [[-> _]|[[-> _]| ->]]; simpl; rewrite ?length_app; lia.
Qed.

Lemma randomMultisig_eq (g : Rng) :
  randomMultisig g
  = match randomMultisigArgs g with
    | (Ok (m, n, keys), g') => (Ok (Script_fromMultisig m n keys), g')
    | (Throw e, g') => (Throw e, g')
    end.
Proof.
  unfold randomMultisig, randomMultisigArgs, bind.
  destruct (random 1 16 g) as [[n|e] g1]; [|reflexivity].
  destruct (random 1 n g1) as [[m|e] g2]; [|reflexivity].
  destruct (repeatM _ _ _ g2) as [[keys|e] g3]; reflexivity.
Qed.

(** X7.  With [util.random] within its bounds and [randomBytes(n)]
    returning [n] bytes, [randomMultisig] calls [Script.fromMultisig]
    with [n] between 1 and 15, exactly [n] keys of 33 or 65 bytes each,
    and, when [n] is at least 2, [m] between 1 and [n - 1]: it asks for
    no n-of-n script with more than one key. *)
Theorem randomMultisig_arguments (g : Rng) :
  random_in_range L -> randomBytes_length L ->
  exists m n keys g',
    randomMultisigArgs g = (Ok (m, n, keys), g')
    /\ randomMultisig g = (Ok (Script_fromMultisig m n keys), g')
    /\ 1 <= n <= 15
    /\ Z.of_nat (length keys) = n
    /\ Forall (fun key => blen key = 33 \/ blen key = 65) keys
    /\ (2 <= n -> 1 <= m < n).
Proof.
  intros Hr Hl.
  assert (Hret : exists a g', randomMultisigArgs g = (Ok a, g')).
  { unfold randomMultisigArgs.
    rewrite (bind_Ok _ _ _ (random_eq _ _ _)).
    rewrite (bind_Ok _ _ _ (random_eq _ _ _)).
    edestruct (@repeatM_returns Rng (list bytes)) as (keys & g1 & E);
      [|rewrite (bind_Ok _ _ _ E); unfold ret; eauto].
    intros a s. destruct (returns_randomKeyLength s) as (len & s1 & El & _).
    rewrite (bind_Ok _ _ _ El).
    rewrite (bind_Ok _ _ _ (randomBytes_eq _ _)). unfold ret. eauto. }
  destruct Hret as ([[m n] keys] & g' & E).
  exists m, n, keys, g'. split; [exact E|].
  split; [rewrite randomMultisig_eq, E; reflexivity|].
  unfold randomMultisigArgs in E.
  apply bind_Ok_inv in E as (n0 & g1 & Hn & E).
  apply bind_Ok_inv in E as (m0 & g2 & Hm & E).
  apply bind_Ok_inv in E as (keys0 & g3 & Hk & E).
  apply ret_inv in E as [E _]. inversion E; subst m0 n0 keys0. clear E.
  apply random_bounds in Hn; [|exact Hr|lia].
  apply (repeatM_grows (fun key => blen key = 33 \/ blen key = 65)
           (fun x => x)) in Hk.
  - destruct Hk as (new & -> & Hlen & Hall). simpl. rewrite map_id.
    repeat split; try lia; auto;
      (apply random_bounds in Hm; [lia|exact Hr|lia]).
  - intros l s l' s' Hs.
    apply bind_Ok_inv in Hs as (len & s1 & Hlen & Hs).
    apply bind_Ok_inv in Hs as (b & s2 & Hb & Hs).
    apply ret_inv in Hs as [<- _]. exists b. split; [reflexivity|].
    apply randomKeyLength_inv in Hlen.
    assert (0 <= len) by lia.
    apply (randomBytes_blen _ _ _ _ Hl) in Hb; lia.
Qed.

Lemma randomWitnessPubkeyhash_program g s g' :
  randomBytes_length L ->
  randomWitnessPubkeyhash g = (Ok s, g') ->
  exists data, blen data = 20 /\ Script.getProgram s = Some (0, data).
Proof.
  intros Hl H. unfold randomWitnessPubkeyhash in H.
  apply bind_Ok_inv in H as (b & g1 & Hb & H).
  apply randomBytes_blen in Hb; [|exact Hl|lia].
  apply ret_inv in H as [<- _]. exists b. split; [exact Hb|].
  apply getProgram_fromProgram_any; lia.
Qed.

(** X8.  With the same two assumptions, the script of [randomProgram]
    is the witness program of a version from 0 to 15, never 16, and of
    2 to 40 random bytes, and it reads back as that version and those
    bytes; [randomWitnessPubkeyhash] and [randomWitnessScripthash] give
    the version-0 programs of 20 and of 32 random bytes, and
    [randomScripthash] the pay-to-script-hash script of 20 random
    bytes. *)
Theorem random_templates_recognized :
  random_in_range L -> randomBytes_length L ->
  (forall g s g',
      randomProgram g = (Ok s, g') ->
      exists version data,
        s = Script.fromProgram version data
        /\ 0 <= version <= 15 /\ 2 <= blen data <= 40
        /\ Script.getProgram s = Some (version, data))
  /\ (forall g s g',
      randomWitnessPubkeyhash g = (Ok s, g') ->
      exists data,
        blen data = 20 /\ Script.getProgram s = Some (0, data))
  /\ (forall g s g',
      randomWitnessScripthash g = (Ok s, g') ->
      exists data,
        blen data = 32 /\ Script.getProgram s = Some (0, data))
  /\ (forall g s g',
      randomScripthash g = (Ok s, g') ->
      exists hash,
        blen hash = 20 /\ Script.getScripthash s = Some hash).
Proof.
  intros Hr Hl. repeat apply conj.
  - intros g s g' H. unfold randomProgram in H.
    apply bind_Ok_inv in H as (v & g1 & Hv & H).
    apply random_bounds in Hv; [|exact Hr|lia].
    apply bind_Ok_inv in H as (size & g2 & Hsize & H).
    apply random_bounds in Hsize; [|exact Hr|lia].
    apply bind_Ok_inv in H as (b & g3 & Hb & H).
    assert (Hpos : 0 <= size) by lia.
    apply (randomBytes_blen _ _ _ _ Hl Hpos) in Hb.
    apply ret_inv in H as [<- _]. exists v, b.
    repeat split; try lia.
    apply getProgram_fromProgram_any; lia.
  - intros g s g' H. now apply randomWitnessPubkeyhash_program in H.
  - intros g s g' H. unfold randomWitnessScripthash in H.
    apply bind_Ok_inv in H as (b & g1 & Hb & H).
    apply randomBytes_blen in Hb; [|exact Hl|lia].
    apply ret_inv in H as [<- _]. exists b. split; [exact Hb|].
    apply getProgram_fromProgram_any; lia.
  - intros g s g' H. unfold randomScripthash in H.
    apply bind_Ok_inv in H as (b & g1 & Hb & H).
    apply randomBytes_blen in Hb; [|exact Hl|lia].
    apply ret_inv in H as [<- _]. exists b. split; [exact Hb|].
    now apply getScripthash_fromScripthash.
Qed.

(** X9.  Every context [randomWitnessNestedContext] returns is a nested
    witness-script-hash spend: its output script embeds the hash160 of
    the serialized version-0 program of the redeem script's sha256, its
    input script is made of that one serialized program, and the last
    element of its witness is the serialized redeem script. *)
Theorem randomWitnessNestedContext_ready
    (g : Rng) (ctx : Context.t) (g' : Rng) :
  hash160_length L -> sha256_length L ->
  randomWitnessNestedContext g = (Ok ctx, g') ->
  exists redeem items,
    let program :=
      Script.fromProgram 0 (crypto_sha256 (Script.toRaw redeem)) in
    Context.redeem ctx = Some redeem
    /\ Script.getProgram program
       = Some (0, crypto_sha256 (Script.toRaw redeem))
    /\ Context.input ctx = Script_fromItems [Script.toRaw program]
    /\ Context.witness ctx = items ++ [Script.toRaw redeem]
    /\ Script.getScripthash (Context.output ctx)
       = Some (crypto_hash160 (Script.toRaw program)).
Proof.
  intros H160 H256 H. unfold randomWitnessNestedContext in H.
  apply bind_Ok_inv in H as (redeem & g1 & _ & H).
  apply bind_Ok_inv in H as (witness & g2 & Hw & H).
  apply ret_inv in H as [<- _].
  apply randomWitness_last in Hw as (items & ->).
  exists redeem, items. simpl. repeat apply conj; try reflexivity.
  - apply getProgram_fromProgram_any; [lia|]. rewrite H256. lia.
  - apply getScripthash_fromScripthash. apply H160.
Qed.

(** X10.  The pubkey, pubkeyhash and witness-pubkeyhash contexts carry
    no redeem script.  The first two have an empty witness and a
    push-only input script; the third has an empty input script, a
    witness of 1 to 99 items and the version-0 program of 20 bytes as
    its output script. *)
Theorem plain_contexts_shape :
  random_in_range L -> randomBytes_length L ->
  (forall g ctx g',
      randomPubkeyContext g = (Ok ctx, g')
      \/ randomPubkeyhashContext g = (Ok ctx, g') ->
      Context.redeem ctx = None
      /\ Context.witness ctx = []
      /\ Script.isPushOnly (Context.input ctx) = true)
  /\ (forall g ctx g',
      randomWitnessPubkeyhashContext g = (Ok ctx, g') ->
      Context.redeem ctx = None
      /\ Context.input ctx = Script.empty
      /\ (1 <= length (Context.witness ctx) <= 99)%nat
      /\ exists data,
           blen data = 20
           /\ Script.getProgram (Context.output ctx) = Some (0, data)).
Proof.
  intros Hr Hl. split.
  - intros g ctx g' [H|H];
      [unfold randomPubkeyContext in H | unfold randomPubkeyhashContext in H];
      apply bind_Ok_inv in H as (input & g1 & Hin & H);
      apply bind_Ok_inv in H as (output & g2 & _ & H);
      apply ret_inv in H as [<- _]; simpl;
      apply randomInputScript_pushes in Hin as (items & ->);
      repeat split; apply compile_fromData_isPushOnly.
  - intros g ctx g' H. unfold randomWitnessPubkeyhashContext in H.
    apply bind_Ok_inv in H as (witness & g1 & Hw & H).
    apply bind_Ok_inv in H as (output & g2 & Ho & H).
    apply ret_inv in H as [<- _]. simpl.
    apply (randomWitness_length None _ _ _ Hr) in Hw. simpl in Hw.
    destruct (randomWitnessPubkeyhash_program _ _ _ Hl Ho) as (d & Hd & Hp).
    repeat split; try lia. now exists d.
Qed.

(** X11.  With the same two assumptions, the outpoint of
    [randomOutpoint] has a hash of 64 hexadecimal characters, the
    encoding of 32 bytes that reading the hash back returns, and an
    index in [0, 0xffffffff). *)
Theorem randomOutpoint_shape (g : Rng) (o : Outpoint.t) (g' : Rng) :
  random_in_range L -> randomBytes_length L ->
  randomOutpoint g = (Ok o, g') ->
  String.length (Outpoint.hash o) = 64%nat
  /\ all_hex (Outpoint.hash o) = true
  /\ (exists b, blen b = 32 /\ fromHex (Outpoint.hash o) = Some b)
  /\ 0 <= Outpoint.index o < 0xffffffff.
Proof.
  intros Hr Hl H. unfold randomOutpoint in H.
  apply bind_Ok_inv in H as (b & g1 & Hb & H).
  apply randomBytes_blen in Hb; [|exact Hl|lia].
  apply bind_Ok_inv in H as (n & g2 & Hn & H).
  apply random_bounds in Hn; [|exact Hr|lia].
  apply ret_inv in H as [<- _]. simpl. rewrite toHex_length.
  split; [unfold blen in Hb; lia|].
  split; [apply toHex_all_hex|].
  split; [exists b; split; [exact Hb | apply fromHex_toHex] | lia].
Qed.

End MoreGenerators.

Section InputsOutputs.

Context {L : Library}.

(** X22.  With [util.random] within its bounds, [randomInput] returns
    what [Input.fromOutpoint] makes of a random outpoint, with nothing
    changed but, in some draws, the sequence, which is then in
    [0, 0xffffffff); and [randomOutput] pairs a script of [randomScript]
    with a value in [0, 100000000). *)
Theorem randomInput_randomOutput_shape :
  random_in_range L ->
  (forall g input g',
      randomInput g = (Ok input, g') ->
      exists o g1,
        randomOutpoint g = (Ok o, g1)
        /\ (input = Input_fromOutpoint o
            \/ exists n,
                 0 <= n < 0xffffffff
                 /\ input = Input.set_sequence (Input_fromOutpoint o) n))
  /\ (forall g output g',
      randomOutput g = (Ok output, g') ->
      (exists g1, randomScript g = (Ok (Output.script output), g1))
      /\ 0 <= Output.value output < 100000000).
Proof.
  intros Hr. split.
  - intros g input g' H. unfold randomInput in H.
    apply bind_Ok_inv in H as (o & g1 & Ho & H).
    apply bind_Ok_inv in H as (r & g2 & _ & H).
    exists o, g1. split; [exact Ho|].
    destruct (r =? 0).
    + apply bind_Ok_inv in H as (n & g3 & Hn & H).
      apply random_bounds in Hn; [|exact Hr|lia].
      apply ret_inv in H as [<- _]. right. now exists n.
    + apply ret_inv in H as [<- _]. now left.
  - intros g output g' H. unfold randomOutput in H.
    apply bind_Ok_inv in H as (s & g1 & Hs & H).
    apply bind_Ok_inv in H as (v & g2 & Hv & H).
    apply random_bounds in Hv; [|exact Hr|lia].
    apply ret_inv in H as [<- _]. simpl. split; [now exists g1 | exact Hv].
Qed.

End InputsOutputs.

(* ================================================================== *)
(** * The loops as a whole *)
(* ================================================================== *)

Lemma reports_app (a b : list (list LogArg)) :
  reports (a ++ b) = (reports a + reports b)%nat.
Proof. unfold reports. now rewrite filter_app, length_app. Qed.

Lemma string_length_append (a b : string) :
  String.length (a ++ b) = (String.length a + String.length b)%nat.
Proof. induction a as [|c a IH]; simpl; [reflexivity|]. now rewrite IH. Qed.

Lemma reports_cons (line : list LogArg) (lines : list (list LogArg)) :
  reports (line :: lines)
  = ((if is_produced line then 1 else 0) + reports lines)%nat.
Proof. unfold reports. simpl. now destruct (is_produced line). Qed.

Lemma mismatch_line_differs (err code : string) :
  String.eqb (err ++ " (bitcoin core) !== " ++ code ++ " (bcoin)")
    "Produced valid scripts:" = false.
Proof.
  apply String.eqb_neq. intros E.
  apply (f_equal String.length) in E.
  rewrite !string_length_append in E. simpl in E. lia.
Qed.

Section Loops.

Context {L : Library}.

Lemma mismatch_lines_no_report err tx output flags code :
  reports (mismatch_lines err tx output flags code) = 0%nat.
Proof.
  unfold mismatch_lines. rewrite !reports_cons. cbn [is_produced].
  rewrite mismatch_line_differs. reflexivity.
Qed.

Lemma assertConsensus_world consensus tx output flags code (w : World) :
  exists lines,
    snd (assertConsensus consensus tx output flags code w)
    = mkWorld (rng w) (logs w ++ lines)
        (calls w ++ match consensus with
                    | Some _ =>
                        [CallOracle (TX_toRaw tx) 0 (Script.toRaw output)
                           0 flags]
                    | None => []
                    end)
    /\ reports lines = 0%nat.
Proof.
  destruct consensus as [oracle|].
  - set (err := oracle (TX_toRaw tx) 0 (Script.toRaw output) 0 flags).
    destruct (code_differs err code) eqn:E.
    + apply code_differs_spec in E.
      rewrite (assertConsensus_differ oracle tx output flags code w E).
      eexists. split; [reflexivity|]. apply mismatch_lines_no_report.
    + assert (code = Some err) as ->.
      { unfold code_differs in E. destruct code as [c|]; [|discriminate].
        apply negb_false_iff, String.eqb_eq in E. now subst. }
      unfold err. rewrite assertConsensus_agree. exists []. simpl.
      now rewrite app_nil_r.
  - exists []. simpl. rewrite !app_nil_r. now destruct w.
Qed.

(** X12.  With a reference verifier loaded, [assertConsensus] writes
    nothing exactly when the verifier's code is the local engine's code:
    on agreement the one call to the verifier is all it leaves, and
    unchanged log lines mean the codes agree. *)
Theorem assertConsensus_silent_iff_agreement
    (oracle : Oracle) (tx : TX.t) (output : Script.t) (flags : Z)
    (code : option string) (w : World) :
  let err := oracle (TX_toRaw tx) 0 (Script.toRaw output) 0 flags in
  (code = Some err ->
   assertConsensus (Some oracle) tx output flags code w
   = (Ok tt,
      called (CallOracle (TX_toRaw tx) 0 (Script.toRaw output) 0 flags) w))
  /\ (logs (snd (assertConsensus (Some oracle) tx output flags code w))
      = logs w -> code = Some err).
Proof.
  intros err. split.
  - intros ->. apply assertConsensus_agree.
  - intros Hlogs. destruct (code_differs err code) eqn:E.
    + apply code_differs_spec in E.
      rewrite (assertConsensus_differ oracle tx output flags code w E)
        in Hlogs.
      simpl in Hlogs. apply (f_equal (@length _)) in Hlogs.
      rewrite length_app in Hlogs. simpl in Hlogs. lia.
    + unfold code_differs in E. destruct code as [c|]; [|discriminate].
      apply negb_false_iff, String.eqb_eq in E. now subst.
Qed.

(** X13.  A round of [fuzzVerify] or [fuzzLess] makes one call to the
    engine and then, with a reference verifier loaded and the
    verification ended without an exception or with a script error,
    exactly one call to the verifier, for the same transaction, the same
    output script and the same flags; after any other exception, or with
    no verifier loaded, it makes no further call. *)
Theorem checks_consult_verifier_once
    (consensus : option Oracle) (flags : Z) (tx : TX.t) (w : World) :
  (forall input witness output,
      calls (snd (fuzzVerify_check consensus flags tx input witness output w))
      = calls w
        ++ CallVerify input witness output tx 0 0 flags
        :: oracle_calls consensus tx output flags
             (Script_verify input witness output tx 0 0 flags))
  /\ (forall ctx,
      calls (snd (fuzzLess_check consensus flags tx ctx w))
      = calls w
        ++ CallVerify (Context.input ctx) (Context.witness ctx)
             (Context.output ctx) tx 0 0 flags
        :: oracle_calls consensus tx (Context.output ctx) flags
             (Script_verify (Context.input ctx) (Context.witness ctx)
                (Context.output ctx) tx 0 0 flags)).
Proof.
  split.
  - intros input witness output. rewrite fuzzVerify_check_eq. cbv zeta.
    set (w1 := called (CallVerify input witness output tx 0 0 flags) w).
    unfold oracle_calls.
    destruct (Script_verify input witness output tx 0 0 flags) as [e|].
    + destruct (isScriptError e).
      * destruct (assertConsensus_world consensus tx output flags
                    (Error.code e) w1) as (lines & -> & _).
        simpl. rewrite <- app_assoc. now destruct consensus.
      * simpl. now destruct consensus.
    + destruct (assertConsensus_world consensus tx output flags
                  (Some "OK"%string) w1) as (lines & E & _).
      destruct (isPushOnly output); simpl; rewrite E; simpl;
        rewrite <- app_assoc; now destruct consensus.
  - intros ctx. rewrite fuzzLess_check_eq. cbv zeta.
    set (w1 := called (CallVerify (Context.input ctx) (Context.witness ctx)
                         (Context.output ctx) tx 0 0 flags) w).
    unfold oracle_calls.
    destruct (Script_verify (Context.input ctx) (Context.witness ctx)
                (Context.output ctx) tx 0 0 flags) as [e|].
    + destruct (isScriptError e).
      * destruct (assertConsensus_world consensus tx (Context.output ctx)
                    flags (Error.code e) w1) as (lines & -> & _).
        simpl. rewrite <- app_assoc. now destruct consensus.
      * simpl. now destruct consensus.
    + destruct (assertConsensus_world consensus tx (Context.output ctx)
                  flags (Some "OK"%string) w1) as (lines & E & _).
      simpl. rewrite E. simpl. rewrite <- app_assoc. now destruct consensus.
Qed.

End Loops.

Section Program.

Context {L : Library}.

Lemma loop_head_total st w st1 w1 :
  loop_head st w = (Ok st1, w1) -> total st1 = total st + 1.
Proof.
  unfold loop_head. intros H.
  apply bind_Ok_inv in H as (u & w2 & _ & H).
  apply bind_Ok_inv in H as (t & w3 & _ & H).
  now apply ret_inv in H as [<- _].
Qed.

Lemma loop_running (iter : LoopState -> M (Outcome * LoopState)) :
  (forall st w o st' w',
      iter st w = (Ok (o, st'), w') -> total st' = total st + 1) ->
  forall fuel st w st' w',
    loop iter fuel st w = (Ok (Running st'), w') ->
    total st' = total st + Z.of_nat fuel.
Proof.
  intros Hiter. induction fuel as [|fuel IH]; intros st w st' w' H.
  - simpl in H. apply ret_inv in H as [H _]. inversion H. lia.
  - simpl in H. apply bind_Ok_inv in H as ([o st1] & w1 & H1 & H).
    apply Hiter in H1. simpl in H. destruct o.
    + apply IH in H. lia.
    + apply ret_inv in H as [H _]. discriminate.
Qed.

Lemma fuzzSimple_iter_total flags st w o st' w' :
  fuzzSimple_iter flags st w = (Ok (o, st'), w') ->
  total st' = total st + 1.
Proof.
  unfold fuzzSimple_iter. intros H.
  apply bind_Ok_inv in H as (st1 & w1 & H1 & H).
  apply bind_Ok_inv in H as (o1 & w2 & _ & H).
  apply ret_inv in H as [H _]. inversion H; subst.
  now apply loop_head_total in H1.
Qed.

Lemma fuzzVerify_iter_total consensus flags st w o st' w' :
  fuzzVerify_iter consensus flags st w = (Ok (o, st'), w') ->
  total st' = total st + 1.
Proof.
  unfold fuzzVerify_iter. intros H.
  apply bind_Ok_inv in H as (st1 & w1 & H1 & H).
  apply bind_Ok_inv in H as (r & w2 & _ & H).
  apply ret_inv in H as [H _]. inversion H; subst. simpl.
  now apply loop_head_total in H1.
Qed.

Lemma fuzzLess_iter_total consensus flags st w o st' w' :
  fuzzLess_iter consensus flags st w = (Ok (o, st'), w') ->
  total st' = total st + 1.
Proof.
  unfold fuzzLess_iter. intros H.
  apply bind_Ok_inv in H as (st1 & w1 & H1 & H).
  apply bind_Ok_inv in H as (r & w2 & _ & H).
  apply ret_inv in H as [H _]. inversion H; subst. simpl.
  now apply loop_head_total in H1.
Qed.

(** X14.  [total] counts the rounds from 0: a loop that is still running
    after [n] rounds holds [total = n - 1], in each of the three
    loops. *)
Theorem loops_count_rounds
    (consensus : option Oracle) (flags : Z) (fuel : nat)
    (w : World) (st : LoopState) (w' : World) :
  fuzzSimple flags fuel w = (Ok (Running st), w')
  \/ fuzzVerify consensus flags fuel w = (Ok (Running st), w')
  \/ fuzzLess consensus flags fuel w = (Ok (Running st), w') ->
  total st = Z.of_nat fuel - 1.
Proof.
  intros [H|[H|H]].
  - unfold fuzzSimple in H.
    apply bind_Ok_inv in H as (tx0 & w0 & _ & H).
    apply loop_running in H; [cbn [total] in H; lia|].
    intros. eapply fuzzSimple_iter_total; eauto.
  - unfold fuzzVerify in H.
    apply bind_Ok_inv in H as (tx0 & w0 & _ & H).
    apply loop_running in H; [cbn [total] in H; lia|].
    intros. eapply fuzzVerify_iter_total; eauto.
  - unfold fuzzLess in H.
    apply bind_Ok_inv in H as (tx0 & w0 & _ & H).
    apply loop_running in H; [cbn [total] in H; lia|].
    intros. eapply fuzzLess_iter_total; eauto.
Qed.

(** X15.  The transaction drawn before a loop is verified by nobody:
    every round whose count is a multiple of 500, the first one among
    them, draws a new transaction and drops the one it was given, so
    the three loops run alike from two states that differ in the first
    transaction only. *)
Theorem first_transaction_is_replaced (tx1 tx2 : TX.t) (w : World) :
  (forall total,
      Z.rem (total + 1) 500 = 0 ->
      loop_head (mkLoop tx1 total) w = loop_head (mkLoop tx2 total) w)
  /\ (forall consensus flags fuel,
      loop (fuzzSimple_iter flags) (S fuel) (mkLoop tx1 (-1)) w
      = loop (fuzzSimple_iter flags) (S fuel) (mkLoop tx2 (-1)) w
      /\ loop (fuzzVerify_iter consensus flags) (S fuel) (mkLoop tx1 (-1)) w
         = loop (fuzzVerify_iter consensus flags) (S fuel) (mkLoop tx2 (-1)) w
      /\ loop (fuzzLess_iter consensus flags) (S fuel) (mkLoop tx1 (-1)) w
         = loop (fuzzLess_iter consensus flags) (S fuel) (mkLoop tx2 (-1)) w).
Proof.
  assert (Hhead : forall total,
             Z.rem (total + 1) 500 = 0 ->
             loop_head (mkLoop tx1 total) w = loop_head (mkLoop tx2 total) w).
  { intros t Ht. unfold loop_head. simpl. rewrite Ht. reflexivity. }
  split; [exact Hhead|].
  intros consensus flags fuel.
  pose proof (Hhead (-1) eq_refl) as H0.
  repeat split; simpl;
    unfold fuzzSimple_iter, fuzzVerify_iter, fuzzLess_iter;
    unfold bind at 2; unfold bind at 1; rewrite H0; reflexivity.
Qed.

(** X16.  [fuzzSimple] only ever calls [execute], always under the flags
    it was given and for input 0, amount 0 and version 0; it never
    verifies and never consults the reference verifier.  [fuzzVerify]
    and [fuzzLess] never call [execute]; they verify under the flags
    they were given and hand the same flags to the reference verifier,
    which they call only when one is loaded. *)
Theorem loops_pass_their_flags
    (consensus : option Oracle) (flags : Z) (fuel : nat) :
  adds_only (executes_under flags) (fuzzSimple flags fuel)
  /\ adds_only (verifies_under consensus flags)
       (fuzzVerify consensus flags fuel)
  /\ adds_only (verifies_under consensus flags)
       (fuzzLess consensus flags fuel).
Proof.
  assert (Hhead : forall P st, adds_only P (loop_head st)).
  { intros P st. unfold loop_head. adds_steps. }
  assert (Hset : forall P tx input witness,
             adds_only P (set_input0 tx input witness)).
  { intros P tx input witness. unfold set_input0. adds_steps. }
  assert (Hexec : forall script stack tx,
             adds_only (executes_under flags)
               (execute script stack flags tx 0 0 0)).
  { intros. unfold execute. adds_steps. apply adds_record_call.
    simpl. auto. }
  assert (Hver : forall input witness output tx,
             adds_only (verifies_under consensus flags)
               (verify input witness output tx 0 0 flags)).
  { intros. unfold verify. adds_steps. apply adds_record_call.
    reflexivity. }
  assert (Hassert : forall tx output code,
             adds_only (verifies_under consensus flags)
               (assertConsensus consensus tx output flags code)).
  { intros. unfold assertConsensus, verifyConsensus.
    destruct consensus eqn:E; adds_steps. apply adds_record_call.
    simpl. split; [reflexivity | discriminate]. }
  repeat apply conj.
  - unfold fuzzSimple. apply adds_bind; [apply adds_liftGen|]. intros tx0.
    apply adds_loop. intros st.
    unfold fuzzSimple_iter, fuzzSimple_body, fuzzSimple_output,
      fuzzSimple_report, rethrow_unless_ScriptError.
    adds_steps_with ltac:(first [apply Hhead | apply Hexec]).
  - unfold fuzzVerify. apply adds_bind; [apply adds_liftGen|]. intros tx0.
    apply adds_loop. intros st.
    unfold fuzzVerify_iter, fuzzVerify_body, fuzzVerify_check.
    adds_steps_with
      ltac:(first [apply Hhead | apply Hset | apply Hver | apply Hassert]).
  - unfold fuzzLess. apply adds_bind; [apply adds_liftGen|]. intros tx0.
    apply adds_loop. intros st.
    unfold fuzzLess_iter, fuzzLess_body, fuzzLess_check.
    adds_steps_with
      ltac:(first [apply Hhead | apply Hset | apply Hver | apply Hassert]).
Qed.

End Program.

(* ================================================================== *)
(** * Modes and reports *)
(* ================================================================== *)

(** The [switch] of [main] takes its default for every mode but the
    three it names. *)
Lemma mode_default {A} (simple verify less other : A) (mode : string) :
  mode <> "simple"%string -> mode <> "verify"%string ->
  mode <> "less"%string ->
  match mode with
  | "simple"%string => simple
  | "verify"%string => verify
  | "less"%string => less
  | _ => other
  end = other.
Proof.
  intros Hs Hv Hl.
  repeat match goal with
         | |- context [match ?x with _ => _ end] => is_var x; destruct x
         end;
    first [ reflexivity
          | exfalso; apply Hs; reflexivity
          | exfalso; apply Hv; reflexivity
          | exfalso; apply Hl; reflexivity ].
Qed.

Section Reports.

Context {L : Library}.

(** X17.  Started with a mode that is none of [simple], [verify] and
    [less], or with none at all, the program writes the three lines of
    help, after the line that names the reference verifier when one is
    loaded, and ends: it draws nothing from the random source and calls
    neither the engine nor the verifier, whatever else is on the
    command line. *)
Theorem unknown_mode_prints_help
    (consensus : option Oracle) (table : FlagsTable) (argv : list string)
    (fuel : nat) (w : World) :
  (forall mode,
      nth_error argv 2 = Some mode ->
      mode <> "simple"%string /\ mode <> "verify"%string
      /\ mode <> "less"%string) ->
  main consensus table argv fuel w = (Ok Finished, logged help_lines w)
  /\ program consensus table argv fuel w
     = (Ok Finished,
        logged (match consensus with
                | Some _ => [[LStr "Running against bitcoinconsensus..."]]
                | None => []
                end ++ help_lines) w).
Proof.
  intros Hmode.
  assert (Hmain : forall w0,
             main consensus table argv fuel w0
             = (Ok Finished, logged help_lines w0)).
  { intros w0. unfold main.
    destruct (nth_error argv 2) as [mode|].
    - destruct (Hmode mode eq_refl) as (Hs & Hv & Hl).
      rewrite (mode_default _ _ _ _ mode Hs Hv Hl).
      unfold bind, util_log, ret, logged, help_lines. simpl.
      repeat rewrite <- app_assoc. reflexivity.
    - unfold bind, util_log, ret, logged, help_lines. simpl.
      repeat rewrite <- app_assoc. reflexivity. }
  split; [apply Hmain|].
  unfold program. destruct consensus.
  - unfold bind at 1. unfold util_log at 1. rewrite Hmain.
    unfold logged. simpl. now rewrite <- app_assoc.
  - unfold bind at 1. unfold ret at 1. rewrite Hmain. reflexivity.
Qed.

Lemma tallies_ret {A} (count : Result A -> nat) (a : A) :
  count (Ok a) = 0%nat -> tallies count (ret a).
Proof. intros H w. exists []. simpl. now rewrite app_nil_r. Qed.

Lemma tallies_throw {A} (count : Result A -> nat) (e : Error.t) :
  count (Throw e) = 0%nat -> tallies count (throw e).
Proof. intros H w. exists []. simpl. now rewrite app_nil_r. Qed.

(** The reports of [m] and of what follows it add up. *)
Lemma tallies_bind {A B} (cm : Result A -> nat)
    (ck : A -> Result B -> nat) (count : Result B -> nat)
    (m : M A) (k : A -> M B) :
  tallies cm m ->
  (forall a, tallies (ck a) (k a)) ->
  (forall e, count (Throw e) = cm (Throw e)) ->
  (forall a w, count (fst (k a w)) = (cm (Ok a) + ck a (fst (k a w)))%nat) ->
  tallies count (bind m k).
Proof.
  intros Hm Hk Hthrow Hadd w. unfold bind.
  destruct (Hm w) as (n1 & E1 & C1).
  destruct (m w) as [[a|e] w1]; simpl in *.
  - destruct (Hk a w1) as (n2 & E2 & C2).
    exists (n1 ++ n2). rewrite E2, E1, app_assoc. split; [reflexivity|].
    rewrite reports_app, C1, C2. symmetry. apply Hadd.
  - exists n1. split; [exact E1|]. rewrite C1. symmetry. apply Hthrow.
Qed.

(** A step that reports nothing leaves the count to what follows. *)
Lemma tallies_then {A B} (count : Result B -> nat) (m : M A) (k : A -> M B) :
  tallies none m ->
  (forall a, tallies count (k a)) ->
  (forall e, count (Throw e) = 0%nat) ->
  tallies count (bind m k).
Proof.
  intros Hm Hk Hthrow.
  apply (tallies_bind none (fun _ => count)); auto.
Qed.

Lemma tallies_quiet {A} (m : M A) :
  (forall w, exists lines,
      logs (snd (m w)) = logs w ++ lines /\ reports lines = 0%nat) ->
  tallies none m.
Proof. intros H w. destruct (H w) as (lines & E & C). now exists lines. Qed.

Lemma tallies_liftGen {A} (m : Gen A) : tallies none (liftGen m).
Proof.
  apply tallies_quiet. intros w. exists []. unfold liftGen.
  destruct (m (rng w)). simpl. now rewrite app_nil_r.
Qed.

Lemma tallies_try_execute script stack flags tx index value version :
  tallies none (try_ (execute script stack flags tx index value version)).
Proof.
  apply tallies_quiet. intros w. exists []. rewrite try_execute. simpl.
  now rewrite app_nil_r.
Qed.

Lemma tallies_loop_head st : tallies none (loop_head st).
Proof.
  apply tallies_quiet. intros w. unfold loop_head.
  set (t := total st + 1).
  destruct (Z.rem t 1000 =? 0), (Z.rem t 500 =? 0);
    unfold bind, util_log, ret, liftGen; simpl;
    try destruct (randomTX (rng w)) as [[tx1|e] g]; simpl;
    first [ exists [[LStr "Fuzzed %d scripts."; LNum t]]; split;
              reflexivity
          | exists []; split; [now rewrite app_nil_r | reflexivity] ].
Qed.

Lemma tallies_set_input0 tx input witness :
  tallies none (set_input0 tx input witness).
Proof.
  apply tallies_quiet. intros w. exists []. unfold set_input0.
  destruct (TX.inputs tx); simpl; now rewrite app_nil_r.
Qed.

Lemma one_if_Break_throw e : one_if_Break (Throw e) = 0%nat.
Proof. reflexivity. Qed.

Lemma tallies_rethrow e : tallies one_if_Break (rethrow_unless_ScriptError e).
Proof.
  intros w. exists []. rewrite rethrow_eq. simpl. rewrite app_nil_r.
  now destruct (isScriptError e).
Qed.

Lemma tallies_fuzzSimple_report input output stack :
  tallies one_if_Break (fuzzSimple_report input output stack).
Proof.
  intros w. rewrite fuzzSimple_report_eq.
  destruct ((Stack.length stack =? 0) || negb (Stack.getBool stack (-1))
            || isPushOnly output).
  - exists []. simpl. now rewrite app_nil_r.
  - exists (simple_report_lines input output stack). split; reflexivity.
Qed.

Lemma tallies_fuzzSimple_body flags tx :
  tallies one_if_Break (fuzzSimple_body flags tx).
Proof.
  unfold fuzzSimple_body.
  apply tallies_then; [apply tallies_liftGen | | reflexivity]. intros input.
  apply tallies_then; [apply tallies_try_execute | | reflexivity].
  intros [e|stack]; [apply tallies_rethrow|].
  unfold fuzzSimple_output.
  apply tallies_then; [apply tallies_liftGen | | reflexivity]. intros output.
  apply tallies_then; [apply tallies_try_execute | | reflexivity].
  intros [e|stack']; [apply tallies_rethrow|].
  apply tallies_fuzzSimple_report.
Qed.

Lemma tallies_fuzzVerify_check consensus flags tx input witness output :
  tallies one_if_Break
    (fuzzVerify_check consensus flags tx input witness output).
Proof.
  intros w. rewrite fuzzVerify_check_eq. cbv zeta.
  set (w1 := called (CallVerify input witness output tx 0 0 flags) w).
  destruct (Script_verify input witness output tx 0 0 flags) as [e|].
  - destruct (isScriptError e).
    + destruct (assertConsensus_world consensus tx output flags
                  (Error.code e) w1) as (lines & -> & C).
      now exists lines.
    + exists []. simpl. now rewrite app_nil_r.
  - destruct (assertConsensus_world consensus tx output flags
                (Some "OK"%string) w1) as (lines & E & C).
    destruct (isPushOnly output); simpl; rewrite E; simpl.
    + now exists lines.
    + exists (lines ++ verify_report_lines input witness output).
      split; [now rewrite app_assoc|]. now rewrite reports_app, C.
Qed.

Lemma tallies_fuzzLess_check consensus flags tx ctx :
  tallies one_if_Break (fuzzLess_check consensus flags tx ctx).
Proof.
  intros w. rewrite fuzzLess_check_eq. cbv zeta.
  set (w1 := called (CallVerify (Context.input ctx) (Context.witness ctx)
                       (Context.output ctx) tx 0 0 flags) w).
  destruct (Script_verify (Context.input ctx) (Context.witness ctx)
              (Context.output ctx) tx 0 0 flags) as [e|].
  - destruct (isScriptError e).
    + destruct (assertConsensus_world consensus tx (Context.output ctx)
                  flags (Error.code e) w1) as (lines & -> & C).
      now exists lines.
    + exists []. simpl. now rewrite app_nil_r.
  - destruct (assertConsensus_world consensus tx (Context.output ctx)
                flags (Some "OK"%string) w1) as (lines & E & C).
    simpl. rewrite E. simpl.
    exists (lines ++ less_report_lines ctx).
    split; [now rewrite app_assoc|]. rewrite reports_app, C.
    unfold less_report_lines. rewrite reports_app.
    now destruct (Context.redeem ctx).
Qed.

Lemma tallies_loop (iter : LoopState -> M (Outcome * LoopState)) :
  (forall st, tallies one_if_break (iter st)) ->
  forall fuel st, tallies one_if_finished (loop iter fuel st).
Proof.
  intros Hiter. induction fuel as [|fuel IH]; intros st; simpl.
  - now apply tallies_ret.
  - apply (tallies_bind one_if_break
             (fun r => match fst r with
                       | Continue => one_if_finished
                       | Break => none
                       end)).
    + apply Hiter.
    + intros [[|] st']; simpl; [apply IH | now apply tallies_ret].
    + reflexivity.
    + intros [[|] st'] w; simpl; [lia | reflexivity].
Qed.

Lemma tallies_fuzzSimple_iter flags st :
  tallies one_if_break (fuzzSimple_iter flags st).
Proof.
  unfold fuzzSimple_iter.
  apply tallies_then; [apply tallies_loop_head | | reflexivity]. intros st1.
  apply (tallies_bind one_if_Break (fun _ => none)).
  - apply tallies_fuzzSimple_body.
  - intros o. now apply tallies_ret.
  - reflexivity.
  - intros [|] w; reflexivity.
Qed.

Lemma tallies_fuzzVerify_iter consensus flags st :
  tallies one_if_break (fuzzVerify_iter consensus flags st).
Proof.
  unfold fuzzVerify_iter.
  apply tallies_then; [apply tallies_loop_head | | reflexivity]. intros st1.
  apply (tallies_bind one_if_break (fun _ => none)).
  - unfold fuzzVerify_body.
    apply tallies_then; [apply tallies_liftGen | | reflexivity]. intros input.
    apply tallies_then; [apply tallies_liftGen | | reflexivity].
    intros witness.
    apply tallies_then; [apply tallies_liftGen | | reflexivity]. intros output.
    apply tallies_then; [apply tallies_set_input0 | | reflexivity]. intros tx1.
    apply (tallies_bind one_if_Break (fun _ => none)).
    + apply tallies_fuzzVerify_check.
    + intros o. now apply tallies_ret.
    + reflexivity.
    + intros [|] w; reflexivity.
  - intros r. now apply tallies_ret.
  - reflexivity.
  - intros [[|] tx1] w; reflexivity.
Qed.

Lemma tallies_fuzzLess_iter consensus flags st :
  tallies one_if_break (fuzzLess_iter consensus flags st).
Proof.
  unfold fuzzLess_iter.
  apply tallies_then; [apply tallies_loop_head | | reflexivity]. intros st1.
  apply (tallies_bind one_if_break (fun _ => none)).
  - unfold fuzzLess_body.
    apply tallies_then; [apply tallies_liftGen | | reflexivity]. intros ctx.
    apply tallies_then; [apply tallies_set_input0 | | reflexivity]. intros tx1.
    apply (tallies_bind one_if_Break (fun _ => none)).
    + apply tallies_fuzzLess_check.
    + intros o. now apply tallies_ret.
    + reflexivity.
    + intros [|] w; reflexivity.
  - intros r. now apply tallies_ret.
  - reflexivity.
  - intros [[|] tx1] w; reflexivity.
Qed.

(** X18.  Each of the three loops writes the line [Produced valid
    scripts:] exactly once when it ends by [break], and not at all while
    it is still running or when it ends with an exception; no other
    line it writes, progress or mismatch, is that line. *)
Theorem report_written_exactly_on_finish
    (consensus : option Oracle) (flags : Z) (fuel : nat) :
  tallies one_if_finished (fuzzSimple flags fuel)
  /\ tallies one_if_finished (fuzzVerify consensus flags fuel)
  /\ tallies one_if_finished (fuzzLess consensus flags fuel).
Proof.
  repeat apply conj.
  - unfold fuzzSimple.
    apply tallies_then; [apply tallies_liftGen | | reflexivity]. intros tx0.
    apply tallies_loop. apply tallies_fuzzSimple_iter.
  - unfold fuzzVerify.
    apply tallies_then; [apply tallies_liftGen | | reflexivity]. intros tx0.
    apply tallies_loop. apply tallies_fuzzVerify_iter.
  - unfold fuzzLess.
    apply tallies_then; [apply tallies_liftGen | | reflexivity]. intros tx0.
    apply tallies_loop. apply tallies_fuzzLess_iter.
Qed.

End Reports.

(* ================================================================== *)
(** * What ends the harness *)
(* ================================================================== *)

Section Aborts.

Context {L : Library}.

Hypothesis in_range : random_in_range L.
Hypothesis new_has_no_input : TX.inputs TX_new = [].

(** The exceptions that leave a loop are those that leave a round, when
    the rounds keep what the loop relies on. *)
Lemma loop_throws (iter : LoopState -> M (Outcome * LoopState))
    (Inv : LoopState -> Prop) (F : Error.t -> Prop) :
  (forall st w r w',
      Inv st -> iter st w = (r, w') ->
      match r with
      | Ok (_, st') => Inv st'
      | Throw e => F e
      end) ->
  forall fuel st w e w',
    Inv st -> loop iter fuel st w = (Throw e, w') -> F e.
Proof.
  intros Hiter. induction fuel as [|fuel IH]; intros st w e w' Hinv H.
  - discriminate.
  - simpl in H. unfold bind in H.
    destruct (iter st w) as [[[o st1]|e1] w1] eqn:E.
    + apply (Hiter _ _ _ _ Hinv) in E. simpl in H. destruct o.
      * eapply IH; eauto.
      * discriminate.
    + apply (Hiter _ _ _ _ Hinv) in E. now inversion H; subst.
Qed.

Lemma fuzzSimple_body_throws flags tx w e w' :
  fuzzSimple_body flags tx w = (Throw e, w') -> engine_failure flags e.
Proof.
  destruct (randomInputScript_returns None (rng w)) as (input & g & Hin).
  rewrite (fuzzSimple_body_eq flags tx w Hin). cbv zeta.
  set (w1 := called _ _).
  destruct (Script_execute input [] flags tx 0 0 0) as [e0|stack] eqn:Ei.
  - destruct (isScriptError e0) eqn:Es; intros H; inversion H; subst.
    split; [exact Es|]. left. now exists input, [], tx.
  - destruct (randomOutputScript_returns (rng w1)) as (output & g1 & Hout).
    rewrite (fuzzSimple_output_eq flags tx input stack w1 Hout). cbv zeta.
    destruct (Script_execute output stack flags tx 0 0 0) as [e0|stack']
      eqn:Eo.
    + destruct (isScriptError e0) eqn:Es; intros H; inversion H; subst.
      split; [exact Es|]. left. now exists output, stack, tx.
    + rewrite fuzzSimple_report_eq.
      destruct (_ || _ || _); discriminate.
Qed.

Lemma fuzzVerify_check_throws consensus flags tx input witness output
    w e w' :
  fuzzVerify_check consensus flags tx input witness output w = (Throw e, w')
  -> engine_failure flags e.
Proof.
  rewrite fuzzVerify_check_eq. cbv zeta.
  destruct (Script_verify input witness output tx 0 0 flags) as [e0|] eqn:E.
  - destruct (isScriptError e0) eqn:Es; intros H; inversion H; subst.
    split; [exact Es|]. right. now exists input, witness, output, tx.
  - destruct (isPushOnly output); discriminate.
Qed.

Lemma fuzzLess_check_throws consensus flags tx ctx w e w' :
  fuzzLess_check consensus flags tx ctx w = (Throw e, w')
  -> engine_failure flags e.
Proof.
  rewrite fuzzLess_check_eq. cbv zeta.
  destruct (Script_verify (Context.input ctx) (Context.witness ctx)
              (Context.output ctx) tx 0 0 flags) as [e0|] eqn:E.
  - destruct (isScriptError e0) eqn:Es; intros H; inversion H; subst.
    split; [exact Es|]. right.
    now exists (Context.input ctx), (Context.witness ctx),
      (Context.output ctx), tx.
  - discriminate.
Qed.

Lemma randomTX_has_input g tx0 g' :
  randomTX g = (Ok tx0, g') -> TX.inputs tx0 <> [].
Proof.
  intros H. pose proof (randomTX_inputs g tx0 g' in_range new_has_no_input H).
  destruct (TX.inputs tx0); [simpl in *; lia | discriminate].
Qed.

Lemma loop_head_has_input st w st1 w1 :
  has_input st -> loop_head st w = (Ok st1, w1) -> has_input st1.
Proof.
  unfold loop_head, has_input. intros Hinv H.
  apply bind_Ok_inv in H as (u & w2 & _ & H).
  apply bind_Ok_inv in H as (t & w3 & Ht & H).
  apply ret_inv in H as [<- _]. simpl.
  destruct (Z.rem (total st + 1) 500 =? 0).
  - unfold liftGen in Ht.
    destruct (randomTX (rng w2)) as [[t0|e0] g0] eqn:E;
      inversion Ht; subst.
    now apply randomTX_has_input in E.
  - now apply ret_inv in Ht as [<- _].
Qed.

Lemma fuzzSimple_iter_step flags st w r w' :
  fuzzSimple_iter flags st w = (r, w') ->
  match r with
  | Ok _ => True
  | Throw e => engine_failure flags e
  end.
Proof.
  destruct (loop_head_returns in_range st w) as (st1 & w1 & Hh).
  rewrite (fuzzSimple_iter_eq flags Hh).
  destruct (fuzzSimple_body flags (tx st1) w1) as [[o|e] w2] eqn:E;
    intros H; inversion H; subst; [exact I|].
  now apply fuzzSimple_body_throws in E.
Qed.

Lemma fuzzVerify_iter_step consensus flags st w r w' :
  has_input st ->
  fuzzVerify_iter consensus flags st w = (r, w') ->
  match r with
  | Ok (_, st') => has_input st'
  | Throw e => engine_failure flags e
  end.
Proof.
  intros Hinv.
  destruct (loop_head_returns in_range st w) as (st1 & w1 & Hh).
  pose proof (loop_head_has_input st w st1 w1 Hinv Hh) as Hinv1.
  unfold has_input in Hinv1.
  destruct (TX.inputs (tx st1)) as [|i rest] eqn:Ein; [congruence|].
  destruct (randomInputScript_returns None (rng w1)) as (input & g1 & Hi).
  destruct (returns_randomWitness None g1) as (witness & g2 & Hw & _).
  destruct (randomOutputScript_returns g2) as (output & g3 & Ho).
  unfold fuzzVerify_iter. rewrite (bind_Ok _ _ _ Hh).
  unfold fuzzVerify_body. unfold bind at 1.
  rewrite (bind_Ok _ _ _ (liftGen_eq _ _ Hi)).
  simpl rng. simpl logs. simpl calls.
  rewrite (bind_Ok _ _ _ (liftGen_eq _ (mkWorld g1 (logs w1) (calls w1)) Hw)).
  simpl rng. simpl logs. simpl calls.
  rewrite (bind_Ok _ _ _ (liftGen_eq _ (mkWorld g2 (logs w1) (calls w1)) Ho)).
  simpl rng. simpl logs. simpl calls.
  rewrite (bind_Ok _ _ _ (set_input0_eq _ _ _ _ Ein)).
  unfold bind, ret.
  destruct (fuzzVerify_check _ _ _ _ _ _ _) as [[o|e] w2] eqn:E;
    intros H; inversion H; subst.
  - unfold has_input. simpl. discriminate.
  - now apply fuzzVerify_check_throws in E.
Qed.

Lemma fuzzLess_iter_step consensus flags st w r w' :
  has_input st ->
  fuzzLess_iter consensus flags st w = (r, w') ->
  match r with
  | Ok (_, st') => has_input st'
  | Throw e => engine_failure flags e
  end.
Proof.
  intros Hinv.
  destruct (loop_head_returns in_range st w) as (st1 & w1 & Hh).
  pose proof (loop_head_has_input st w st1 w1 Hinv Hh) as Hinv1.
  unfold has_input in Hinv1.
  destruct (TX.inputs (tx st1)) as [|i rest] eqn:Ein; [congruence|].
  destruct (randomContext_returns in_range (rng w1)) as (ctx & g1 & Hc).
  unfold fuzzLess_iter. rewrite (bind_Ok _ _ _ Hh).
  unfold fuzzLess_body. unfold bind at 1.
  rewrite (bind_Ok _ _ _ (liftGen_eq _ _ Hc)).
  rewrite (bind_Ok _ _ _ (set_input0_eq _ _ _ _ Ein)).
  unfold bind, ret.
  destruct (fuzzLess_check _ _ _ _ _) as [[o|e] w2] eqn:E;
    intros H; inversion H; subst.
  - unfold has_input. simpl. discriminate.
  - now apply fuzzLess_check_throws in E.
Qed.

(** X19.  With [util.random] within its bounds and a new transaction
    without inputs, nothing of the harness's own ends a loop: neither
    the [throw new Error()] of a [switch] nor a write to a missing first
    input.  An exception that leaves [fuzzSimple], [fuzzVerify] or
    [fuzzLess] is one the engine threw for a script of the loop, under
    the loop's flags, and it is not a script error. *)
Theorem loops_abort_only_on_engine_failure
    (consensus : option Oracle) (flags : Z) (fuel : nat)
    (w : World) (e : Error.t) (w' : World) :
  fuzzSimple flags fuel w = (Throw e, w')
  \/ fuzzVerify consensus flags fuel w = (Throw e, w')
  \/ fuzzLess consensus flags fuel w = (Throw e, w') ->
  engine_failure flags e.
Proof.
  destruct (returns_randomTX in_range (rng w)) as (tx0 & g0 & Htx & _).
  pose proof (randomTX_has_input _ _ _ Htx) as Hin.
  intros [H|[H|H]].
  - unfold fuzzSimple in H. rewrite (bind_Ok _ _ _ (liftGen_eq _ _ Htx)) in H.
    apply (loop_throws (fuzzSimple_iter flags) (fun _ => True)
             (engine_failure flags)) in H; auto.
    intros st w1 r w2 _ Hr. apply fuzzSimple_iter_step in Hr.
    now destruct r as [[o st']|e1].
  - unfold fuzzVerify in H. rewrite (bind_Ok _ _ _ (liftGen_eq _ _ Htx)) in H.
    apply (loop_throws (fuzzVerify_iter consensus flags) has_input
             (engine_failure flags)) in H; auto.
    intros st w1 r w2 Hinv Hr.
    now apply (fuzzVerify_iter_step _ _ _ _ _ _ Hinv) in Hr.
  - unfold fuzzLess in H. rewrite (bind_Ok _ _ _ (liftGen_eq _ _ Htx)) in H.
    apply (loop_throws (fuzzLess_iter consensus flags) has_input
             (engine_failure flags)) in H; auto.
    intros st w1 r w2 Hinv Hr.
    now apply (fuzzLess_iter_step _ _ _ _ _ _ Hinv) in Hr.
Qed.

End Aborts.

(* ================================================================== *)
(** * The reference verifier only informs *)
(* ================================================================== *)

Section Informs.

Context {L : Library}.

Lemma same_ret {A} (a : A) : same_run (ret a) (ret a).
Proof. intros w1 w2 E. now split. Qed.

Lemma same_throw {A} (e : Error.t) :
  same_run (@throw World A e) (@throw World A e).
Proof. intros w1 w2 E. now split. Qed.

Lemma same_bind {A B} (m1 m2 : M A) (k1 k2 : A -> M B) :
  same_run m1 m2 -> (forall a, same_run (k1 a) (k2 a)) ->
  same_run (bind m1 k1) (bind m2 k2).
Proof.
  intros Hm Hk w1 w2 E. unfold bind.
  destruct (Hm w1 w2 E) as [F R].
  destruct (m1 w1) as [[a1|e1] w1'], (m2 w2) as [[a2|e2] w2'];
    simpl in F, R; inversion F; subst.
  - now apply Hk.
  - now split.
Qed.

Lemma same_try {A} (m1 m2 : M A) :
  same_run m1 m2 -> same_run (try_ m1) (try_ m2).
Proof.
  intros Hm w1 w2 E. unfold try_. destruct (Hm w1 w2 E) as [F R].
  destruct (m1 w1) as [[a1|e1] w1'], (m2 w2) as [[a2|e2] w2'];
    simpl in F, R; inversion F; subst; now split.
Qed.

Lemma same_liftGen {A} (m : Gen A) : same_run (liftGen m) (liftGen m).
Proof.
  intros w1 w2 E. unfold liftGen. rewrite E.
  destruct (m (rng w2)). now split.
Qed.

Lemma same_util_log args : same_run (util_log args) (util_log args).
Proof. intros w1 w2 E. now split. Qed.

Lemma same_record_call c : same_run (record_call c) (record_call c).
Proof. intros w1 w2 E. now split. Qed.

Lemma same_assertConsensus c1 c2 tx output flags code :
  same_run (assertConsensus c1 tx output flags code)
    (assertConsensus c2 tx output flags code).
Proof.
  intros w1 w2 E.
  destruct (assertConsensus_returns c1 tx output flags code w1) as [F1 R1].
  destruct (assertConsensus_returns c2 tx output flags code w2) as [F2 R2].
  split; congruence.
Qed.

(** Walks two computations that differ in the verifier only. *)
Ltac same_steps :=
  repeat first
    [ apply same_assertConsensus
    | apply same_ret | apply same_throw | apply same_liftGen
    | apply same_util_log | apply same_record_call | apply same_try
    | apply same_bind; [|intros]
    | match goal with
      | |- same_run (match ?x with _ => _ end) _ => destruct x
      | |- same_run (if ?b then _ else _) _ => destruct b
      end ].

Lemma same_loop (iter1 iter2 : LoopState -> M (Outcome * LoopState)) :
  (forall st, same_run (iter1 st) (iter2 st)) ->
  forall fuel st, same_run (loop iter1 fuel st) (loop iter2 fuel st).
Proof.
  intros Hiter. induction fuel as [|fuel IH]; intros st; simpl.
  - apply same_ret.
  - apply same_bind; [apply Hiter|]. intros [[|] st']; simpl.
    + apply IH.
    + apply same_ret.
Qed.

(** X20.  The reference verifier never steers the harness: started from
    the same random source, [fuzzVerify] and [fuzzLess] end in the same
    way and have made the same draws, whether a verifier is loaded or
    not and whatever it answers.  Only the log and the calls can
    differ. *)
Theorem verifier_never_steers
    (c1 c2 : option Oracle) (flags : Z) (fuel : nat) :
  same_run (fuzzVerify c1 flags fuel) (fuzzVerify c2 flags fuel)
  /\ same_run (fuzzLess c1 flags fuel) (fuzzLess c2 flags fuel).
Proof.
  split.
  - unfold fuzzVerify. apply same_bind; [apply same_liftGen|]. intros tx0.
    apply same_loop. intros st.
    unfold fuzzVerify_iter, fuzzVerify_body, fuzzVerify_check, loop_head,
      set_input0, verify.
    same_steps.
  - unfold fuzzLess. apply same_bind; [apply same_liftGen|]. intros tx0.
    apply same_loop. intros st.
    unfold fuzzLess_iter, fuzzLess_body, fuzzLess_check, loop_head,
      set_input0, verify.
    same_steps.
Qed.

(** X21.  A round of [fuzzLess] ends the loop exactly when the
    verification returns without an exception, whatever the output
    script is: there is no push-only test as in [fuzzVerify]; its report
    is seven lines, and two more, for the redeem script, exactly when
    the context has one. *)
Theorem fuzzLess_reports_every_success
    (consensus : option Oracle) (flags : Z) (tx : TX.t) (ctx : Context.t)
    (w : World) :
  (fst (fuzzLess_check consensus flags tx ctx w) = Ok Break
   <-> Script_verify (Context.input ctx) (Context.witness ctx)
         (Context.output ctx) tx 0 0 flags = None)
  /\ (Script_verify (Context.input ctx) (Context.witness ctx)
        (Context.output ctx) tx 0 0 flags = None ->
      logs (snd (fuzzLess_check consensus flags tx ctx w))
      = logs (snd (assertConsensus consensus tx (Context.output ctx) flags
                     (Some "OK"%string)
                     (called (CallVerify (Context.input ctx)
                                (Context.witness ctx) (Context.output ctx)
                                tx 0 0 flags) w)))
        ++ less_report_lines ctx)
  /\ length (less_report_lines ctx)
     = match Context.redeem ctx with Some _ => 9%nat | None => 7%nat end.
Proof.
  rewrite fuzzLess_check_eq. cbv zeta.
  destruct (Script_verify (Context.input ctx) (Context.witness ctx)
              (Context.output ctx) tx 0 0 flags) as [e|].
  - repeat split; try discriminate.
    + destruct (isScriptError e); discriminate.
    + unfold less_report_lines. now destruct (Context.redeem ctx).
  - repeat split.
    unfold less_report_lines. now destruct (Context.redeem ctx).
Qed.

End Informs.

(* ================================================================== *)
(** * The further theorems at concrete inputs *)
(* ================================================================== *)

Lemma Broken_random_in_range : random_in_range Sample.broken.
Proof.
  intros lo hi g H. destruct g as [|x g]; simpl.
  - lia.
  - pose proof (Z.mod_pos_bound x (hi - lo) ltac:(lia)). lia.
Defined.

Lemma randomTX_shape_witness :
  random_in_range Sample.library
  /\ (length (TX.outputs Runs.tx) <= 4)%nat
  /\ 0 <= TX.version Runs.tx < 0xffffffff.
Proof.
  split; [exact Sample_random_in_range|].
  destruct (randomTX_shape (L := Sample.library) Runs.tape Runs.tx
              (snd (randomTX (L := Sample.library) Runs.tape))
              Sample_random_in_range ltac:(vm_compute; reflexivity))
    as (Ho & Hv & _).
  split; [exact (proj2 Ho) | exact Hv].
Defined.

Lemma randomWitness_shape_witness :
  random_in_range Sample.library /\ randomBytes_length Sample.library
  /\ exists items,
       Runs.witness = items ++ [[x01]]
       /\ (1 <= length items <= 99)%nat
       /\ Forall (fun item => 0 <= blen item < 100) items.
Proof.
  split; [exact Sample_random_in_range|].
  split; [exact Sample_randomBytes_length|].
  apply (randomWitness_shape (L := Sample.library) (Some [x01]) Runs.tape
           Runs.witness
           (snd (randomWitness (L := Sample.library) (Some [x01]) Runs.tape))
           Sample_random_in_range Sample_randomBytes_length).
  vm_compute. reflexivity.
Defined.

Lemma randomInputScript_shape_witness :
  blen [x01] < 0x100000000
  /\ Script.isPushOnly Runs.inputScript = true
  /\ Script.fromRaw (Script.toRaw Runs.inputScript) = Runs.inputScript.
Proof.
  assert (Hlen : blen [x01] < 0x100000000) by (vm_compute; reflexivity).
  split; [exact Hlen|].
  destruct (randomInputScript_shape (L := Sample.library) (Some [x01])
              Runs.tape Runs.inputScript
              (snd (randomInputScript (L := Sample.library) (Some [x01])
                      Runs.tape))
              Sample_random_in_range Sample_randomBytes_length
              ltac:(vm_compute; reflexivity))
    as (_ & Hpush & Hwf).
  split; [exact Hpush | exact (proj2 (Hwf Hlen))].
Defined.

Lemma randomOutputScript_shape_witness :
  1 <= blen (Script.toRaw Runs.outputScript) <= 9999
  /\ Script.code Runs.outputScript <> [].
Proof.
  apply (randomOutputScript_shape (L := Sample.library) Runs.tape
           Runs.outputScript
           (snd (randomOutputScript (L := Sample.library) Runs.tape))
           Sample_random_in_range Sample_randomBytes_length).
  vm_compute. reflexivity.
Defined.

Lemma randomKey_encoding_witness :
  (forall s, blen (fst (Runs.privateKey s)) = 32)
  /\ (blen Runs.key = 33 \/ blen Runs.key = 65).
Proof.
  assert (Hlen : forall s, blen (fst (Runs.privateKey s)) = 32).
  { intros s. unfold Runs.privateKey, Sample.nextBytes, blen.
    destruct s; simpl; reflexivity. }
  split; [exact Hlen|].
  exact (proj2 (randomKey_encoding (L := Sample.library) Runs.privateKey
                  Runs.tape Runs.key
                  (snd (randomKey (L := Sample.library) Runs.privateKey
                          Runs.tape))
                  ltac:(vm_compute; reflexivity)) Hlen).
Defined.

Lemma randomMultisig_arguments_witness :
  exists m n keys g',
    randomMultisigArgs (L := Sample.library) Runs.tape = (Ok (m, n, keys), g')
    /\ randomMultisig (L := Sample.library) Runs.tape
       = (Ok (Sample.fromMultisig m n keys), g')
    /\ 1 <= n <= 15
    /\ Z.of_nat (length keys) = n
    /\ Forall (fun key => blen key = 33 \/ blen key = 65) keys
    /\ (2 <= n -> 1 <= m < n).
Proof.
  exact (randomMultisig_arguments (L := Sample.library) Runs.tape
           Sample_random_in_range Sample_randomBytes_length).
Defined.

Lemma random_templates_recognized_witness :
  exists version data,
    Runs.program = Script.fromProgram version data
    /\ 0 <= version <= 15 /\ 2 <= blen data <= 40
    /\ Script.getProgram Runs.program = Some (version, data).
Proof.
  apply (proj1 (random_templates_recognized (L := Sample.library)
                  Sample_random_in_range Sample_randomBytes_length)
           Runs.tape Runs.program
           (snd (randomProgram (L := Sample.library) Runs.tape))).
  vm_compute. reflexivity.
Defined.

Lemma randomWitnessNestedContext_ready_witness :
  exists redeem items,
    let program :=
      Script.fromProgram 0 (Sample.sha256 (Script.toRaw redeem)) in
    Context.redeem Runs.nested = Some redeem
    /\ Script.getProgram program
       = Some (0, Sample.sha256 (Script.toRaw redeem))
    /\ Context.input Runs.nested = Sample.fromItems [Script.toRaw program]
    /\ Context.witness Runs.nested = items ++ [Script.toRaw redeem]
    /\ Script.getScripthash (Context.output Runs.nested)
       = Some (Sample.hash160 (Script.toRaw program)).
Proof.
  apply (randomWitnessNestedContext_ready (L := Sample.library) Runs.tape
           Runs.nested
           (snd (randomWitnessNestedContext (L := Sample.library) Runs.tape))
           Sample_hash160_length Sample_sha256_length).
  vm_compute. reflexivity.
Defined.

Lemma plain_contexts_shape_witness :
  Context.redeem Runs.witnessPubkeyhash = None
  /\ Context.input Runs.witnessPubkeyhash = Script.empty
  /\ (1 <= length (Context.witness Runs.witnessPubkeyhash) <= 99)%nat
  /\ exists data,
       blen data = 20
       /\ Script.getProgram (Context.output Runs.witnessPubkeyhash)
          = Some (0, data).
Proof.
  apply (proj2 (plain_contexts_shape (L := Sample.library)
                  Sample_random_in_range Sample_randomBytes_length)
           Runs.tape Runs.witnessPubkeyhash
           (snd (randomWitnessPubkeyhashContext (L := Sample.library)
                   Runs.tape))).
  vm_compute. reflexivity.
Defined.

Lemma randomOutpoint_shape_witness :
  String.length (Outpoint.hash Runs.outpoint) = 64%nat
  /\ all_hex (Outpoint.hash Runs.outpoint) = true
  /\ (exists b,
        blen b = 32 /\ fromHex (Outpoint.hash Runs.outpoint) = Some b)
  /\ 0 <= Outpoint.index Runs.outpoint < 0xffffffff.
Proof.
  apply (randomOutpoint_shape (L := Sample.library) Runs.tape Runs.outpoint
           (snd (randomOutpoint (L := Sample.library) Runs.tape))
           Sample_random_in_range Sample_randomBytes_length).
  vm_compute. reflexivity.
Defined.

Lemma assertConsensus_silent_iff_agreement_witness :
  assertConsensus (L := Sample.library) (Some Sample.oracle) Sample.newTX
    Sample.op_return 0 (Some "UNKNOWN_ERROR"%string) (Sample.world [])
  = (Ok tt,
     called (CallOracle (Sample.toRaw Sample.newTX) 0
               (Script.toRaw Sample.op_return) 0 0) (Sample.world [])).
Proof.
  exact (proj1 (assertConsensus_silent_iff_agreement (L := Sample.library)
                  Sample.oracle Sample.newTX Sample.op_return 0
                  (Some "UNKNOWN_ERROR"%string) (Sample.world []))
           eq_refl).
Defined.

Lemma loops_count_rounds_witness :
  fuzzSimple (L := Sample.library) 0 2 (Sample.world Runs.tape)
  = (Ok (Running Runs.running),
     snd (fuzzSimple (L := Sample.library) 0 2 (Sample.world Runs.tape)))
  /\ total Runs.running = Z.of_nat 2 - 1.
Proof.
  assert (B : match fst (fuzzSimple (L := Sample.library) 0 2
                           (Sample.world Runs.tape)) with
              | Ok (Running _) => true
              | _ => false
              end = true) by (vm_compute; reflexivity).
  assert (H : fuzzSimple (L := Sample.library) 0 2 (Sample.world Runs.tape)
              = (Ok (Running Runs.running),
                 snd (fuzzSimple (L := Sample.library) 0 2
                        (Sample.world Runs.tape)))).
  { unfold Runs.running.
    destruct (fuzzSimple (L := Sample.library) 0 2 (Sample.world Runs.tape))
      as [[[st|]|e] w]; cbn [fst snd] in *; try discriminate B.
    reflexivity. }
  split; [exact H|].
  exact (loops_count_rounds (L := Sample.library) None 0 2
           (Sample.world Runs.tape) Runs.running _ (or_introl H)).
Defined.

Lemma unknown_mode_prints_help_witness :
  main (L := Sample.library) None (mkFlags 1 2049 2048) Runs.argv 5
    (Sample.world Runs.tape)
  = (Ok Finished, logged help_lines (Sample.world Runs.tape)).
Proof.
  apply (unknown_mode_prints_help (L := Sample.library) None
           (mkFlags 1 2049 2048) Runs.argv 5 (Sample.world Runs.tape)).
  intros mode H. inversion H. repeat split; discriminate.
Defined.

Lemma loops_abort_only_on_engine_failure_witness :
  random_in_range Sample.broken
  /\ engine_failure (L := Sample.broken) 0 Sample.crash.
Proof.
  split; [exact Broken_random_in_range|].
  assert (E : fst (fuzzSimple (L := Sample.broken) 0 1 Runs.brokenWorld)
              = Throw Sample.crash) by (vm_compute; reflexivity).
  apply (loops_abort_only_on_engine_failure (L := Sample.broken)
           Broken_random_in_range eq_refl None 0 1 Runs.brokenWorld
           Sample.crash
           (snd (fuzzSimple (L := Sample.broken) 0 1 Runs.brokenWorld))).
  left.
  destruct (fuzzSimple (L := Sample.broken) 0 1 Runs.brokenWorld) as [r w].
  cbn [fst snd] in *. rewrite E. reflexivity.
Defined.

Lemma randomInput_randomOutput_shape_witness :
  random_in_range Sample.library
  /\ 0 <= Output.value Runs.output < 100000000.
Proof.
  split; [exact Sample_random_in_range|].
  apply (proj2 (randomInput_randomOutput_shape (L := Sample.library)
                  Sample_random_in_range)
           Runs.tape Runs.output
           (snd (randomOutput (L := Sample.library) Runs.tape))).
  vm_compute. reflexivity.
Defined.
